(** * Fusion AI backend: billing, credit ledger and admin handlers

    A shallow embedding of
    - [backend/dist/utils/costCalculator.js]
      ([calculateLlmProviderCost], [getNeuroSwitchClassifierFee]),
    - the admin user routes ([PUT /:userId/role],
      [POST /:userId/adjust-credits]) and
    - the admin model route ([PUT /:modelId]),
    over the tables of [schema.sql]; and of
    - the helpers of the admin routes ([generateNewApiKey], the mask of
      listed API keys, [convertPricing], [normalizeIdString]) and
    - the admin account routes ([POST /], [DELETE /:userId],
      [POST /:userId/api-keys]).

    JavaScript numbers are IEEE 754 binary64 values, taken from the
    specification of floating-point arithmetic of the standard library
    ([SpecFloat], precision 53, maximal exponent 1024).  Strings are byte
    strings; the case and white-space functions act on ASCII. *)

From Stdlib Require Import ZArith String Ascii List Bool Lia.
From Stdlib Require Import Floats.SpecFloat.
From stdpp Require Import base option gmap strings pretty.
Import ListNotations.

Local Open Scope string_scope.
Local Open Scope Z_scope.

(* ===================================================================== *)
(** * JavaScript numbers *)
(* ===================================================================== *)

Module JsNumber.

Definition prec : Z := 53.
Definition emax : Z := 1024.

(** A JS [number]. *)
Definition number : Type := spec_float.

Definition NaN : number := S754_nan.
Definition Infinity : number := S754_infinity false.

Definition add (x y : number) : number := SFadd prec emax x y.
Definition mul (x y : number) : number := SFmul prec emax x y.
Definition div (x y : number) : number := SFdiv prec emax x y.

(** [x >= y], [x < y] and [x === y] on numbers; all are false on NaN. *)
Definition geb (x y : number) : bool := SFleb y x.
Definition ltb (x y : number) : bool := SFltb x y.
Definition strict_eqb (x y : number) : bool := SFeqb x y.

Definition isNaN (x : number) : bool :=
  match x with S754_nan => true | _ => false end.

(** The number closest to the rational [p / q] (ties to even), with the
    given sign: the value of a decimal literal with digits [p] and a
    negative exponent, or of an integer literal when [q = 1]. *)
Definition of_ratio (neg : bool) (p : Z) (q : positive) : number :=
  match p with
  | Zpos p' => div (S754_finite neg p' 0) (S754_finite false q 0)
  | _ => S754_zero neg
  end.

(** The number closest to [m * 10 ^ e], for [0 <= m]. *)
Definition of_decimal (neg : bool) (m e : Z) : number :=
  if 0 <=? e then of_ratio neg (m * 10 ^ e) 1
  else of_ratio neg m (Z.to_pos (10 ^ (- e))).

(** An integer as a number. *)
Definition of_Z (z : Z) : number := of_ratio (z <? 0) (Z.abs z) 1.

(** [Number.isInteger]: the integer a number is, if it is one. *)
Definition as_integer (x : number) : option Z :=
  match x with
  | S754_zero _ => Some 0
  | S754_finite s m e =>
      let a :=
        if 0 <=? e then Some (Zpos m * 2 ^ e)
        else if Zpos m mod 2 ^ (- e) =? 0 then Some (Zpos m / 2 ^ (- e))
        else None in
      (fun v : Z => if s then - v else v) <$> a
  | _ => None
  end.

(** ** [Number.prototype.toFixed] with six fraction digits

    For a finite [x] with [|x| < 10^21]: the integer [n] for which
    [n / 10^6 - |x|] is closest to zero (the larger on a tie), printed
    with at least seven digits and a point before the last six; a minus
    sign when [x < 0].  From [10^21] on JS prints [String(x)], the
    shortest digits that read back as [x], in exponent notation; here
    the integer [x] is printed in full, which reads back as [x] too. *)

Definition scaled_round (m : positive) (e : Z) : Z :=
  if 0 <=? e then Zpos m * 2 ^ e * 10 ^ 6
  else (2 * Zpos m * 10 ^ 6 + 2 ^ (- e)) / 2 ^ (- e + 1).

Definition at_least_1e21 (m : positive) (e : Z) : bool :=
  if 0 <=? e then 10 ^ 21 <=? Zpos m * 2 ^ e
  else 10 ^ 21 * 2 ^ (- e) <=? Zpos m.

Fixpoint zeros (n : nat) : string :=
  match n with O => "" | S n' => String "0" (zeros n') end.

Definition pad7 (s : string) : string :=
  zeros (7 - String.length s) +:+ s.

Definition fixed6_digits (n : Z) : string :=
  let d := pad7 (pretty n) in
  let k := (String.length d - 6)%nat in
  substring 0 k d +:+ "." +:+ substring k 6 d.

Definition toFixed6 (x : number) : string :=
  match x with
  | S754_nan => "NaN"
  | S754_infinity s => if s then "-Infinity" else "Infinity"
  | S754_zero _ => "0.000000"
  | S754_finite s m e =>
      (if s then "-" else "") +:+
      (if at_least_1e21 m e then pretty (Zpos m * 2 ^ e)
       else fixed6_digits (scaled_round m e))
  end.

End JsNumber.

(* ===================================================================== *)
(** * JavaScript strings: case, white space, [parseInt], [parseFloat] *)
(* ===================================================================== *)

Module JsString.
Import JsNumber.

Definition lower_ascii (c : ascii) : ascii :=
  let n := nat_of_ascii c in
  if ((65 <=? n) && (n <=? 90))%nat then ascii_of_nat (n + 32) else c.

(** [String.prototype.toLowerCase] and SQL [LOWER]. *)
Fixpoint toLowerCase (s : string) : string :=
  match s with
  | EmptyString => EmptyString
  | String c s' => String (lower_ascii c) (toLowerCase s')
  end.

(** Tab, line feed, vertical tab, form feed, carriage return, space. *)
Definition is_white (c : ascii) : bool :=
  let n := nat_of_ascii c in
  (((9 <=? n) && (n <=? 13)) || (n =? 32))%nat.

Fixpoint trimStart (s : string) : string :=
  match s with
  | String c s' => if is_white c then trimStart s' else s
  | EmptyString => EmptyString
  end.

(** [s.trim() === ''] *)
Definition trim_is_empty (s : string) : bool :=
  match trimStart s with EmptyString => true | _ => false end.

Definition digit_of (c : ascii) : option Z :=
  let n := nat_of_ascii c in
  if ((48 <=? n) && (n <=? 57))%nat then Some (Z.of_nat n - 48) else None.

(** Reads the longest run of decimal digits: the accumulated value, the
    number of digits read, and the rest of the string. *)
Fixpoint read_digits (s : string) (acc : Z) (count : Z) : Z * Z * string :=
  match s with
  | String c s' =>
      match digit_of c with
      | Some d => read_digits s' (10 * acc + d) (count + 1)
      | None => (acc, count, s)
      end
  | EmptyString => (acc, count, s)
  end.

Definition read_sign (s : string) : bool * string :=
  match s with
  | String "-" s' => (true, s')
  | String "+" s' => (false, s')
  | _ => (false, s)
  end.

(** [parseInt(s, 10)]: the integer read, [None] for NaN.  JS rounds
    the integer to a number, which changes nothing below [2^53]. *)
Definition parseInt (s : string) : option Z :=
  let '(neg, s1) := read_sign (trimStart s) in
  let '(v, n, _) := read_digits s1 0 0 in
  if n =? 0 then None else Some (if neg then - v else v).

(** The exponent part [e], [e+] or [e-] followed by digits; an exponent
    indicator without digits is not part of the literal. *)
Definition read_exponent (s : string) : Z :=
  match s with
  | String c s1 =>
      if (Ascii.eqb c "e" || Ascii.eqb c "E")%bool then
        let '(neg, s2) := read_sign s1 in
        let '(v, n, _) := read_digits s2 0 0 in
        if n =? 0 then 0 else if neg then - v else v
      else 0
  | EmptyString => 0
  end.

(** [parseFloat]: the value of the longest prefix of the trimmed string
    that is a decimal literal ([Infinity], digits with an optional
    fraction and exponent, or a fraction starting with a point), NaN
    when there is none. *)
Definition parseFloat (s : string) : number :=
  let '(neg, s1) := read_sign (trimStart s) in
  if String.prefix "Infinity" s1 then S754_infinity neg
  else
    let '(ip, ni, s2) := read_digits s1 0 0 in
    match s2 with
    | String "." s3 =>
        let '(m, nf, s4) := read_digits s3 ip 0 in
        if (ni =? 0) && (nf =? 0) then NaN
        else of_decimal neg m (read_exponent s4 - nf)
    | _ =>
        if ni =? 0 then NaN
        else of_decimal neg ip (read_exponent s2)
    end.

End JsString.

(* ===================================================================== *)
(** * JavaScript values of a request body *)
(* ===================================================================== *)

Module JsValues.
Import JsNumber JsString.

(** A value of a JSON request body. *)
Inductive JsValue :=
| JUndefined
| JNull
| JBool (b : bool)
| JNumber (x : number)
| JString (s : string)
| JObject.

(** [v || undefined] keeps truthy values. *)
Definition or_undefined (v : JsValue) : JsValue :=
  match v with
  | JBool true | JObject => v
  | JNumber x =>
      match x with S754_zero _ | S754_nan => JUndefined | _ => v end
  | JString s => if String.eqb s "" then JUndefined else v
  | _ => JUndefined
  end.

(** [parseFloat(v)]: the argument is first printed.  A number prints
    as digits that read back as the same number, minus zero as ["0"];
    the other non-string values print as text without a leading
    numeral. *)
Definition parseFloat_js (v : JsValue) : number :=
  match v with
  | JString s => parseFloat s
  | JNumber (S754_zero _) => S754_zero false
  | JNumber x => x
  | _ => NaN
  end.

End JsValues.

(* ===================================================================== *)
(** * The database: tables of [schema.sql] and the statements issued *)
(* ===================================================================== *)

Module Schema.
Import JsNumber JsString JsValues.

(** [users]: the columns the handlers read or write. *)
Record UserRow := {
  email : string;
  display_name : option string;
  role : option string
}.

(** [credit_transactions]. *)
Record CreditTransaction := {
  tx_user_id : Z;
  tx_amount_cents : Z;
  tx_method : string;
  tx_status : string;
  tx_description : string
}.

(** [models]; DECIMAL columns reach JS as text, NULL as [None]. *)
Record ModelRow := {
  model_id : Z;
  model_name : string;
  id_string : string;
  provider : string;
  input_cost_per_million_tokens : option string;
  output_cost_per_million_tokens : option string;
  is_active : option bool
}.

(** The [details] object of an admin action. *)
Inductive LogDetails :=
| RoleUpdateDetails (old_role : option string) (new_role : string)
    (target_user_id : Z)
| CreditAdjustmentDetails (adjusted_amount_cents previous_balance_cents
    new_balance_cents : Z) (reason : string)
| ModelConfigDetails (model : Z) (name : string)
    (old_input_cost new_input_cost old_output_cost new_output_cost : number)
    (old_is_active : option bool) (new_is_active : bool).

(** [admin_actions_logs]. *)
Record AdminActionLog := {
  admin_user_id : Z;
  action_type : string;
  target_entity_type : string;
  target_entity_id : string;
  details : LogDetails;
  summary : JsValue
}.

Record Database := {
  users : gmap Z UserRow;                  (* keyed by users.id *)
  user_credits : gmap Z Z;                 (* user_id -> balance_cents *)
  credit_transactions : list CreditTransaction;
  admin_actions_logs : list AdminActionLog;
  models : list ModelRow;
  app_config : gmap string (option string) (* key -> value (TEXT) *)
}.

(** The range of an SQL INTEGER. *)
Definition INT4_MIN : Z := - 2 ^ 31.
Definition INT4_MAX : Z := 2 ^ 31 - 1.
Definition int4 (z : Z) : bool := (INT4_MIN <=? z) && (z <=? INT4_MAX).

(** The statements the embedded code sends to the database. *)
Inductive statement :=
| SelectModelRates | SelectPrimePercentage | SelectClassifierFee
| Connect | Begin | Commit | Rollback | RollbackInCatch
| SelectUserRole | UpdateUserRole
| SelectCredits | SelectUserId
| UpsertCreditsAdd | UpsertCreditsAddProjected | UpsertCreditsSet
| InsertCreditTransaction
| SelectModel | UpdateModel
| LogAdminAction.

(** What a database call does besides its SQL meaning: it may fail
    (connection loss, timeout, deadlock).  [fails s] tells whether
    statement [s] fails in the run at hand; no run of the embedded code
    issues a statement twice. *)
Definition Faults : Type := statement -> bool.

Definition no_faults : Faults := fun _ => false.

(** The outcome of an awaited call: a value, or a rejection. *)
Inductive result (A : Type) :=
| Ok (a : A)
| Rejected.
Arguments Ok {A} a.
Arguments Rejected {A}.

(** [try { body } catch { handler }] around a computation of a value. *)
Definition try_catch {A} (body : result A) (handler : A) : A :=
  match body with Ok a => a | Rejected => handler end.

End Schema.

(* ===================================================================== *)
(** * [backend/dist/utils/costCalculator.js] *)
(* ===================================================================== *)

Module CostCalculator.
Import JsNumber JsString Schema.

(** Numeric literals of the source. *)
Definition lit (s : string) : number := parseFloat s.

Definition DEFAULT_FALLBACK_RATE_input : number := lit "0.002".
Definition DEFAULT_FALLBACK_RATE_output : number := lit "0.002".
Definition FALLBACK_NEUROSWITCH_CLASSIFIER_FEE_DOLLARS : number := lit "0.001".
Definition FALLBACK_PRICING_PRIME_MULTIPLIER : number := lit "1.0".

Definition FIXED_MODEL_COSTS : gmap string number :=
  list_to_map [
    ("openai/dall-e-3", lit "0.04");
    ("openai/dall-e-3-wide", lit "0.08");
    ("openai/dall-e-3-tall", lit "0.08") ].

(** [parseFloat] of a column value; NULL prints as ["null"]. *)
Definition parseFloat_value (v : option string) : number :=
  match v with Some s => parseFloat s | None => parseFloat "null" end.

(** [dbProvider]: the lower-cased provider with its synonyms replaced. *)
Definition dbProvider (neuroSwitchProvider : string) : string :=
  let p := toLowerCase neuroSwitchProvider in
  if String.eqb p "gemini" then "google"
  else if String.eqb p "claude" then "anthropic"
  else p.

(** [`${dbProvider}/${modelIdString.toLowerCase()}`] *)
Definition fullIdString (neuroSwitchProvider modelIdString : string) : string :=
  dbProvider neuroSwitchProvider +:+ "/" +:+ toLowerCase modelIdString.

(** [if (modelIdString)]: neither undefined nor empty. *)
Definition truthy (modelIdString : option string) : option string :=
  match modelIdString with
  | Some EmptyString => None
  | other => other
  end.

(** [SELECT value FROM app_config WHERE key = $1] *)
Definition select_config (fails : Faults) (db : Database)
    (s : statement) (key : string) : result (list (option string)) :=
  if fails s then Rejected
  else Ok (match app_config db !! key with Some v => [v] | None => [] end).

(** [SELECT input_cost_per_million_tokens, output_cost_per_million_tokens
     FROM models WHERE LOWER(provider) = LOWER($1)
     AND LOWER(id_string) = LOWER($2)] *)
Definition select_model_rates (fails : Faults) (db : Database)
    (p id : string) : result (list ModelRow) :=
  if fails SelectModelRates then Rejected
  else Ok (List.filter
             (fun r => String.eqb (toLowerCase (provider r)) (toLowerCase p)
                       && String.eqb (toLowerCase (id_string r)) (toLowerCase id))
             (models db)).

(** The block "Fetch and apply pricing prime", which the source has
    twice with the same text (fixed-price and token-based paths). *)
Definition pricingPrimeMultiplier (fails : Faults) (db : Database) : number :=
  try_catch
    (match select_config fails db SelectPrimePercentage "pricing_prime_percentage" with
     | Rejected => Rejected
     | Ok [] => Ok FALLBACK_PRICING_PRIME_MULTIPLIER
     | Ok (value :: _) =>
         let primePercentage := parseFloat_value value in
         if negb (isNaN primePercentage) && geb primePercentage (of_Z 0)
         then Ok (add (of_Z 1) (div primePercentage (of_Z 100)))
         else Ok FALLBACK_PRICING_PRIME_MULTIPLIER
     end)
    FALLBACK_PRICING_PRIME_MULTIPLIER.

(** [((inputTokens / 1000) * rateIn) + ((outputTokens / 1000) * rateOut)] *)
Definition token_cost (inputTokens outputTokens rateIn rateOut : number) : number :=
  add (mul (div inputTokens (of_Z 1000)) rateIn)
      (mul (div outputTokens (of_Z 1000)) rateOut).

Definition fallback_cost (inputTokens outputTokens : number) : number :=
  token_cost inputTokens outputTokens
    DEFAULT_FALLBACK_RATE_input DEFAULT_FALLBACK_RATE_output.

(** [parseFloat(finalCost.toFixed(6))] *)
Definition round6 (finalCost : number) : number :=
  parseFloat (toFixed6 finalCost).

(** The token-based base cost (lines 73-111). *)
Definition baseCost (fails : Faults) (db : Database)
    (neuroSwitchProvider : string) (modelIdString : option string)
    (inputTokens outputTokens : number) : number :=
  match truthy modelIdString with
  | None => fallback_cost inputTokens outputTokens
  | Some m =>
      try_catch
        (match select_model_rates fails db (dbProvider neuroSwitchProvider)
                 (fullIdString neuroSwitchProvider m) with
         | Rejected => Rejected
         | Ok [] => Ok (fallback_cost inputTokens outputTokens)
         | Ok (dbRow :: _) =>
             let inputRatePer1k :=
               div (parseFloat_value (input_cost_per_million_tokens dbRow)) (of_Z 1000) in
             let outputRatePer1k :=
               div (parseFloat_value (output_cost_per_million_tokens dbRow)) (of_Z 1000) in
             if isNaN inputRatePer1k || isNaN outputRatePer1k
             then Ok (fallback_cost inputTokens outputTokens)
             else Ok (token_cost inputTokens outputTokens inputRatePer1k outputRatePer1k)
         end)
        (fallback_cost inputTokens outputTokens)
  end.

(** The flat cost of a fixed-price model, if the key is in the table. *)
Definition fixed_cost (neuroSwitchProvider : string)
    (modelIdString : option string) : option number :=
  match truthy modelIdString with
  | Some m => FIXED_MODEL_COSTS !! fullIdString neuroSwitchProvider m
  | None => None
  end.

(** [calculateLlmProviderCost]: an async function; its promise resolves
    with the cost ([Ok]) or rejects. *)
Definition calculateLlmProviderCost (fails : Faults) (db : Database)
    (neuroSwitchProvider : string) (modelIdString : option string)
    (inputTokens outputTokens : number) : result number :=
  match fixed_cost neuroSwitchProvider modelIdString with
  | Some base =>
      let finalCost := mul base (pricingPrimeMultiplier fails db) in
      Ok (round6 finalCost)
  | None =>
      let base := baseCost fails db neuroSwitchProvider modelIdString
                    inputTokens outputTokens in
      let finalCost := mul base (pricingPrimeMultiplier fails db) in
      Ok (round6 finalCost)
  end.

(** [getNeuroSwitchClassifierFee] *)
Definition getNeuroSwitchClassifierFee (fails : Faults) (db : Database)
    : result number :=
  Ok (try_catch
        (match select_config fails db SelectClassifierFee
                 "neuroswitch_classifier_fee_cents" with
         | Rejected => Rejected
         | Ok [] => Ok FALLBACK_NEUROSWITCH_CLASSIFIER_FEE_DOLLARS
         | Ok (value :: _) =>
             let feeCents := parseFloat_value value in
             if negb (isNaN feeCents) && geb feeCents (of_Z 0)
             then Ok (div feeCents (of_Z 100))
             else Ok FALLBACK_NEUROSWITCH_CLASSIFIER_FEE_DOLLARS
         end)
        FALLBACK_NEUROSWITCH_CLASSIFIER_FEE_DOLLARS).

End CostCalculator.

(* ===================================================================== *)
(** * Requests, responses and the transaction client *)
(* ===================================================================== *)

Module Http.
Import JsNumber JsString JsValues Schema.

(** [req.user]: set by the authentication middleware. *)
Record AuthUser := { id : option Z }.

Record UpdatedUser := {
  u_id : Z; u_email : string; u_role : option string;
  u_display_name : option string
}.

Inductive Body :=
| ErrorBody (error : string)
| NegativeBalanceBody (error : string) (current_balance_cents : Z)
| RoleUnchangedBody (message : string) (role_name : string)
| RoleUpdatedBody (message : string) (user : option UpdatedUser)
| CreditsAdjustedBody (message : string)
    (user_id previous_balance_cents adjusted_amount_cents new_balance_cents : Z)
| ModelUnchangedBody (message : string) (model : ModelRow)
| ModelUpdatedBody (message : string) (model : option ModelRow).

(** [res.status(status).json(body)] *)
Record Response := { status : Z; body : Body }.

(** What the caller of a handler sees: a response, or none when the
    handler's promise rejects outside its [try] block. *)
Inductive Outcome :=
| Sent (r : Response)
| Unhandled.

Definition json (st : Z) (b : Body) : Response := {| status := st; body := b |}.

End Http.

Module Pg.
Import JsNumber JsString JsValues Schema.

(** A pooled client: the committed database and the view of the
    client's open transaction. *)
Record Client := { committed : Database; working : Database }.

Definition connect (db : Database) : Client :=
  {| committed := db; working := db |}.

(** An awaited call on the client: it changes the client and then
    resolves or rejects. *)
Definition Tx (A : Type) : Type := Client -> result A * Client.

#[export] Instance tx_ret : MRet Tx := fun A a c => (Ok a, c).
#[export] Instance tx_bind : MBind Tx := fun A B f m c =>
  match m c with
  | (Ok a, c') => f a c'
  | (Rejected, c') => (Rejected, c')
  end.

Definition throw {A} : Tx A := fun c => (Rejected, c).

(** A statement labelled [s] that reads and writes the open
    transaction; [None] is an error raised by the database. *)
Definition query {A} (fails : Faults) (s : statement)
    (run : Database -> option (A * Database)) : Tx A :=
  fun c =>
    if fails s then (Rejected, c)
    else match run (working c) with
         | Some (a, w) => (Ok a, {| committed := committed c; working := w |})
         | None => (Rejected, c)
         end.

Definition BEGIN (fails : Faults) : Tx unit := fun c =>
  if fails Begin then (Rejected, c)
  else (Ok tt, {| committed := committed c; working := committed c |}).

Definition COMMIT (fails : Faults) : Tx unit := fun c =>
  if fails Commit then (Rejected, c)
  else (Ok tt, {| committed := working c; working := working c |}).

(** [ROLLBACK]; [s] tells the one in the [try] block ([Rollback]) from
    the one in the [catch] block ([RollbackInCatch]). *)
Definition ROLLBACK (fails : Faults) (s : statement) : Tx unit := fun c =>
  if fails s then (Rejected, c)
  else (Ok tt, {| committed := committed c; working := committed c |}).

(** ** The statements of the admin routes *)

Definition set_user_credits (db : Database) (m : gmap Z Z) : Database :=
  {| users := users db; user_credits := m;
     credit_transactions := credit_transactions db;
     admin_actions_logs := admin_actions_logs db;
     models := models db; app_config := app_config db |}.

Definition set_users (db : Database) (m : gmap Z UserRow) : Database :=
  {| users := m; user_credits := user_credits db;
     credit_transactions := credit_transactions db;
     admin_actions_logs := admin_actions_logs db;
     models := models db; app_config := app_config db |}.

Definition set_credit_transactions (db : Database)
    (l : list CreditTransaction) : Database :=
  {| users := users db; user_credits := user_credits db;
     credit_transactions := l;
     admin_actions_logs := admin_actions_logs db;
     models := models db; app_config := app_config db |}.

Definition set_admin_actions_logs (db : Database)
    (l : list AdminActionLog) : Database :=
  {| users := users db; user_credits := user_credits db;
     credit_transactions := credit_transactions db;
     admin_actions_logs := l;
     models := models db; app_config := app_config db |}.

Definition set_models (db : Database) (l : list ModelRow) : Database :=
  {| users := users db; user_credits := user_credits db;
     credit_transactions := credit_transactions db;
     admin_actions_logs := admin_actions_logs db;
     models := l; app_config := app_config db |}.

(** [SELECT balance_cents FROM user_credits WHERE user_id = $1]:
    the balance of the row, if there is one.  An INTEGER parameter out
    of range is an error. *)
Definition select_credits (fails : Faults) (uid : Z) : Tx (option Z) :=
  query fails SelectCredits (fun db =>
    if int4 uid then Some (user_credits db !! uid, db) else None).

(** [SELECT id FROM users WHERE id = $1] *)
Definition select_user_id (fails : Faults) (uid : Z) : Tx (option Z) :=
  query fails SelectUserId (fun db =>
    if int4 uid then Some ((fun _ => uid) <$> users db !! uid, db) else None).

(** [INSERT INTO user_credits (user_id, balance_cents, updated_at)
     VALUES ($1, $2, NOW()) ON CONFLICT (user_id)
     DO UPDATE SET balance_cents = user_credits.balance_cents + $3
     RETURNING balance_cents].
    Without a row for the user, [$2] is inserted ([user_id] references
    [users]); with one, [$3] is added to the stored balance.  Parameters
    and sums outside INTEGER are errors. *)
Definition upsert_credits_add (fails : Faults) (s : statement)
    (uid inserted delta : Z) : Tx Z :=
  query fails s (fun db =>
    if int4 uid && int4 inserted && int4 delta then
      match user_credits db !! uid with
      | None =>
          match users db !! uid with
          | Some _ => Some (inserted, set_user_credits db (<[uid := inserted]> (user_credits db)))
          | None => None
          end
      | Some balance =>
          if int4 (balance + delta)
          then Some (balance + delta,
                     set_user_credits db (<[uid := balance + delta]> (user_credits db)))
          else None
      end
    else None).

(** [INSERT INTO user_credits (user_id, balance_cents, updated_at)
     VALUES ($1, $2, NOW()) ON CONFLICT (user_id)
     DO UPDATE SET balance_cents = $2 RETURNING balance_cents] *)
Definition upsert_credits_set (fails : Faults) (uid value : Z) : Tx Z :=
  query fails UpsertCreditsSet (fun db =>
    if int4 uid && int4 value then
      match user_credits db !! uid with
      | None =>
          match users db !! uid with
          | Some _ => Some (value, set_user_credits db (<[uid := value]> (user_credits db)))
          | None => None
          end
      | Some _ =>
          Some (value, set_user_credits db (<[uid := value]> (user_credits db)))
      end
    else None).

(** [INSERT INTO credit_transactions (user_id, amount_cents, method,
     status, description, created_at)
     VALUES ($1, $2, 'admin_adjustment', 'completed', $3, NOW())] *)
Definition insert_credit_transaction (fails : Faults)
    (uid amount : Z) (description : string) : Tx unit :=
  query fails InsertCreditTransaction (fun db =>
    if int4 uid && int4 amount then
      match users db !! uid with
      | Some _ =>
          Some (tt, set_credit_transactions db
                      (credit_transactions db ++
                       [ {| tx_user_id := uid; tx_amount_cents := amount;
                            tx_method := "admin_adjustment";
                            tx_status := "completed";
                            tx_description := description |} ]))
      | None => None
      end
    else None).

(** [SELECT role FROM users WHERE id = $1] *)
Definition select_user_role (fails : Faults) (uid : Z)
    : Tx (option (option string)) :=
  query fails SelectUserRole (fun db =>
    if int4 uid then Some (role <$> users db !! uid, db) else None).

(** [UPDATE users SET role = $1, updated_at = NOW() WHERE id = $2
     RETURNING id, email, role, display_name] *)
Definition update_user_role (fails : Faults) (new_role : string) (uid : Z)
    : Tx (option Http.UpdatedUser) :=
  query fails UpdateUserRole (fun db =>
    if int4 uid then
      match users db !! uid with
      | Some u =>
          let u' := {| email := email u; display_name := display_name u;
                       role := Some new_role |} in
          Some (Some {| Http.u_id := uid; Http.u_email := email u;
                        Http.u_role := Some new_role;
                        Http.u_display_name := display_name u |},
                set_users db (<[uid := u']> (users db)))
      | None => Some (None, db)
      end
    else None).

(** Modelled from the spec: [logAdminAction] of [utils/adminLogger],
    whose source is not in the repository snapshot.  It records one
    audit-log entry with the actor, the action and target, the details
    and the summary, through the client of the running transaction, and
    a failure of it rejects. *)
Definition logAdminAction (fails : Faults) (actor : Z)
    (action target_type target : string) (d : LogDetails)
    (sum : JsValue) : Tx unit :=
  query fails LogAdminAction (fun db =>
    Some (tt, set_admin_actions_logs db
                (admin_actions_logs db ++
                 [ {| admin_user_id := actor; action_type := action;
                      target_entity_type := target_type;
                      target_entity_id := target;
                      details := d; summary := sum |} ]))).

End Pg.

(* ===================================================================== *)
(** * Admin routes *)
(* ===================================================================== *)

Module Handler.
Import JsNumber JsString JsValues Schema Http Pg.

(** An authenticated admin request: [req.user], the route parameter
    ([:userId] or [:modelId]) and the parsed JSON body. *)
Record Request := {
  user : option AuthUser;
  param : string;
  req_body : gmap string JsValue
}.

(** A field of the destructured body; a missing one is undefined. *)
Definition field (req : Request) (name : string) : JsValue :=
  default JUndefined (req_body req !! name).

(** [const client = await pool.connect(); try { body } catch (error)
     { await client.query('ROLLBACK'); res.status(500).json(...) }
     finally { client.release() }] *)
Definition with_client (fails : Faults) (db : Database)
    (body : Tx Response) (failure : string) : Outcome * Database :=
  if fails Connect then (Unhandled, db)
  else
    match body (connect db) with
    | (Ok r, c) => (Sent r, committed c)
    | (Rejected, c) =>
        match ROLLBACK fails RollbackInCatch c with
        | (Ok _, c') => (Sent (json 500 (ErrorBody failure)), committed c')
        | (Rejected, c') => (Unhandled, committed c')
        end
    end.

End Handler.

Module AdminUsers.
Import JsNumber JsString JsValues Schema Http Pg Handler.

Definition VALID_ROLES : list string :=
  ["admin"; "pro"; "user"; "sub_user"; "tester"].

(** [VALID_ROLES.includes(r)] *)
Definition includes (l : list string) (r : string) : bool :=
  existsb (String.eqb r) l.

(** [newRole.toLowerCase()] when [newRole] is a non-empty string whose
    lower-case form is a valid role; [None] when the check
    [!newRole || typeof newRole !== 'string' ||
     !VALID_ROLES.includes(newRole.toLowerCase())] rejects. *)
Definition normalizedNewRole (newRole : JsValue) : option string :=
  match newRole with
  | JString s =>
      if String.eqb s "" then None
      else if includes VALID_ROLES (toLowerCase s) then Some (toLowerCase s)
      else None
  | _ => None
  end.

Definition invalid_role_error : string :=
  "Invalid role. Must be one of: " +:+ String.concat ", " VALID_ROLES.

(** The transaction of the role route (lines 629-656). *)
Definition update_role_tx (fails : Faults) (adminUserId targetUserId : Z)
    (newRole : string) (roleChangeSummary : JsValue) : Tx Response :=
  BEGIN fails;;
  userResult ← select_user_role fails targetUserId;
  match userResult with
  | None =>
      ROLLBACK fails Rollback;;
      mret (json 404 (ErrorBody "Target user not found."))
  | Some currentRole =>
      if bool_decide (currentRole = Some newRole) then
        ROLLBACK fails Rollback;;
        mret (json 200 (RoleUnchangedBody
                ("User role is already " +:+ newRole +:+ ". No change made.")
                newRole))
      else
        updateResult ← update_user_role fails newRole targetUserId;
        logAdminAction fails adminUserId "USER_ROLE_UPDATED" "USER"
          (pretty targetUserId)
          (RoleUpdateDetails currentRole newRole targetUserId)
          (or_undefined roleChangeSummary);;
        COMMIT fails;;
        mret (json 200 (RoleUpdatedBody "User role updated successfully."
                          updateResult))
  end.

(** [PUT /api/admin/users/:userId/role] *)
Definition update_role (fails : Faults) (db : Database) (req : Request)
    : Outcome * Database :=
  match user req ≫= id with
  | None =>
      (Sent (json 401 (ErrorBody
         "Admin user ID not found in token, unauthorized.")), db)
  | Some adminUserId =>
      match parseInt (param req) with
      | None =>
          (Sent (json 400 (ErrorBody "Invalid target user ID format.")), db)
      | Some targetUserId =>
          match normalizedNewRole (field req "role") with
          | None => (Sent (json 400 (ErrorBody invalid_role_error)), db)
          | Some newRole =>
              if (targetUserId =? adminUserId) && negb (String.eqb newRole "admin")
              then (Sent (json 403 (ErrorBody
                      "Admins cannot demote themselves from the admin role.")), db)
              else with_client fails db
                     (update_role_tx fails adminUserId targetUserId newRole
                        (field req "summary"))
                     "Failed to update user role."
          end
      end
  end.

(** [amount_cents] when it is a number, an integer and not zero. *)
Definition valid_amount (amount_cents : JsValue) : option Z :=
  match amount_cents with
  | JNumber x =>
      match as_integer x with
      | Some a => if a =? 0 then None else Some a
      | None => None
      end
  | _ => None
  end.

(** [reason] when it is a string that is not empty after trimming. *)
Definition valid_reason (reason : JsValue) : option string :=
  match reason with
  | JString s => if trim_is_empty s then None else Some s
  | _ => None
  end.

Definition negative_balance_error (currentBalanceCents : Z) : string :=
  "Adjustment would result in a negative balance. User has "
  +:+ pretty currentBalanceCents
  +:+ " cents. Maximum possible deduction is "
  +:+ pretty currentBalanceCents +:+ " cents.".

(** Step 4 as the handler has it (lines 725-756): two upserts that
    add [amount_cents] on conflict, then the upsert that sets the
    projected balance, whose returned row is the new balance. *)
Definition write_projected_balance (fails : Faults)
    (targetUserId amount_cents projectedNewBalance : Z) : Tx Z :=
  upsert_credits_add fails UpsertCreditsAdd
    targetUserId amount_cents amount_cents;;
  upsert_credits_add fails UpsertCreditsAddProjected
    targetUserId projectedNewBalance amount_cents;;
  upsert_credits_set fails targetUserId projectedNewBalance.

(** Step 4 in the words of the specification: one upsert that sets
    [balance_cents] to the projection (insert without a prior row,
    direct set with one). *)
Definition spec_set_projected_balance (fails : Faults)
    (targetUserId projectedNewBalance : Z) : Tx Z :=
  upsert_credits_set fails targetUserId projectedNewBalance.

(** Steps 3 to 6 and the commit (lines 711-782), once the current
    balance is known.  The numbers of the handler are integers here:
    where the INTEGER parameters are accepted, the sums of the JS
    numbers are exact. *)
Definition adjust_from_balance (fails : Faults) (adminUserId targetUserId : Z)
    (amount_cents : Z) (reason : string) (currentBalanceCents : Z)
    : Tx Response :=
  let projectedNewBalance := currentBalanceCents + amount_cents in
  if projectedNewBalance <? 0 then
    ROLLBACK fails Rollback;;
    mret (json 400 (NegativeBalanceBody
            (negative_balance_error currentBalanceCents) currentBalanceCents))
  else
    newBalanceCents ← write_projected_balance fails targetUserId
                        amount_cents projectedNewBalance;
    insert_credit_transaction fails targetUserId amount_cents
      ("Admin Credit Adjustment: " +:+ reason);;
    logAdminAction fails adminUserId "USER_CREDIT_ADJUSTMENT" "USER"
      (pretty targetUserId)
      (CreditAdjustmentDetails amount_cents currentBalanceCents
         newBalanceCents reason)
      (JString reason);;
    COMMIT fails;;
    mret (json 200 (CreditsAdjustedBody "User credits adjusted successfully."
            targetUserId currentBalanceCents amount_cents newBalanceCents)).

(** The transaction of the credit route (lines 693-782). *)
Definition adjust_credits_tx (fails : Faults) (adminUserId targetUserId : Z)
    (amount_cents : Z) (reason : string) : Tx Response :=
  BEGIN fails;;
  creditResult ← select_credits fails targetUserId;
  match creditResult with
  | None =>
      userCheck ← select_user_id fails targetUserId;
      match userCheck with
      | None =>
          ROLLBACK fails Rollback;;
          mret (json 404 (ErrorBody "Target user not found."))
      | Some _ =>
          adjust_from_balance fails adminUserId targetUserId
            amount_cents reason 0
      end
  | Some balance_cents =>
      adjust_from_balance fails adminUserId targetUserId
        amount_cents reason balance_cents
  end.

(** [POST /api/admin/users/:userId/adjust-credits] *)
Definition adjust_credits (fails : Faults) (db : Database) (req : Request)
    : Outcome * Database :=
  match user req ≫= id with
  | None =>
      (Sent (json 401 (ErrorBody
         "Admin user ID not found in token, unauthorized.")), db)
  | Some adminUserId =>
      match parseInt (param req) with
      | None =>
          (Sent (json 400 (ErrorBody "Invalid target user ID format.")), db)
      | Some targetUserId =>
          match valid_amount (field req "amount_cents") with
          | None =>
              (Sent (json 400 (ErrorBody
                 "Invalid amount_cents. Must be a non-zero integer.")), db)
          | Some amount_cents =>
              match valid_reason (field req "reason") with
              | None =>
                  (Sent (json 400 (ErrorBody
                     "Reason for credit adjustment is required and cannot be empty.")), db)
              | Some reason =>
                  with_client fails db
                    (adjust_credits_tx fails adminUserId targetUserId
                       amount_cents reason)
                    "Failed to adjust user credits."
              end
          end
      end
  end.

End AdminUsers.

Module AdminModels.
Import JsNumber JsString JsValues Schema Http Pg Handler.

Section UpdateModel.

(** How the driver and the DECIMAL(10, 2) column store a JS number:
    the text kept in the column, or [None] when the database refuses
    the value (numeric field overflow).  This conversion is done by
    the driver and the database, outside the repository. *)
Variable decimal_10_2 : number -> option string.

(** [SELECT name, input_cost_per_million_tokens,
     output_cost_per_million_tokens, is_active FROM models
     WHERE id = $1] *)
Definition select_model (fails : Faults) (mid : Z) : Tx (list ModelRow) :=
  query fails SelectModel (fun db =>
    if int4 mid
    then Some (List.filter (fun r => model_id r =? mid) (models db), db)
    else None).

Definition set_model_config (inputCost outputCost : string)
    (active : bool) (r : ModelRow) : ModelRow :=
  {| model_id := model_id r; model_name := model_name r;
     id_string := id_string r; provider := provider r;
     input_cost_per_million_tokens := Some inputCost;
     output_cost_per_million_tokens := Some outputCost;
     is_active := Some active |}.

(** [UPDATE models SET input_cost_per_million_tokens = $1,
     output_cost_per_million_tokens = $2, is_active = $3,
     updated_at = NOW() WHERE id = $4 RETURNING *] *)
Definition update_model_row (fails : Faults) (inputCost outputCost : number)
    (active : bool) (mid : Z) : Tx (list ModelRow) :=
  query fails UpdateModel (fun db =>
    if int4 mid then
      match decimal_10_2 inputCost, decimal_10_2 outputCost with
      | Some i, Some o =>
          let upd r := if model_id r =? mid
                       then set_model_config i o active r else r in
          let ms := List.map upd (models db) in
          Some (List.filter (fun r => model_id r =? mid) ms,
                set_models db ms)
      | _, _ => None
      end
    else None).

(** The transaction of the model route (lines 63-118). *)
Definition update_model_tx (fails : Faults) (adminUserId targetModelId : Z)
    (inputCost outputCost : number) (active : bool) : Tx Response :=
  BEGIN fails;;
  modelResult ← select_model fails targetModelId;
  match modelResult with
  | [] =>
      ROLLBACK fails Rollback;;
      mret (json 404 (ErrorBody "Model not found."))
  | currentModel :: _ =>
      let oldInputCost :=
        CostCalculator.parseFloat_value (input_cost_per_million_tokens currentModel) in
      let oldOutputCost :=
        CostCalculator.parseFloat_value (output_cost_per_million_tokens currentModel) in
      let oldIsActive := is_active currentModel in
      if strict_eqb oldInputCost inputCost
         && strict_eqb oldOutputCost outputCost
         && bool_decide (oldIsActive = Some active)
      then
        ROLLBACK fails Rollback;;
        mret (json 200 (ModelUnchangedBody
                "Model details are already set to the provided values. No change made."
                currentModel))
      else
        updateResult ← update_model_row fails inputCost outputCost active targetModelId;
        logAdminAction fails adminUserId "MODEL_CONFIG_UPDATED" "MODEL"
          (pretty targetModelId)
          (ModelConfigDetails targetModelId (model_name currentModel)
             oldInputCost inputCost oldOutputCost outputCost
             oldIsActive active)
          (JString ("Updated configuration for model "
                    +:+ model_name currentModel +:+ " (ID: "
                    +:+ pretty targetModelId +:+ ")"));;
        COMMIT fails;;
        mret (json 200 (ModelUpdatedBody
                "Model configuration updated successfully."
                (head updateResult)))
  end.

(** [PUT /api/admin/models/:modelId] *)
Definition update_model (fails : Faults) (db : Database) (req : Request)
    : Outcome * Database :=
  match user req ≫= id with
  | None =>
      (Sent (json 401 (ErrorBody "Admin user ID not found, unauthorized.")), db)
  | Some adminUserId =>
      match parseInt (param req) with
      | None => (Sent (json 400 (ErrorBody "Invalid model ID format.")), db)
      | Some targetModelId =>
          let inputCost := parseFloat_js (field req "input_cost_per_million_tokens") in
          let outputCost := parseFloat_js (field req "output_cost_per_million_tokens") in
          if isNaN inputCost || ltb inputCost (of_Z 0)
             || isNaN outputCost || ltb outputCost (of_Z 0)
          then (Sent (json 400 (ErrorBody
                  "Invalid cost values. Must be non-negative numbers.")), db)
          else
            match field req "is_active" with
            | JBool active =>
                with_client fails db
                  (update_model_tx fails adminUserId targetModelId
                     inputCost outputCost active)
                  "Failed to update model configuration."
            | _ =>
                (Sent (json 400 (ErrorBody
                   "Invalid is_active value. Must be true or false.")), db)
            end
      end
  end.

End UpdateModel.

End AdminModels.

(* ===================================================================== *)
(** * Helpers of the admin routes: API keys, prices and model ids *)
(* ===================================================================== *)

Module AdminHelpers.
Import JsNumber JsString.

(** [s.substring(indexStart, indexEnd)]: both indices are clamped to
    the string and swapped when the first is the larger. *)
Definition js_substring (s : string) (indexStart indexEnd : Z) : string :=
  let len := Z.of_nat (String.length s) in
  let a := Z.max 0 (Z.min indexStart len) in
  let b := Z.max 0 (Z.min indexEnd len) in
  String.substring (Z.to_nat (Z.min a b))
    (Z.to_nat (Z.max a b - Z.min a b)) s.

(** The field [api_key_masked] of [GET /:userId/api-keys]:
    [key.api_key ? `${key.api_key.substring(0, 12)}...${key.api_key
     .substring(key.api_key.length - 4)}` : null] *)
Definition api_key_masked (api_key : option string) : option string :=
  match api_key with
  | None | Some EmptyString => None
  | Some k =>
      let len := Z.of_nat (String.length k) in
      Some (js_substring k 0 12 +:+ "..." +:+ js_substring k (len - 4) len)
  end.

Definition hex_digit (n : N) : ascii :=
  nth (N.to_nat n) (list_ascii_of_string "0123456789abcdef") "0"%char.

(** [buffer.toString('hex')]: two lower-case digits for each byte. *)
Fixpoint toString_hex (buffer : list Byte.byte) : string :=
  match buffer with
  | [] => EmptyString
  | b :: rest =>
      let n := Byte.to_N b in
      String (hex_digit (n / 16)) (String (hex_digit (n mod 16))
        (toString_hex rest))
  end.

(** [generateNewApiKey], from the bytes that [crypto.randomBytes(28)]
    hands out. *)
Definition generateNewApiKey (randomBytes : list Byte.byte) : string :=
  let prefix := "sk-fusion-" in
  prefix +:+ toString_hex randomBytes.

(** [convertPricing]: per-token price text to a per-million price. *)
Definition convertPricing (pricePerToken : string) : number :=
  let price := parseFloat pricePerToken in
  if isNaN price then of_Z 0 else mul price (of_Z 1000000).

(** [originalId.split('/')]: the first part, and the remaining parts
    joined by ['/'] again ([None] when there is no slash). *)
Fixpoint split_provider (originalId : string) : string * option string :=
  match originalId with
  | EmptyString => (EmptyString, None)
  | String c rest =>
      if Ascii.eqb c "/" then (EmptyString, Some rest)
      else let '(p, r) := split_provider rest in (String c p, r)
  end.

(** [rawId.replace(/\./g, '-')] *)
Fixpoint replace_dots (rawId : string) : string :=
  match rawId with
  | EmptyString => EmptyString
  | String c rest =>
      String (if Ascii.eqb c "." then "-"%char else c) (replace_dots rest)
  end.

(** [s.includes(t)] *)
Fixpoint str_includes (t s : string) : bool :=
  String.prefix t s
  || match s with
     | EmptyString => false
     | String _ rest => str_includes t rest
     end.

Definition is_digit (c : ascii) : bool :=
  match digit_of c with Some _ => true | None => false end.

(** The longest run of digits at the start, and what follows it. *)
Fixpoint span_digits (s : string) : string * string :=
  match s with
  | String c rest =>
      if is_digit c
      then let '(d, r) := span_digits rest in (String c d, r)
      else (EmptyString, s)
  | EmptyString => (EmptyString, EmptyString)
  end.

(** A match of [\d+\.?\d*] at the start of [s]: the matched text and
    what follows it. *)
Definition match_version (s : string) : option (string * string) :=
  let '(d1, r1) := span_digits s in
  match d1 with
  | EmptyString => None
  | _ =>
      match r1 with
      | String "." r2 =>
          let '(d2, r3) := span_digits r2 in
          Some (d1 +:+ "." +:+ d2, r3)
      | _ => Some (d1, r1)
      end
  end.

(** What follows [p] in [s], when [s] starts with [p]. *)
Fixpoint strip_prefix (p s : string) : option string :=
  match p, s with
  | EmptyString, _ => Some s
  | String a p', String b s' =>
      if Ascii.eqb a b then strip_prefix p' s' else None
  | _, EmptyString => None
  end.

(** [s.replace(re, 'gemini-$1-KIND')] for the global pattern [re]
    that reads [gemini-KIND-] and then captures [\d+\.?\d*]: the
    matches are replaced from left to right; [skip] counts the
    characters of the last match that are still to be passed over. *)
Fixpoint replace_gemini (kind : string) (skip : nat) (s : string) : string :=
  match s with
  | EmptyString => EmptyString
  | String c rest =>
      match skip with
      | S k => replace_gemini kind k rest
      | O =>
          match strip_prefix ("gemini-" +:+ kind +:+ "-") s ≫= match_version with
          | Some (version, _) =>
              "gemini-" +:+ version +:+ "-" +:+ kind
              +:+ replace_gemini kind
                    (String.length ("gemini-" +:+ kind +:+ "-" +:+ version) - 1)
                    rest
          | None => String c (replace_gemini kind 0 rest)
          end
      end
  end.

(** [normalizeIdString] *)
Definition normalizeIdString (originalId : string) : string :=
  let '(provider, rawIdParts) := split_provider originalId in
  let rawId := default EmptyString rawIdParts in
  if String.eqb provider "anthropic" then
    provider +:+ "/" +:+ replace_dots rawId
  else if String.eqb provider "google" && str_includes "gemini" rawId then
    let geminiFixed :=
      replace_gemini "pro" 0 (replace_gemini "flash" 0 rawId) in
    provider +:+ "/" +:+ geminiFixed
  else originalId.

End AdminHelpers.

(* ===================================================================== *)
(** * Admin routes on user accounts and their API keys *)
(* ===================================================================== *)

Module Accounts.
Import JsNumber JsString JsValues Schema Http Handler AdminUsers AdminHelpers.

(** ** Values of the request *)

Fixpoint trimEnd (s : string) : string :=
  match s with
  | EmptyString => EmptyString
  | String c rest =>
      match trimEnd rest with
      | EmptyString => if is_white c then EmptyString else String c EmptyString
      | kept => String c kept
      end
  end.

(** [s.trim()] *)
Definition trim (s : string) : string := trimEnd (trimStart s).

(** [Boolean(v)] *)
Definition Boolean (v : JsValue) : bool :=
  match or_undefined v with JUndefined => false | _ => true end.

(** [v] when it is a string that is not empty after trimming; [None]
    when the check [!v || typeof v !== 'string' || v.trim() === '']
    rejects. *)
Definition nonempty_string (v : JsValue) : option string :=
  match v with
  | JString s => if trim_is_empty s then None else Some s
  | _ => None
  end.

(** ** Tables *)

(** [users], with the columns the account routes read or write. *)
Record Account := {
  account_email : string;
  password_hash : option string;
  account_display_name : option string;
  account_is_active : option bool;
  account_role : option string
}.

(** [api_keys] *)
Record ApiKeyRow := {
  key_user_id : option Z;
  key_name : option string;
  key_api_key : string;
  key_is_active : option bool
}.

(** The [details] object of an account action. *)
Inductive AccountLogDetails :=
| UserCreatedDetails (created_user_id : Z) (email display_name role : string)
    (is_active has_password : bool)
| UserDeletedDetails (deleted_user_id : Z) (email : string)
    (display_name role : option string)
| ApiKeyCreatedDetails (target_user_id : Z) (target_user_email : string)
    (api_key_id : Z) (api_key_name : string).

(** [admin_actions_logs]; [admin_user_id] is set to NULL when the
    admin's account is deleted. *)
Record AccountActionLog := {
  log_admin_user_id : option Z;
  log_action_type : string;
  log_target_entity_type : string;
  log_target_entity_id : string;
  log_details : AccountLogDetails;
  log_summary : string
}.

(** The tables of [schema.sql] that the account routes write, and
    those among the tables of the other admin routes that refer to
    [users]. *)
Record Directory := {
  accounts : gmap Z Account;            (* keyed by users.id *)
  balances : gmap Z Z;                  (* user_credits *)
  transactions : list CreditTransaction;
  api_keys : gmap Z ApiKeyRow;          (* keyed by api_keys.id *)
  account_logs : list AccountActionLog
}.

Inductive account_statement :=
| AccountConnect | AccountBegin | AccountCommit
| AccountRollback | AccountRollbackInCatch
| SelectUserByEmail | InsertUser | InsertUserCredits
| SelectUserById | DeleteUser
| InsertApiKey
| LogAccountAction.

(** Which statements fail in the run at hand, as [Faults]. *)
Definition AccountFaults : Type := account_statement -> bool.

Definition no_account_faults : AccountFaults := fun _ => false.

(** The [code] of a thrown error, as far as the handlers look at it:
    ['23505'], or anything else. *)
Inductive pg_error := unique_violation | other_error.

(** The outcome of an awaited call: a value, or a thrown error. *)
Inductive settled (A : Type) :=
| Resolved (a : A)
| Thrown (e : pg_error).
Arguments Resolved {A} a.
Arguments Thrown {A} e.

(** A pooled client on the directory: what is committed, and the view
    of the open transaction. *)
Record Session := { stored : Directory; pending : Directory }.

Definition open_session (dir : Directory) : Session :=
  {| stored := dir; pending := dir |}.

Definition Run (A : Type) : Type := Session -> settled A * Session.

#[export] Instance run_ret : MRet Run := fun A a c => (Resolved a, c).
#[export] Instance run_bind : MBind Run := fun A B f m c =>
  match m c with
  | (Resolved a, c') => f a c'
  | (Thrown e, c') => (Thrown e, c')
  end.

(** A statement labelled [s]; a failure of the connection carries no
    SQLSTATE of the database. *)
Definition statement_run {A} (fails : AccountFaults) (s : account_statement)
    (run : Directory -> settled (A * Directory)) : Run A :=
  fun c =>
    if fails s then (Thrown other_error, c)
    else match run (pending c) with
         | Resolved (a, w) =>
             (Resolved a, {| stored := stored c; pending := w |})
         | Thrown e => (Thrown e, c)
         end.

Definition begin_transaction (fails : AccountFaults) : Run unit := fun c =>
  if fails AccountBegin then (Thrown other_error, c)
  else (Resolved tt, {| stored := stored c; pending := stored c |}).

Definition commit (fails : AccountFaults) : Run unit := fun c =>
  if fails AccountCommit then (Thrown other_error, c)
  else (Resolved tt, {| stored := pending c; pending := pending c |}).

Definition rollback (fails : AccountFaults) (s : account_statement)
    : Run unit := fun c =>
  if fails s then (Thrown other_error, c)
  else (Resolved tt, {| stored := stored c; pending := stored c |}).

(** ** Responses *)

(** The bodies of the account routes; the timestamps of the rows are
    left out. *)
Inductive AccountBody :=
| AccountError (error : string)
| UserCreated (id : Z) (email : string) (display_name role : option string)
    (is_active : option bool)
| UserDeleted (message : string) (id : Z) (email : string)
    (display_name role : option string)
| ApiKeyCreated (id : Z) (name : option string) (api_key : string)
    (is_active : option bool) (message : string).

Record AccountResponse := { account_status : Z; account_body : AccountBody }.

Inductive AccountOutcome :=
| Answered (r : AccountResponse)
| NotAnswered.

Definition answer (st : Z) (b : AccountBody) : AccountResponse :=
  {| account_status := st; account_body := b |}.

(** [const client = await pool.connect(); try { body } catch (error)
     { await client.query('ROLLBACK'); ... } finally
     { client.release() }], with the response the [catch] block
    chooses from the error. *)
Definition with_session (fails : AccountFaults) (dir : Directory)
    (body : Run AccountResponse) (on_error : pg_error -> AccountResponse)
    : AccountOutcome * Directory :=
  if fails AccountConnect then (NotAnswered, dir)
  else
    match body (open_session dir) with
    | (Resolved r, c) => (Answered r, stored c)
    | (Thrown e, c) =>
        match rollback fails AccountRollbackInCatch c with
        | (Resolved _, c') => (Answered (on_error e), stored c')
        | (Thrown _, c') => (NotAnswered, stored c')
        end
    end.

(** ** Statements *)

Definition set_accounts (dir : Directory) (m : gmap Z Account) : Directory :=
  {| accounts := m; balances := balances dir;
     transactions := transactions dir; api_keys := api_keys dir;
     account_logs := account_logs dir |}.

Definition set_balances (dir : Directory) (m : gmap Z Z) : Directory :=
  {| accounts := accounts dir; balances := m;
     transactions := transactions dir; api_keys := api_keys dir;
     account_logs := account_logs dir |}.

Definition set_api_keys (dir : Directory) (m : gmap Z ApiKeyRow) : Directory :=
  {| accounts := accounts dir; balances := balances dir;
     transactions := transactions dir; api_keys := m;
     account_logs := account_logs dir |}.

Definition set_account_logs (dir : Directory)
    (l : list AccountActionLog) : Directory :=
  {| accounts := accounts dir; balances := balances dir;
     transactions := transactions dir; api_keys := api_keys dir;
     account_logs := l |}.

(** The rows of [users] with the given email. *)
Definition with_email (email : string) (m : gmap Z Account) : gmap Z Account :=
  filter (fun row => account_email row.2 = email) m.

(** [SELECT id FROM users WHERE email = $1] *)
Definition select_user_by_email (fails : AccountFaults) (email : string)
    : Run (gmap Z Account) :=
  statement_run fails SelectUserByEmail (fun dir =>
    Resolved (with_email email (accounts dir), dir)).

Definition fits (limit : nat) (s : string) : bool :=
  (String.length s <=? limit)%nat.

(** [INSERT INTO users (email, display_name, role, password_hash,
     is_active, created_at, updated_at)
     VALUES ($1, $2, $3, $4, $5, NOW(), NOW())
     RETURNING id, email, display_name, role, is_active, created_at].
    [newId] is the value the sequence of [users.id] hands out.  A text
    longer than its VARCHAR column is an error, a row with the same id
    or the same email a unique violation. *)
Definition insert_user (fails : AccountFaults) (newId : Z)
    (email display_name role passwordHash : string) (active : bool)
    : Run (Z * Account) :=
  statement_run fails InsertUser (fun dir =>
    if int4 newId && fits 255 email && fits 100 display_name && fits 50 role
    then
      if bool_decide (accounts dir !! newId = None
                      /\ with_email email (accounts dir) = ∅)
      then
        let row := {| account_email := email;
                      password_hash := Some passwordHash;
                      account_display_name := Some display_name;
                      account_is_active := Some active;
                      account_role := Some role |} in
        Resolved ((newId, row),
                  set_accounts dir (<[newId := row]> (accounts dir)))
      else Thrown unique_violation
    else Thrown other_error).

(** [INSERT INTO user_credits (user_id, balance_cents, updated_at)
     VALUES ($1, 0, NOW())] *)
Definition insert_user_credits (fails : AccountFaults) (uid : Z) : Run unit :=
  statement_run fails InsertUserCredits (fun dir =>
    match balances dir !! uid with
    | Some _ => Thrown unique_violation
    | None =>
        match accounts dir !! uid with
        | Some _ =>
            Resolved (tt, set_balances dir (<[uid := 0]> (balances dir)))
        | None => Thrown other_error
        end
    end).

(** [SELECT id, email, display_name(, role) FROM users WHERE id = $1] *)
Definition select_user_by_id (fails : AccountFaults) (uid : Z)
    : Run (option Account) :=
  statement_run fails SelectUserById (fun dir =>
    if int4 uid then Resolved (accounts dir !! uid, dir)
    else Thrown other_error).

(** [ON DELETE SET NULL] on [admin_actions_logs.admin_user_id]. *)
Definition without_admin (uid : Z) (entry : AccountActionLog)
    : AccountActionLog :=
  {| log_admin_user_id :=
       if bool_decide (log_admin_user_id entry = Some uid) then None
       else log_admin_user_id entry;
     log_action_type := log_action_type entry;
     log_target_entity_type := log_target_entity_type entry;
     log_target_entity_id := log_target_entity_id entry;
     log_details := log_details entry;
     log_summary := log_summary entry |}.

(** [DELETE FROM users WHERE id = $1]: the rows of [user_credits],
    [credit_transactions] and [api_keys] of the user go with it
    ([ON DELETE CASCADE]); the log entries of the user stay without
    their admin. *)
Definition delete_user_row (fails : AccountFaults) (uid : Z) : Run unit :=
  statement_run fails DeleteUser (fun dir =>
    if int4 uid then
      Resolved (tt,
        {| accounts := delete uid (accounts dir);
           balances := delete uid (balances dir);
           transactions :=
             List.filter (fun t => negb (tx_user_id t =? uid))
               (transactions dir);
           api_keys :=
             filter (fun row => key_user_id row.2 <> Some uid) (api_keys dir);
           account_logs := List.map (without_admin uid) (account_logs dir) |})
    else Thrown other_error).

(** [INSERT INTO api_keys (user_id, name, api_key, created_at,
     is_active) VALUES ($1, $2, $3, NOW(), true)
     RETURNING id, name, api_key, created_at, is_active].
    [newId] is the value the sequence of [api_keys.id] hands out. *)
Definition insert_api_key (fails : AccountFaults) (newId uid : Z)
    (name apiKey : string) : Run (Z * ApiKeyRow) :=
  statement_run fails InsertApiKey (fun dir =>
    if int4 newId && int4 uid && fits 255 name then
      if bool_decide (api_keys dir !! newId = None
                      /\ filter (fun row : Z * ApiKeyRow =>
                                   key_api_key row.2 = apiKey)
                           (api_keys dir) = ∅)
      then
        match accounts dir !! uid with
        | Some _ =>
            let row := {| key_user_id := Some uid; key_name := Some name;
                          key_api_key := apiKey;
                          key_is_active := Some true |} in
            Resolved ((newId, row),
                      set_api_keys dir (<[newId := row]> (api_keys dir)))
        | None => Thrown other_error
        end
      else Thrown unique_violation
    else Thrown other_error).

(** Modelled from the spec: [logAdminAction] of [utils/adminLogger],
    whose source is not in the repository snapshot, as [Pg.logAdminAction]:
    it records one audit-log entry through the client of the running
    transaction, and a failure of it rejects. *)
Definition logAccountAction (fails : AccountFaults) (actor : Z)
    (action target_type target : string) (d : AccountLogDetails)
    (sum : string) : Run unit :=
  statement_run fails LogAccountAction (fun dir =>
    Resolved (tt, set_account_logs dir
                    (account_logs dir ++
                     [ {| log_admin_user_id := Some actor;
                          log_action_type := action;
                          log_target_entity_type := target_type;
                          log_target_entity_id := target;
                          log_details := d; log_summary := sum |} ]))).

(** ** [POST /api/admin/users] *)

(** The password that is stored: the trimmed text, or the empty
    string without a usable password. *)
Definition passwordHash (password : JsValue) : string :=
  match nonempty_string password with
  | Some p => trim p
  | None => EmptyString
  end.

(** [is_active !== undefined ? Boolean(is_active) : true] *)
Definition userIsActive (is_active : JsValue) : bool :=
  match is_active with
  | JUndefined => true
  | v => Boolean v
  end.

(** The transaction of the route (lines 518-571). *)
Definition create_user_tx (fails : AccountFaults) (newId adminUserId : Z)
    (normalizedEmail normalizedDisplayName normalizedRole : string)
    (password : JsValue) (active : bool) : Run AccountResponse :=
  begin_transaction fails;;
  existingUser ← select_user_by_email fails normalizedEmail;
  if bool_decide (existingUser = ∅) then
    newUser ← insert_user fails newId normalizedEmail normalizedDisplayName
                normalizedRole (passwordHash password) active;
    insert_user_credits fails newUser.1;;
    logAccountAction fails adminUserId "USER_CREATED" "USER"
      (pretty newUser.1)
      (UserCreatedDetails newUser.1 normalizedEmail normalizedDisplayName
         normalizedRole active
         (negb (String.eqb (passwordHash password) "")))
      ("Created user account for " +:+ normalizedEmail);;
    commit fails;;
    mret (answer 201 (UserCreated newUser.1 (account_email newUser.2)
                        (account_display_name newUser.2)
                        (account_role newUser.2)
                        (account_is_active newUser.2)))
  else
    rollback fails AccountRollback;;
    mret (answer 409 (AccountError "User with this email already exists.")).

Definition create_user_error (e : pg_error) : AccountResponse :=
  match e with
  | unique_violation =>
      answer 409 (AccountError "User with this email already exists.")
  | other_error => answer 500 (AccountError "Failed to create user.")
  end.

(** The handler, after the middleware [requireAdminRole]. *)
Definition create_user (fails : AccountFaults) (dir : Directory)
    (newId : Z) (req : Request) : AccountOutcome * Directory :=
  match user req ≫= id with
  | None =>
      (Answered (answer 401 (AccountError
         "Admin user ID not found in token, unauthorized.")), dir)
  | Some adminUserId =>
      match nonempty_string (field req "email") with
      | None =>
          (Answered (answer 400 (AccountError
             "Email is required and must be a non-empty string.")), dir)
      | Some email =>
          match nonempty_string (field req "display_name") with
          | None =>
              (Answered (answer 400 (AccountError
                 "Display name is required and must be a non-empty string.")),
               dir)
          | Some display_name =>
              match normalizedNewRole (field req "role") with
              | None =>
                  (Answered (answer 400 (AccountError invalid_role_error)), dir)
              | Some normalizedRole =>
                  with_session fails dir
                    (create_user_tx fails newId adminUserId
                       (toLowerCase (trim email)) (trim display_name)
                       normalizedRole (field req "password")
                       (userIsActive (field req "is_active")))
                    create_user_error
              end
          end
      end
  end.

(** ** [DELETE /api/admin/users/:userId] *)

(** The transaction of the route (lines 1083-1112). *)
Definition delete_user_tx (fails : AccountFaults)
    (adminUserId targetUserId : Z) : Run AccountResponse :=
  begin_transaction fails;;
  userResult ← select_user_by_id fails targetUserId;
  match userResult with
  | None =>
      rollback fails AccountRollback;;
      mret (answer 404 (AccountError "Target user not found."))
  | Some targetUser =>
      logAccountAction fails adminUserId "USER_DELETED" "USER"
        (pretty targetUserId)
        (UserDeletedDetails targetUserId (account_email targetUser)
           (account_display_name targetUser) (account_role targetUser))
        ("Deleted user account for " +:+ account_email targetUser);;
      delete_user_row fails targetUserId;;
      commit fails;;
      mret (answer 200 (UserDeleted "User deleted successfully."
              targetUserId (account_email targetUser)
              (account_display_name targetUser) (account_role targetUser)))
  end.

Definition delete_user (fails : AccountFaults) (dir : Directory)
    (req : Request) : AccountOutcome * Directory :=
  match user req ≫= id with
  | None =>
      (Answered (answer 401 (AccountError
         "Admin user ID not found in token, unauthorized.")), dir)
  | Some adminUserId =>
      match parseInt (param req) with
      | None =>
          (Answered (answer 400 (AccountError
             "Invalid target user ID format.")), dir)
      | Some targetUserId =>
          if targetUserId =? adminUserId then
            (Answered (answer 403 (AccountError
               "Admins cannot delete their own account.")), dir)
          else
            with_session fails dir
              (delete_user_tx fails adminUserId targetUserId)
              (fun _ => answer 500 (AccountError "Failed to delete user."))
      end
  end.

(** ** [POST /api/admin/users/:userId/api-keys] *)

(** The double quote of the summary text. *)
Definition quote : ascii := ascii_of_nat 34.

(** The transaction of the route (lines 816-856); [randomBytes] are
    the bytes that [generateNewApiKey] draws. *)
Definition create_api_key_tx (fails : AccountFaults) (newId : Z)
    (randomBytes : list Byte.byte) (adminUserId targetUserId : Z)
    (name : string) : Run AccountResponse :=
  begin_transaction fails;;
  userResult ← select_user_by_id fails targetUserId;
  match userResult with
  | None =>
      rollback fails AccountRollback;;
      mret (answer 404 (AccountError "Target user not found."))
  | Some targetUser =>
      let apiKey := generateNewApiKey randomBytes in
      newApiKey ← insert_api_key fails newId targetUserId (trim name) apiKey;
      logAccountAction fails adminUserId "API_KEY_CREATED_FOR_USER" "API_KEY"
        (pretty newApiKey.1)
        (ApiKeyCreatedDetails targetUserId (account_email targetUser)
           newApiKey.1 (trim name))
        ("Created API key " +:+ String quote (trim name)
         +:+ String quote " for user " +:+ account_email targetUser);;
      commit fails;;
      mret (answer 201 (ApiKeyCreated newApiKey.1 (key_name newApiKey.2)
              (key_api_key newApiKey.2) (key_is_active newApiKey.2)
              "API Key created successfully. Please save this key securely. You will not be able to see it again."))
  end.

Definition create_api_key_error (e : pg_error) : AccountResponse :=
  match e with
  | unique_violation =>
      answer 409 (AccountError
        "Failed to generate a unique API key. Please try again.")
  | other_error => answer 500 (AccountError "Failed to create API key.")
  end.

Definition create_api_key (fails : AccountFaults) (dir : Directory)
    (newId : Z) (randomBytes : list Byte.byte) (req : Request)
    : AccountOutcome * Directory :=
  match user req ≫= id with
  | None =>
      (Answered (answer 401 (AccountError
         "Admin user ID not found in token, unauthorized.")), dir)
  | Some adminUserId =>
      match parseInt (param req) with
      | None =>
          (Answered (answer 400 (AccountError
             "Invalid target user ID format.")), dir)
      | Some targetUserId =>
          match nonempty_string (field req "name") with
          | None =>
              (Answered (answer 400 (AccountError
                 "API key name is required and must be a non-empty string.")),
               dir)
          | Some name =>
              with_session fails dir
                (create_api_key_tx fails newId randomBytes adminUserId
                   targetUserId name)
                create_api_key_error
          end
      end
  end.

End Accounts.

(* ===================================================================== *)
(** * Two requests of the credit route at the same time *)
(* ===================================================================== *)

Module Concurrency.
Import JsNumber JsString JsValues Schema Http Pg Handler AdminUsers.

(** The values of a request of the credit route that has passed the
    checks made before the transaction. *)
Record Adjustment := {
  adj_admin : Z;        (* adminUserId *)
  adj_user : Z;         (* targetUserId *)
  adj_amount : Z;       (* amount_cents *)
  adj_reason : string   (* reason *)
}.

(** The transaction of the credit route up to its first [await] of a
    result that it uses: [BEGIN] and the [SELECT] of the balance
    (lines 693-696).  The [SELECT] has no [FOR UPDATE]. *)
Definition adjust_read (fails : Faults) (a : Adjustment) : Tx (option Z) :=
  BEGIN fails;;
  select_credits fails (adj_user a).

(** The transaction from the balance that was read on (lines
    697-782). *)
Definition adjust_after_read (fails : Faults) (a : Adjustment)
    (creditResult : option Z) : Tx Response :=
  match creditResult with
  | None =>
      userCheck ← select_user_id fails (adj_user a);
      match userCheck with
      | None =>
          ROLLBACK fails Rollback;;
          mret (json 404 (ErrorBody "Target user not found."))
      | Some _ =>
          adjust_from_balance fails (adj_admin a) (adj_user a)
            (adj_amount a) (adj_reason a) 0
      end
  | Some balance_cents =>
      adjust_from_balance fails (adj_admin a) (adj_user a)
        (adj_amount a) (adj_reason a) balance_cents
  end.

(** The view of a client that has written nothing yet, once another
    transaction has committed [db]: the handler asks for no isolation
    level, and under PostgreSQL's READ COMMITTED every statement sees
    what was committed before it starts. *)
Definition sees_commit (db : Database) (c : Client) : Client :=
  {| committed := db; working := db |}.

(** Two requests in one server process, where every [await] lets the
    other request run, in the order: the first reads the balance, the
    second reads the balance, the first runs to its end, the second
    runs to its end.  The read takes no lock, so no statement of this
    order waits for another.  The result is the two responses of the
    transactions and the database committed in the end. *)
Definition adjust_both_read_first (failsA failsB : Faults) (db : Database)
    (a b : Adjustment) : result Response * result Response * Database :=
  let '(readA, clientA) := adjust_read failsA a (connect db) in
  let '(readB, clientB) := adjust_read failsB b (connect db) in
  let '(responseA, clientA') :=
    match readA with
    | Ok creditResult => adjust_after_read failsA a creditResult clientA
    | Rejected => (Rejected, clientA)
    end in
  let clientB1 := sees_commit (committed clientA') clientB in
  let '(responseB, clientB') :=
    match readB with
    | Ok creditResult => adjust_after_read failsB b creditResult clientB1
    | Rejected => (Rejected, clientB1)
    end in
  (responseA, responseB, committed clientB').

End Concurrency.


(* ===================================================================== *)
(** * Predicates and sample data used by the statements *)
(* ===================================================================== *)

Module Properties.
Import JsNumber JsString JsValues Schema Http Pg Handler.

(** A number that is not NaN and carries the sign [s]. *)
Inductive signed (s : bool) : number -> Prop :=
| signed_zero : signed s (S754_zero s)
| signed_infinity : signed s (S754_infinity s)
| signed_finite m e : signed s (S754_finite s m e).

(** The balance the credit route works from: the ledger row's, or 0. *)
Definition balance_of (db : Database) (uid : Z) : Z :=
  default 0 (user_credits db !! uid).

Definition is_admin (db : Database) (uid : Z) : Prop :=
  role <$> users db !! uid = Some (Some "admin").


(** The handler answered with status 200. *)
Definition succeeded (o : Outcome) : bool :=
  match o with
  | Sent r => status r =? 200
  | Unhandled => false
  end.

(** A request of an authenticated actor on the route parameter [p]. *)
Definition request (actor : Z) (p : string)
    (fields : list (string * JsValue)) : Request :=
  {| user := Some {| id := Some actor |}; param := p;
     req_body := list_to_map fields |}.

Definition adjust_request (actor : Z) (p : string) (amount : Z)
    (reason : string) : Request :=
  request actor p
    [("amount_cents", JNumber (of_Z amount)); ("reason", JString reason)].

(** The adjustments of a list of requests, one after the other. *)
Fixpoint adjust_serially (fails : Faults) (db : Database)
    (reqs : list Request) : list Outcome * Database :=
  match reqs with
  | [] => ([], db)
  | r :: rest =>
      let '(o, db1) := AdminUsers.adjust_credits fails db r in
      let '(os, db2) := adjust_serially fails db1 rest in
      (o :: os, db2)
  end.

(** A request of the credit route that passes the checks made before
    the transaction. *)
Definition valid_adjustment (req : Request) (actor uid amount : Z)
    (reason : string) : Prop :=
  user req ≫= id = Some actor
  /\ parseInt (param req) = Some uid
  /\ AdminUsers.valid_amount (field req "amount_cents") = Some amount
  /\ AdminUsers.valid_reason (field req "reason") = Some reason.

(** The database the credit route commits: the balance set, one
    transaction row and one audit entry appended. *)
Definition adjusted (db : Database) (actor uid amount balance : Z)
    (reason : string) : Database :=
  {| users := users db;
     user_credits := <[uid := balance + amount]> (user_credits db);
     credit_transactions :=
       credit_transactions db ++
       [ {| tx_user_id := uid; tx_amount_cents := amount;
            tx_method := "admin_adjustment"; tx_status := "completed";
            tx_description := "Admin Credit Adjustment: " +:+ reason |} ];
     admin_actions_logs :=
       admin_actions_logs db ++
       [ {| admin_user_id := actor; action_type := "USER_CREDIT_ADJUSTMENT";
            target_entity_type := "USER"; target_entity_id := pretty uid;
            details := CreditAdjustmentDetails amount balance
                         (balance + amount) reason;
            summary := JString reason |} ];
     models := models db;
     app_config := app_config db |}.

(** ** Sample data *)

Definition sample_user (r : string) : UserRow :=
  {| email := "user@example.com"; display_name := None; role := Some r |}.

Definition gemini_flash : ModelRow :=
  {| model_id := 7; model_name := "Gemini 1.5 Flash";
     id_string := "google/gemini-1.5-flash"; provider := "Google";
     input_cost_per_million_tokens := Some "1.00";
     output_cost_per_million_tokens := Some "2.00";
     is_active := Some true |}.

(** User 1 is the admin, user 2 a customer whose ledger row, if any,
    holds [balance]; one model; the prime percentage [prime]. *)
Definition sample_db (balance : option Z) (prime : string) : Database :=
  {| users := {[ 1 := sample_user "admin"; 2 := sample_user "user" ]};
     user_credits := match balance with
                     | Some b => {[ 2 := b ]}
                     | None => ∅
                     end;
     credit_transactions := [];
     admin_actions_logs := [];
     models := [gemini_flash];
     app_config := {[ "pricing_prime_percentage" := Some prime;
                      "neuroswitch_classifier_fee_cents" := Some "1" ]} |}.

End Properties.

(* ===================================================================== *)
(** * Invariants of the tables and the states the routes commit *)
(* ===================================================================== *)

Module Invariants.
Import JsNumber JsString JsValues Schema Http Pg Handler Properties.

(** No stored balance is negative. *)
Definition nonneg_balances (db : Database) : Prop :=
  forall uid b, user_credits db !! uid = Some b -> 0 <= b.

(** Every stored balance fits the INTEGER column. *)
Definition int4_balances (db : Database) : Prop :=
  forall uid b, user_credits db !! uid = Some b -> int4 b = true.

(** The sum of the amounts of the transaction rows of a user. *)
Fixpoint ledger_sum (l : list CreditTransaction) (uid : Z) : Z :=
  match l with
  | [] => 0
  | t :: rest =>
      (if tx_user_id t =? uid then tx_amount_cents t else 0)
      + ledger_sum rest uid
  end.

(** The foreign keys of [user_credits] and [credit_transactions]:
    ledger rows and transaction rows belong to existing users. *)
Definition ledger_references_users (db : Database) : Prop :=
  (forall uid, is_Some (user_credits db !! uid) -> is_Some (users db !! uid))
  /\ (forall t, In t (credit_transactions db) ->
                is_Some (users db !! tx_user_id t)).

(** Every stored role is one of the valid roles. *)
Definition roles_valid (db : Database) : Prop :=
  forall uid u r,
    users db !! uid = Some u -> role u = Some r ->
    In r AdminUsers.VALID_ROLES.

(** The database the role route commits: the role set and one audit
    entry appended. *)
Definition role_updated (db : Database) (actor uid : Z) (u : UserRow)
    (newRole : string) (roleChangeSummary : JsValue) : Database :=
  {| users := <[uid := {| email := email u; display_name := display_name u;
                         role := Some newRole |}]> (users db);
     user_credits := user_credits db;
     credit_transactions := credit_transactions db;
     admin_actions_logs :=
       admin_actions_logs db ++
       [ {| admin_user_id := actor; action_type := "USER_ROLE_UPDATED";
            target_entity_type := "USER"; target_entity_id := pretty uid;
            details := RoleUpdateDetails (role u) newRole uid;
            summary := or_undefined roleChangeSummary |} ];
     models := models db;
     app_config := app_config db |}.

(** The database the model route commits: the rows with the id get the
    stored texts of the costs and the flag, one audit entry is
    appended. *)
Definition model_updated (db : Database) (actor mid : Z)
    (currentModel : ModelRow) (inputCost outputCost : number)
    (inputText outputText : string) (active : bool) : Database :=
  {| users := users db;
     user_credits := user_credits db;
     credit_transactions := credit_transactions db;
     admin_actions_logs :=
       admin_actions_logs db ++
       [ {| admin_user_id := actor; action_type := "MODEL_CONFIG_UPDATED";
            target_entity_type := "MODEL"; target_entity_id := pretty mid;
            details :=
              ModelConfigDetails mid (model_name currentModel)
                (CostCalculator.parseFloat_value
                   (input_cost_per_million_tokens currentModel))
                inputCost
                (CostCalculator.parseFloat_value
                   (output_cost_per_million_tokens currentModel))
                outputCost
                (is_active currentModel) active;
            summary := JString ("Updated configuration for model "
                                +:+ model_name currentModel +:+ " (ID: "
                                +:+ pretty mid +:+ ")") |} ];
     models := List.map
                 (fun r => if model_id r =? mid
                           then AdminModels.set_model_config
                                  inputText outputText active r
                           else r)
                 (models db);
     app_config := app_config db |}.

(** A request of the model route that passes the checks made before
    the transaction, with the costs and the flag it carries. *)
Definition valid_model_update (req : Request) (actor mid : Z)
    (inputCost outputCost : number) (active : bool) : Prop :=
  user req ≫= id = Some actor
  /\ parseInt (param req) = Some mid
  /\ parseFloat_js (field req "input_cost_per_million_tokens") = inputCost
  /\ parseFloat_js (field req "output_cost_per_million_tokens") = outputCost
  /\ isNaN inputCost = false /\ ltb inputCost (of_Z 0) = false
  /\ isNaN outputCost = false /\ ltb outputCost (of_Z 0) = false
  /\ field req "is_active" = JBool active.

(** Two rows that the rate lookup cannot tell apart. *)
Definition same_rates (r r' : ModelRow) : Prop :=
  toLowerCase (provider r) = toLowerCase (provider r')
  /\ toLowerCase (id_string r) = toLowerCase (id_string r')
  /\ input_cost_per_million_tokens r = input_cost_per_million_tokens r'
  /\ output_cost_per_million_tokens r = output_cost_per_million_tokens r'.

End Invariants.

Module AccountProperties.
Import JsNumber JsString JsValues Schema Http Handler AdminUsers AdminHelpers.
Import Accounts.

(** No two accounts share an email. *)
Definition unique_emails (dir : Directory) : Prop :=
  forall i j a b,
    accounts dir !! i = Some a -> accounts dir !! j = Some b ->
    account_email a = account_email b -> i = j.

(** Every account has a row in [user_credits]. *)
Definition every_account_has_balance (dir : Directory) : Prop :=
  forall uid a, accounts dir !! uid = Some a -> is_Some (balances dir !! uid).

(** The foreign keys to [users]: every ledger row, credit transaction
    and API key, and every log entry that names an admin, refers to
    an account. *)
Definition references_hold (dir : Directory) : Prop :=
  (forall uid b, balances dir !! uid = Some b -> is_Some (accounts dir !! uid))
  /\ Forall (fun t => is_Some (accounts dir !! tx_user_id t)) (transactions dir)
  /\ (forall k row uid,
         api_keys dir !! k = Some row -> key_user_id row = Some uid ->
         is_Some (accounts dir !! uid))
  /\ Forall (fun entry => forall a, log_admin_user_id entry = Some a ->
                                    is_Some (accounts dir !! a))
       (account_logs dir).

(** A well-formed request to create a user. *)
Definition valid_new_user (req : Request) (actor : Z)
    (email display_name role : string) : Prop :=
  user req ≫= id = Some actor
  /\ nonempty_string (field req "email") = Some email
  /\ nonempty_string (field req "display_name") = Some display_name
  /\ normalizedNewRole (field req "role") = Some role.

(** The account a creation stores. *)
Definition new_account (email display_name role : string)
    (password : JsValue) (active : bool) : Account :=
  {| account_email := email;
     password_hash := Some (passwordHash password);
     account_display_name := Some display_name;
     account_is_active := Some active;
     account_role := Some role |}.

(** The directory after the creation of account [newId] by [actor]. *)
Definition created (dir : Directory) (newId actor : Z)
    (email display_name role : string) (password : JsValue) (active : bool)
    : Directory :=
  {| accounts :=
       <[newId := new_account email display_name role password active]>
         (accounts dir);
     balances := <[newId := 0]> (balances dir);
     transactions := transactions dir;
     api_keys := api_keys dir;
     account_logs :=
       account_logs dir ++
       [ {| log_admin_user_id := Some actor;
            log_action_type := "USER_CREATED";
            log_target_entity_type := "USER";
            log_target_entity_id := pretty newId;
            log_details :=
              UserCreatedDetails newId email display_name role active
                (negb (String.eqb (passwordHash password) ""));
            log_summary := "Created user account for " +:+ email |} ] |}.

(** The directory after the deletion of account [uid], whose row was
    [target], by [actor]. *)
Definition deleted (dir : Directory) (actor uid : Z) (target : Account)
    : Directory :=
  {| accounts := delete uid (accounts dir);
     balances := delete uid (balances dir);
     transactions :=
       List.filter (fun t => negb (tx_user_id t =? uid)) (transactions dir);
     api_keys :=
       filter (fun row => key_user_id row.2 <> Some uid) (api_keys dir);
     account_logs :=
       List.map (without_admin uid)
         (account_logs dir ++
          [ {| log_admin_user_id := Some actor;
               log_action_type := "USER_DELETED";
               log_target_entity_type := "USER";
               log_target_entity_id := pretty uid;
               log_details :=
                 UserDeletedDetails uid (account_email target)
                   (account_display_name target) (account_role target);
               log_summary :=
                 "Deleted user account for " +:+ account_email target |} ]) |}.

(** The directory after the creation of API key [newId] for [uid]. *)
Definition key_created (dir : Directory) (newId actor uid : Z)
    (target : Account) (name apiKey : string) : Directory :=
  {| accounts := accounts dir;
     balances := balances dir;
     transactions := transactions dir;
     api_keys :=
       <[newId := {| key_user_id := Some uid; key_name := Some name;
                     key_api_key := apiKey; key_is_active := Some true |}]>
         (api_keys dir);
     account_logs :=
       account_logs dir ++
       [ {| log_admin_user_id := Some actor;
            log_action_type := "API_KEY_CREATED_FOR_USER";
            log_target_entity_type := "API_KEY";
            log_target_entity_id := pretty newId;
            log_details :=
              ApiKeyCreatedDetails uid (account_email target) newId name;
            log_summary :=
              "Created API key " +:+ String quote name
              +:+ String quote " for user " +:+ account_email target |} ] |}.

(** A request with a JSON body of the given fields. *)
Definition account_request (actor : Z) (p : string)
    (fields : list (string * JsValue)) : Request :=
  {| user := Some {| id := Some actor |}; param := p;
     req_body := list_to_map fields |}.

Definition admin_account : Account :=
  {| account_email := "root@example.com"; password_hash := None;
     account_display_name := Some "Root"; account_is_active := Some true;
     account_role := Some "admin" |}.

Definition sample_directory : Directory :=
  {| accounts := {[ 1 := admin_account ]};
     balances := {[ 1 := 0 ]};
     transactions := [];
     api_keys := ∅;
     account_logs := [] |}.

End AccountProperties.

Module TxTactics.

(** Case analysis on the condition a transaction evaluates first. *)
Ltac head_disc t :=
  lazymatch t with
  | if ?b then _ else _ => head_disc b
  | match ?x with _ => _ end => head_disc x
  | (if ?b then _ else _) _ => head_disc b
  | (match ?x with _ => _ end) _ => head_disc x
  | _ => t
  end.

Ltac tx_head :=
  simpl; rewrite ?lookup_insert_eq;
  repeat match goal with
         | H : ?m !! ?k = _ |- context [?m !! ?k] => rewrite H; simpl
         end;
  lazymatch goal with
  | |- (_, _) = _ -> _ => fail
  | |- ?lhs = _ -> _ => let d := head_disc lhs in destruct d eqn:?
  end.

End TxTactics.

(* ===================================================================== *)
(** * Facts about binary64 division *)
(* ===================================================================== *)

Module JsNumberFacts.
Import JsNumber Properties.

Lemma iter_pos_inv {A} (P : A -> Prop) (f : A -> A) :
  (forall x, P x -> P (f x)) ->
  forall p x, P x -> P (SpecFloat.iter_pos f p x).
Proof.
  intros Hf p. induction p as [p IH | p IH |]; intros x Hx; simpl; auto.
Qed.

Lemma shr_1_nonneg mrs : 0 <= shr_m mrs -> 0 <= shr_m (shr_1 mrs).
Proof.
  destruct mrs as [m r s]. simpl. intros H.
  destruct m as [| p | p]; simpl; try lia; destruct p; simpl; lia.
Qed.

Lemma shr_nonneg mrs e n : 0 <= shr_m mrs -> 0 <= shr_m (fst (shr mrs e n)).
Proof.
  intros H. unfold shr. destruct n; simpl; auto.
  apply (iter_pos_inv (fun x => 0 <= shr_m x)); auto using shr_1_nonneg.
Qed.

Lemma shr_fexp_nonneg m e l :
  0 <= m -> 0 <= shr_m (fst (shr_fexp prec emax m e l)).
Proof.
  intros H. unfold shr_fexp. apply shr_nonneg.
  destruct l as [| []]; simpl; exact H.
Qed.

Lemma round_nearest_even_nonneg m l : 0 <= m -> 0 <= round_nearest_even m l.
Proof.
  intros H. unfold round_nearest_even.
  destruct l as [| []]; try lia. destruct (Z.even m); lia.
Qed.

(** Rounding a non-negative mantissa never yields NaN and keeps the sign. *)
Lemma binary_round_aux_signed s m e l :
  0 <= m -> signed s (binary_round_aux prec emax s m e l).
Proof.
  intros H. unfold binary_round_aux.
  pose proof (shr_fexp_nonneg m e l H) as H1.
  destruct (shr_fexp prec emax m e l) as [mrs' e']. simpl in H1.
  pose proof (shr_fexp_nonneg _ e' loc_Exact
                (round_nearest_even_nonneg _ (loc_of_shr_record mrs') H1)) as H2.
  destruct (shr_fexp prec emax
              (round_nearest_even (shr_m mrs') (loc_of_shr_record mrs'))
              e' loc_Exact) as [mrs'' e'']. simpl in H2.
  destruct (shr_m mrs'') as [| p | p]; try lia.
  - constructor.
  - destruct (e'' <=? emax - prec); constructor.
Qed.

Lemma div_core_nonneg m1 e1 m2 e2 :
  0 <= fst (fst (SFdiv_core_binary prec emax (Zpos m1) e1 (Zpos m2) e2)).
Proof.
  unfold SFdiv_core_binary.
  set (e' := Z.min _ _). set (s := e1 - e2 - e').
  set (m' := match s with
             | Z0 => Zpos m1
             | Zpos _ => Z.shiftl (Zpos m1) s
             | Zneg _ => 0
             end).
  assert (Hm : 0 <= m').
  { subst m'. destruct s; try lia. apply Z.shiftl_nonneg. lia. }
  pose proof (Z_div_mod m' (Zpos m2) ltac:(lia)) as Hdm.
  destruct (Z.div_eucl m' (Z.pos m2)) as [q r]. simpl. nia.
Qed.

Lemma div_finite_signed sx mx ex sy my ey :
  signed (xorb sx sy) (div (S754_finite sx mx ex) (S754_finite sy my ey)).
Proof.
  unfold div, SFdiv.
  pose proof (div_core_nonneg mx ex my ey) as H.
  destruct (SFdiv_core_binary prec emax (Z.pos mx) ex (Z.pos my) ey)
    as [[mz ez] lz].
  simpl in H. now apply binary_round_aux_signed.
Qed.

Lemma signed_not_nan s x : signed s x -> isNaN x = false.
Proof. now destruct 1. Qed.

Lemma signed_false_geb_0 x : signed false x -> geb x (of_Z 0) = true.
Proof. now destruct 1. Qed.

Lemma signed_xorb_false s x : signed (xorb s false) x -> signed s x.
Proof. now rewrite xorb_false_r. Qed.

(** Dividing by a positive finite number keeps the sign and never
    yields NaN. *)
Lemma div_by_positive_signed s x my ey :
  signed s x -> signed s (div x (S754_finite false my ey)).
Proof.
  destruct 1 as [| | m e]; apply signed_xorb_false.
  - constructor.
  - constructor.
  - apply div_finite_signed.
Qed.

Lemma not_nan_signed x : isNaN x = false -> exists s, signed s x.
Proof.
  destruct x as [s | s | | s m e]; intros H; try discriminate;
    exists s; constructor.
Qed.

Lemma div_by_positive_not_nan x my ey :
  isNaN x = false -> isNaN (div x (S754_finite false my ey)) = false.
Proof.
  intros H. destruct (not_nan_signed x H) as [s Hs].
  eapply signed_not_nan, div_by_positive_signed, Hs.
Qed.

(** [x >= 0] is kept by the division by a positive finite number. *)
Lemma div_by_positive_geb_0 x my ey :
  geb x (of_Z 0) = true ->
  geb (div x (S754_finite false my ey)) (of_Z 0) = true.
Proof.
  destruct x as [s | s | | s m e]; intros H.
  - reflexivity.
  - destruct s; [discriminate | reflexivity].
  - discriminate.
  - destruct s; [discriminate |].
    apply signed_false_geb_0, (div_finite_signed false m e false my ey).
Qed.

Lemma of_Z_100 : exists m e, of_Z 100 = S754_finite false m e.
Proof. vm_compute. eauto. Qed.

Lemma of_Z_1000 : exists m e, of_Z 1000 = S754_finite false m e.
Proof. vm_compute. eauto. Qed.

End JsNumberFacts.

(* ===================================================================== *)
(** * The cost calculator *)
(* ===================================================================== *)

Module CostCalculatorFacts.
Import JsNumber JsString JsValues Schema CostCalculator Properties JsNumberFacts.

Lemma fixed_cost_Some neuroSwitchProvider m :
  m <> "" ->
  fixed_cost neuroSwitchProvider (Some m) = FIXED_MODEL_COSTS !! fullIdString neuroSwitchProvider m.
Proof. intros Hm. unfold fixed_cost, truthy. now destruct m. Qed.

Lemma truthy_Some m : m <> "" -> truthy (Some m) = Some m.
Proof. intros Hm. now destruct m. Qed.

(** The multiplier with a stored, valid percentage. *)
Lemma pricingPrimeMultiplier_valid fails db value :
  fails SelectPrimePercentage = false ->
  app_config db !! "pricing_prime_percentage" = Some (Some value) ->
  isNaN (parseFloat value) = false ->
  geb (parseFloat value) (of_Z 0) = true ->
  pricingPrimeMultiplier fails db
  = add (of_Z 1) (div (parseFloat value) (of_Z 100)).
Proof.
  intros Hf Hc Hn Hg. unfold pricingPrimeMultiplier, select_config.
  rewrite Hf, Hc. simpl. now rewrite Hn, Hg.
Qed.

(** The multiplier is the fallback whenever the read fails, the key is
    missing, or the value is not a non-negative number. *)
Lemma pricingPrimeMultiplier_fallback fails db :
  fails SelectPrimePercentage = true
  \/ app_config db !! "pricing_prime_percentage" = None
  \/ (exists value,
        app_config db !! "pricing_prime_percentage" = Some value
        /\ (isNaN (parseFloat_value value) = true
            \/ geb (parseFloat_value value) (of_Z 0) = false)) ->
  pricingPrimeMultiplier fails db = FALLBACK_PRICING_PRIME_MULTIPLIER.
Proof.
  unfold pricingPrimeMultiplier, select_config.
  intros [Hf | [Hc | (value & Hc & Hv)]].
  - now rewrite Hf.
  - destruct (fails _); [reflexivity |]. now rewrite Hc.
  - destruct (fails _); [reflexivity |]. rewrite Hc. simpl.
    destruct Hv as [-> | ->]; [reflexivity |]. now rewrite andb_false_r.
Qed.

(** The token-based base cost when the lookup finds numeric rates. *)
Lemma baseCost_found fails db neuroSwitchProvider m inputTokens outputTokens dbRow rest :
  m <> "" ->
  select_model_rates fails db (dbProvider neuroSwitchProvider) (fullIdString neuroSwitchProvider m)
  = Ok (dbRow :: rest) ->
  isNaN (parseFloat_value (input_cost_per_million_tokens dbRow)) = false ->
  isNaN (parseFloat_value (output_cost_per_million_tokens dbRow)) = false ->
  baseCost fails db neuroSwitchProvider (Some m) inputTokens outputTokens
  = token_cost inputTokens outputTokens
      (div (parseFloat_value (input_cost_per_million_tokens dbRow)) (of_Z 1000))
      (div (parseFloat_value (output_cost_per_million_tokens dbRow)) (of_Z 1000)).
Proof.
  intros Hm Hsel Hin Hout. unfold baseCost.
  rewrite (truthy_Some m Hm), Hsel. simpl.
  destruct of_Z_1000 as (k & e & ->).
  now rewrite !div_by_positive_not_nan.
Qed.

(** The base cost is the fallback cost on every degraded path. *)
Lemma baseCost_fallback fails db neuroSwitchProvider modelIdString inputTokens outputTokens :
  truthy modelIdString = None
  \/ (exists m, truthy modelIdString = Some m /\
       (select_model_rates fails db (dbProvider neuroSwitchProvider) (fullIdString neuroSwitchProvider m)
        = Rejected
        \/ select_model_rates fails db (dbProvider neuroSwitchProvider) (fullIdString neuroSwitchProvider m)
           = Ok []
        \/ exists dbRow rest,
             select_model_rates fails db (dbProvider neuroSwitchProvider) (fullIdString neuroSwitchProvider m)
             = Ok (dbRow :: rest)
             /\ (isNaN (parseFloat_value (input_cost_per_million_tokens dbRow)) = true
                 \/ isNaN (parseFloat_value (output_cost_per_million_tokens dbRow)) = true))) ->
  baseCost fails db neuroSwitchProvider modelIdString inputTokens outputTokens
  = fallback_cost inputTokens outputTokens.
Proof.
  unfold baseCost.
  intros [-> | (m & -> & [-> | [-> | (dbRow & rest & -> & Hnan)]])];
    try reflexivity.
  simpl.
  destruct Hnan as [H | H]; destruct (parseFloat_value _) eqn:E in H;
    try discriminate; rewrite E; simpl; [reflexivity |].
  now rewrite orb_true_r.
Qed.

Lemma filter_no_match p idString l :
  Forall (fun r => ~ (toLowerCase (provider r) = toLowerCase p
                      /\ toLowerCase (id_string r) = toLowerCase idString)) l ->
  List.filter
    (fun r => String.eqb (toLowerCase (provider r)) (toLowerCase p)
              && String.eqb (toLowerCase (id_string r)) (toLowerCase idString))
    l = [].
Proof.
  induction l as [| r l IH]; intros H; [reflexivity |].
  apply Forall_cons in H as [Hr Hl].
  simpl. rewrite (IH Hl).
  destruct (String.eqb (toLowerCase (provider r)) (toLowerCase p)) eqn:E1;
    [| reflexivity].
  destruct (String.eqb (toLowerCase (id_string r)) (toLowerCase idString))
    eqn:E2; [| reflexivity].
  apply String.eqb_eq in E1, E2. exfalso. apply Hr. now split.
Qed.

(** C5: when the lookup under the normalized key
    [(dbProvider, dbProvider/modelId)] finds a row whose rates are
    numeric (and the key is not a fixed-price one, so that the lookup
    is made), the result is
    [((inputTokens/1000)*inputRatePer1k + (outputTokens/1000)*outputRatePer1k)
     * (1 + primePercentage/100)] rounded to six decimals, that is,
    printed by [toFixed(6)] and read back by [parseFloat], where the
    per-1k rates are the stored per-million rates divided by 1000 and
    the percentage is the stored, valid prime.  The provider is
    lower-cased and its synonyms gemini and claude are replaced before
    the lookup.  With provider gemini, model gemini-1.5-flash, 1000 and
    500 tokens, rates 1.00 and 2.00 and prime 20 the result is 0.0024.
    With the same row and prime, one input token gives 0.000001 where
    the product is above 0.0000011 (rounded down), and one input and
    one output token give 0.000004 where the product is below
    0.0000037 (rounded up).  The lookup finds the first stored row
    whose provider and id string are the key up to letter case. *)
Theorem calculateLlmProviderCost_model_rate :
  (forall fails db neuroSwitchProvider m inputTokens outputTokens dbRow rest prime,
      m <> "" ->
      fixed_cost neuroSwitchProvider (Some m) = None ->
      select_model_rates fails db (dbProvider neuroSwitchProvider) (fullIdString neuroSwitchProvider m)
      = Ok (dbRow :: rest) ->
      isNaN (parseFloat_value (input_cost_per_million_tokens dbRow)) = false ->
      isNaN (parseFloat_value (output_cost_per_million_tokens dbRow)) = false ->
      fails SelectPrimePercentage = false ->
      app_config db !! "pricing_prime_percentage" = Some (Some prime) ->
      isNaN (parseFloat prime) = false ->
      geb (parseFloat prime) (of_Z 0) = true ->
      let inputRatePer1k :=
        div (parseFloat_value (input_cost_per_million_tokens dbRow)) (of_Z 1000) in
      let outputRatePer1k :=
        div (parseFloat_value (output_cost_per_million_tokens dbRow)) (of_Z 1000) in
      calculateLlmProviderCost fails db neuroSwitchProvider (Some m) inputTokens outputTokens
      = Ok (parseFloat
              (toFixed6
                 (mul (add (mul (div inputTokens (of_Z 1000)) inputRatePer1k)
                           (mul (div outputTokens (of_Z 1000)) outputRatePer1k))
                      (add (of_Z 1) (div (parseFloat prime) (of_Z 100)))))))
  /\ (forall neuroSwitchProvider,
        (toLowerCase neuroSwitchProvider = "gemini" -> dbProvider neuroSwitchProvider = "google")
        /\ (toLowerCase neuroSwitchProvider = "claude" -> dbProvider neuroSwitchProvider = "anthropic"))
  /\ (forall fails db dbRow rest,
        select_model_rates fails db "google" "google/gemini-1.5-flash"
        = Ok (dbRow :: rest) ->
        input_cost_per_million_tokens dbRow = Some "1.00" ->
        output_cost_per_million_tokens dbRow = Some "2.00" ->
        fails SelectPrimePercentage = false ->
        app_config db !! "pricing_prime_percentage" = Some (Some "20") ->
        calculateLlmProviderCost fails db "gemini" (Some "gemini-1.5-flash")
          (of_Z 1000) (of_Z 500)
        = Ok (lit "0.0024"))
  /\ (forall fails db dbRow rest,
        select_model_rates fails db "google" "google/gemini-1.5-flash"
        = Ok (dbRow :: rest) ->
        input_cost_per_million_tokens dbRow = Some "1.00" ->
        output_cost_per_million_tokens dbRow = Some "2.00" ->
        fails SelectPrimePercentage = false ->
        app_config db !! "pricing_prime_percentage" = Some (Some "20") ->
        let product inputTokens outputTokens :=
          mul (add (mul (div inputTokens (of_Z 1000))
                        (div (lit "1.00") (of_Z 1000)))
                   (mul (div outputTokens (of_Z 1000))
                        (div (lit "2.00") (of_Z 1000))))
              (add (of_Z 1) (div (lit "20") (of_Z 100))) in
        (calculateLlmProviderCost fails db "gemini" (Some "gemini-1.5-flash")
           (of_Z 1) (of_Z 0)
         = Ok (lit "0.000001")
         /\ ltb (lit "0.0000011") (product (of_Z 1) (of_Z 0)) = true)
        /\ (calculateLlmProviderCost fails db "gemini" (Some "gemini-1.5-flash")
              (of_Z 1) (of_Z 1)
            = Ok (lit "0.000004")
            /\ ltb (product (of_Z 1) (of_Z 1)) (lit "0.0000037") = true))
  /\ (forall fails db p idString before dbRow after,
        fails SelectModelRates = false ->
        models db = (before ++ dbRow :: after)%list ->
        Forall (fun r => ~ (toLowerCase (provider r) = toLowerCase p
                            /\ toLowerCase (id_string r) = toLowerCase idString))
          before ->
        toLowerCase (provider dbRow) = toLowerCase p ->
        toLowerCase (id_string dbRow) = toLowerCase idString ->
        exists rest,
          select_model_rates fails db p idString = Ok (dbRow :: rest)).
Proof.
  assert (Hgemini : forall fails db dbRow rest inputTokens outputTokens,
    select_model_rates fails db "google" "google/gemini-1.5-flash"
    = Ok (dbRow :: rest) ->
    input_cost_per_million_tokens dbRow = Some "1.00" ->
    output_cost_per_million_tokens dbRow = Some "2.00" ->
    fails SelectPrimePercentage = false ->
    app_config db !! "pricing_prime_percentage" = Some (Some "20") ->
    calculateLlmProviderCost fails db "gemini" (Some "gemini-1.5-flash")
      inputTokens outputTokens
    = Ok (parseFloat
            (toFixed6
               (mul (token_cost inputTokens outputTokens
                       (div (parseFloat "1.00") (of_Z 1000))
                       (div (parseFloat "2.00") (of_Z 1000)))
                    (add (of_Z 1) (div (parseFloat "20") (of_Z 100))))))).
  { intros fails db dbRow rest inputTokens outputTokens Hsel Hin Hout Hf Hc.
    unfold calculateLlmProviderCost.
    change (fixed_cost "gemini" (Some "gemini-1.5-flash")) with (@None number).
    cbv iota beta.
    rewrite (baseCost_found fails db "gemini" "gemini-1.5-flash" _ _ dbRow rest);
      [| discriminate | exact Hsel | now rewrite Hin | now rewrite Hout].
    rewrite (pricingPrimeMultiplier_valid fails db "20" Hf Hc); [| reflexivity ..].
    rewrite Hin, Hout. reflexivity. }
  split; [| split; [| split; [| split]]].
  - intros fails db neuroSwitchProvider m inputTokens outputTokens dbRow rest prime
      Hm Hfix Hsel Hin Hout Hf Hc Hn Hg. cbv zeta.
    unfold calculateLlmProviderCost. rewrite Hfix.
    rewrite (baseCost_found _ _ _ _ _ _ dbRow rest Hm Hsel Hin Hout).
    now rewrite (pricingPrimeMultiplier_valid _ _ prime Hf Hc Hn Hg).
  - intros neuroSwitchProvider. unfold dbProvider. split; intros ->; reflexivity.
  - intros fails db dbRow rest Hsel Hin Hout Hf Hc.
    rewrite (Hgemini fails db dbRow rest _ _ Hsel Hin Hout Hf Hc).
    vm_compute. reflexivity.
  - intros fails db dbRow rest Hsel Hin Hout Hf Hc. cbv zeta.
    rewrite !(Hgemini fails db dbRow rest _ _ Hsel Hin Hout Hf Hc).
    repeat split; vm_compute; reflexivity.
  - intros fails db p idString before dbRow after Hf Hm Hbefore Hp Hi.
    unfold select_model_rates. rewrite Hf, Hm, List.filter_app.
    rewrite (filter_no_match _ _ _ Hbefore).
    simpl. rewrite Hp, Hi, !String.eqb_refl. simpl. eauto.
Qed.

Lemma calculateLlmProviderCost_model_rate_witness :
  calculateLlmProviderCost no_faults (sample_db None "20") "Gemini"
    (Some "Gemini-1.5-Flash") (of_Z 1000) (of_Z 500)
  = Ok (parseFloat
          (toFixed6
             (mul (add (mul (div (of_Z 1000) (of_Z 1000))
                            (div (parseFloat "1.00") (of_Z 1000)))
                       (mul (div (of_Z 500) (of_Z 1000))
                            (div (parseFloat "2.00") (of_Z 1000))))
                  (add (of_Z 1) (div (parseFloat "20") (of_Z 100))))))
  /\ calculateLlmProviderCost no_faults (sample_db None "20") "gemini"
       (Some "gemini-1.5-flash") (of_Z 1) (of_Z 1)
     = Ok (lit "0.000004").
Proof.
  split.
  - apply (proj1 calculateLlmProviderCost_model_rate no_faults
             (sample_db None "20") "Gemini" "Gemini-1.5-Flash"
             (of_Z 1000) (of_Z 500) gemini_flash [] "20");
      try discriminate; vm_compute; reflexivity.
  - apply (proj1 (proj2 (proj2 (proj2 calculateLlmProviderCost_model_rate)))
             no_faults (sample_db None "20") gemini_flash []);
      reflexivity.
Defined.

(** C6, as stated, at a model without a row, one input token and the
    prime 20: the code returns 0.000002, the default-rate cost times
    the multiplier is 0.0000024. *)
Lemma calculateLlmProviderCost_fallback_not_the_product :
  select_model_rates no_faults (sample_db None "20") (dbProvider "openai")
    (fullIdString "openai" "unknown-model") = Ok []
  /\ calculateLlmProviderCost no_faults (sample_db None "20") "openai"
       (Some "unknown-model") (of_Z 1) (of_Z 0) = Ok (lit "0.000002")
  /\ mul (add (mul (div (of_Z 1) (of_Z 1000)) (lit "0.002"))
              (mul (div (of_Z 0) (of_Z 1000)) (lit "0.002")))
         (pricingPrimeMultiplier no_faults (sample_db None "20"))
     = lit "0.0000024"
  /\ lit "0.000002" <> lit "0.0000024".
Proof. repeat split; vm_compute; try reflexivity; discriminate. Qed.

(** C6 (amended): the promise of [calculateLlmProviderCost] always
    resolves.  When the model id is absent, the rate query fails, no
    row is found, or the first row has a missing or non-numeric rate,
    the result is [(inputTokens/1000)*0.002 + (outputTokens/1000)*0.002]
    times the prime multiplier, rounded to six decimals; and the
    multiplier is 1.0 when the prime read fails, the key is missing or
    the value is not a non-negative number. *)
Theorem calculateLlmProviderCost_never_rejects :
  (forall fails db neuroSwitchProvider modelIdString inputTokens outputTokens,
      exists cost,
        calculateLlmProviderCost fails db neuroSwitchProvider modelIdString
          inputTokens outputTokens = Ok cost)
  /\ (forall fails db neuroSwitchProvider modelIdString inputTokens outputTokens,
        fixed_cost neuroSwitchProvider modelIdString = None ->
        truthy modelIdString = None
        \/ (exists m, truthy modelIdString = Some m /\
             (fails SelectModelRates = true
              \/ select_model_rates fails db (dbProvider neuroSwitchProvider)
                    (fullIdString neuroSwitchProvider m) = Ok []
              \/ exists dbRow rest,
                   select_model_rates fails db (dbProvider neuroSwitchProvider)
                     (fullIdString neuroSwitchProvider m) = Ok (dbRow :: rest)
                   /\ (isNaN (parseFloat_value (input_cost_per_million_tokens dbRow)) = true
                       \/ isNaN (parseFloat_value (output_cost_per_million_tokens dbRow)) = true))) ->
        calculateLlmProviderCost fails db neuroSwitchProvider modelIdString
          inputTokens outputTokens
        = Ok (round6
                (mul (add (mul (div inputTokens (of_Z 1000)) (lit "0.002"))
                          (mul (div outputTokens (of_Z 1000)) (lit "0.002")))
                     (pricingPrimeMultiplier fails db))))
  /\ (forall fails db,
        fails SelectPrimePercentage = true
        \/ app_config db !! "pricing_prime_percentage" = None
        \/ (exists value,
              app_config db !! "pricing_prime_percentage" = Some value
              /\ (isNaN (parseFloat_value value) = true
                  \/ geb (parseFloat_value value) (of_Z 0) = false)) ->
        pricingPrimeMultiplier fails db = lit "1.0").
Proof.
  split; [| split].
  - intros fails db neuroSwitchProvider modelIdString inputTokens outputTokens.
    unfold calculateLlmProviderCost.
    destruct (fixed_cost neuroSwitchProvider modelIdString); eauto.
  - intros fails db neuroSwitchProvider modelIdString inputTokens outputTokens Hfix Hdeg.
    unfold calculateLlmProviderCost. rewrite Hfix.
    rewrite baseCost_fallback; [reflexivity |].
    destruct Hdeg as [H | (m & Hm & [H | H])]; [now left | right; exists m ..];
      (split; [exact Hm |]).
    + left. unfold select_model_rates. now rewrite H.
    + now right.
  - intros fails db H. now apply pricingPrimeMultiplier_fallback.
Qed.

Lemma calculateLlmProviderCost_never_rejects_witness :
  calculateLlmProviderCost no_faults (sample_db None "20") "openai"
    (Some "unknown-model") (of_Z 1000) (of_Z 500)
  = Ok (round6
          (mul (add (mul (div (of_Z 1000) (of_Z 1000)) (lit "0.002"))
                    (mul (div (of_Z 500) (of_Z 1000)) (lit "0.002")))
               (pricingPrimeMultiplier no_faults (sample_db None "20")))).
Proof.
  apply (proj1 (proj2 calculateLlmProviderCost_never_rejects)).
  - vm_compute. reflexivity.
  - right. exists "unknown-model". split; [reflexivity |].
    right. left. vm_compute. reflexivity.
Defined.

(** C7, as stated, at the key openai/dall-e-3 and the prime 0.001: the
    code returns 0.04, the flat cost times the multiplier is above
    0.0400003. *)
Lemma calculateLlmProviderCost_fixed_not_the_product :
  FIXED_MODEL_COSTS !! fullIdString "openai" "dall-e-3" = Some (lit "0.04")
  /\ calculateLlmProviderCost no_faults (sample_db None "0.001") "openai"
       (Some "dall-e-3") (of_Z 0) (of_Z 0) = Ok (lit "0.04")
  /\ ltb (lit "0.0400003")
          (mul (lit "0.04")
               (pricingPrimeMultiplier no_faults (sample_db None "0.001")))
     = true
  /\ ltb (lit "0.04") (lit "0.0400003") = true.
Proof. repeat split; vm_compute; reflexivity. Qed.

(** C7 (amended): when the normalized key [provider/modelId] is in the
    fixed-price table, no rate is looked up and no token arithmetic is
    done: the result is the flat cost times the prime multiplier,
    rounded to six decimals, whatever the token counts and the models
    table; for openai/dall-e-3 and the prime 20 it is 0.048. *)
Theorem calculateLlmProviderCost_fixed_price :
  (forall fails db neuroSwitchProvider m cost inputTokens outputTokens,
      m <> "" ->
      FIXED_MODEL_COSTS !! fullIdString neuroSwitchProvider m = Some cost ->
      calculateLlmProviderCost fails db neuroSwitchProvider (Some m) inputTokens outputTokens
      = Ok (round6 (mul cost (pricingPrimeMultiplier fails db))))
  /\ (forall fails db inputTokens outputTokens,
        fails SelectPrimePercentage = false ->
        app_config db !! "pricing_prime_percentage" = Some (Some "20") ->
        calculateLlmProviderCost fails db "openai" (Some "dall-e-3")
          inputTokens outputTokens
        = Ok (lit "0.048")).
Proof.
  split.
  - intros fails db neuroSwitchProvider m cost inputTokens outputTokens Hm Hfix.
    unfold calculateLlmProviderCost.
    now rewrite (fixed_cost_Some neuroSwitchProvider m Hm), Hfix.
  - intros fails db inputTokens outputTokens Hf Hc.
    unfold calculateLlmProviderCost.
    change (fixed_cost "openai" (Some "dall-e-3")) with (Some (lit "0.04")).
    cbv iota beta.
    rewrite (pricingPrimeMultiplier_valid fails db "20" Hf Hc); [| reflexivity ..].
    vm_compute. reflexivity.
Qed.

Lemma calculateLlmProviderCost_fixed_price_witness :
  calculateLlmProviderCost no_faults (sample_db None "20") "OpenAI"
    (Some "DALL-E-3-wide") (of_Z 1000) (of_Z 500)
  = Ok (round6 (mul (lit "0.08")
                    (pricingPrimeMultiplier no_faults (sample_db None "20")))).
Proof.
  apply (proj1 calculateLlmProviderCost_fixed_price).
  - discriminate.
  - vm_compute. reflexivity.
Defined.

(** C8: [getNeuroSwitchClassifierFee] always resolves, with a fee that
    is [>= 0]: the stored value divided by 100 when the key
    [neuroswitch_classifier_fee_cents] is present and parses to a
    non-negative number, and the fallback 0.001 when the query fails,
    the key is missing, or the value is not a number or negative. *)
Theorem getNeuroSwitchClassifierFee_nonnegative :
  forall fails db,
    exists fee,
      getNeuroSwitchClassifierFee fails db = Ok fee
      /\ geb fee (of_Z 0) = true
      /\ (forall value,
            fails SelectClassifierFee = false ->
            app_config db !! "neuroswitch_classifier_fee_cents" = Some value ->
            isNaN (parseFloat_value value) = false ->
            geb (parseFloat_value value) (of_Z 0) = true ->
            fee = div (parseFloat_value value) (of_Z 100))
      /\ (fails SelectClassifierFee = true -> fee = lit "0.001")
      /\ (app_config db !! "neuroswitch_classifier_fee_cents" = None ->
          fee = lit "0.001")
      /\ (forall value,
            app_config db !! "neuroswitch_classifier_fee_cents" = Some value ->
            isNaN (parseFloat_value value) = true
            \/ geb (parseFloat_value value) (of_Z 0) = false ->
            fee = lit "0.001").
Proof.
  intros fails db. unfold getNeuroSwitchClassifierFee, select_config.
  eexists. split; [reflexivity |].
  destruct (fails SelectClassifierFee) eqn:Hf.
  { simpl. repeat split; try reflexivity; try discriminate. }
  destruct (app_config db !! "neuroswitch_classifier_fee_cents") as [value |] eqn:Hc.
  2:{ simpl. repeat split; try reflexivity; try discriminate. }
  simpl.
  destruct (isNaN (parseFloat_value value)) eqn:Hn; simpl.
  { repeat split; try reflexivity; try discriminate.
    intros v _ [= <-] Hn' _. congruence. }
  destruct (geb (parseFloat_value value) (of_Z 0)) eqn:Hg.
  - split.
    + destruct of_Z_100 as (m & e & ->). now apply div_by_positive_geb_0.
    + repeat split; try discriminate.
      * now intros v _ [= <-] _ _.
      * intros v [= <-] [H | H]; congruence.
  - repeat split; try reflexivity; try discriminate.
    intros v _ [= <-] _ Hg'. congruence.
Qed.

Lemma getNeuroSwitchClassifierFee_nonnegative_witness :
  exists fee,
    getNeuroSwitchClassifierFee no_faults (sample_db None "20") = Ok fee
    /\ geb fee (of_Z 0) = true
    /\ fee = div (parseFloat "1") (of_Z 100).
Proof.
  destruct (getNeuroSwitchClassifierFee_nonnegative no_faults (sample_db None "20"))
    as (fee & Hfee & Hge & Hval & _).
  exists fee. split; [exact Hfee |]. split; [exact Hge |].
  apply (Hval (Some "1")); vm_compute; reflexivity.
Defined.

End CostCalculatorFacts.

(* ===================================================================== *)
(** * The credit route *)
(* ===================================================================== *)

Module AdjustCreditsFacts.
Import JsNumber JsString JsValues Schema Http Pg Handler AdminUsers Properties.
Import TxTactics.

Lemma int4_true z : int4 z = true <-> INT4_MIN <= z <= INT4_MAX.
Proof. unfold int4. rewrite andb_true_iff, !Z.leb_le. tauto. Qed.

Lemma bind_ok {A B} (m : Tx A) (f : A -> Tx B) c a c' :
  m c = (Ok a, c') -> (m ≫= f) c = f a c'.
Proof. intros H. unfold mbind, tx_bind. now rewrite H. Qed.

Lemma bind_rejected {A B} (m : Tx A) (f : A -> Tx B) c c' :
  m c = (Rejected, c') -> (m ≫= f) c = (Rejected, c').
Proof. intros H. unfold mbind, tx_bind. now rewrite H. Qed.

(** The three upserts on a client whose transaction sees [w]. *)
Lemma write_projected_balance_ok fails uid amount w c0 u :
  fails UpsertCreditsAdd = false ->
  fails UpsertCreditsAddProjected = false ->
  fails UpsertCreditsSet = false ->
  users w !! uid = Some u ->
  int4 uid = true ->
  int4 (balance_of w uid) = true ->
  0 <= balance_of w uid + amount ->
  balance_of w uid + 2 * amount <= INT4_MAX ->
  write_projected_balance fails uid amount (balance_of w uid + amount)
    {| committed := c0; working := w |}
  = (Ok (balance_of w uid + amount),
     {| committed := c0;
        working := set_user_credits w
                     (<[uid := balance_of w uid + amount]> (user_credits w)) |}).
Proof.
  intros F1 F2 F3 Hu Hid HB Hge Hle.
  apply int4_true in HB.
  assert (Ha : int4 amount = true)
    by (apply int4_true; unfold INT4_MIN, INT4_MAX in *; lia).
  assert (Hp : int4 (balance_of w uid + amount) = true)
    by (apply int4_true; unfold INT4_MIN, INT4_MAX in *; lia).
  assert (Hq : int4 (balance_of w uid + amount + amount) = true)
    by (apply int4_true; unfold INT4_MIN, INT4_MAX in *; lia).
  unfold write_projected_balance, upsert_credits_add, upsert_credits_set,
    query, mbind, tx_bind.
  rewrite F1, F2, F3. simpl. rewrite Hid, Ha, Hp. simpl.
  unfold balance_of in *.
  destruct (user_credits w !! uid) as [b |] eqn:Hb; simpl in *.
  - rewrite Hp. simpl. rewrite lookup_insert_eq. rewrite Hq. simpl.
    rewrite lookup_insert_eq. rewrite !insert_insert_eq. reflexivity.
  - rewrite Hu. simpl. rewrite lookup_insert_eq.
    replace (amount + amount) with (0 + amount + amount) by lia.
    rewrite Hq. simpl. rewrite lookup_insert_eq, !insert_insert_eq.
    reflexivity.
Qed.

Lemma valid_amount_nonzero v a : valid_amount v = Some a -> a <> 0.
Proof.
  unfold valid_amount. destruct v; try discriminate.
  destruct (as_integer x) as [z |]; try discriminate.
  destruct (z =? 0) eqn:E; intros [= <-]. now apply Z.eqb_neq.
Qed.

Lemma adjust_credits_valid fails db req actor uid amount reason :
  valid_adjustment req actor uid amount reason ->
  adjust_credits fails db req
  = with_client fails db (adjust_credits_tx fails actor uid amount reason)
      "Failed to adjust user credits.".
Proof.
  intros (Hu & Hp & Ha & Hr). unfold adjust_credits.
  now rewrite Hu, Hp, Ha, Hr.
Qed.

(** The route on a request it accepts: success path. *)
Lemma adjust_credits_ok fails db req actor uid amount reason u :
  (forall s, fails s = false) ->
  valid_adjustment req actor uid amount reason ->
  users db !! uid = Some u ->
  int4 uid = true ->
  int4 (balance_of db uid) = true ->
  0 <= balance_of db uid + amount ->
  balance_of db uid + 2 * amount <= INT4_MAX ->
  adjust_credits fails db req
  = (Sent (json 200 (CreditsAdjustedBody "User credits adjusted successfully."
             uid (balance_of db uid) amount (balance_of db uid + amount))),
     adjusted db actor uid amount (balance_of db uid) reason).
Proof.
  intros F Hv Hu Hid HB Hge Hle.
  rewrite (adjust_credits_valid _ _ _ _ _ _ _ Hv).
  assert (Ha : int4 amount = true).
  { apply int4_true in HB. apply int4_true.
    unfold INT4_MIN, INT4_MAX in *. lia. }
  assert (Hbody :
    adjust_from_balance fails actor uid amount reason (balance_of db uid)
      {| committed := db; working := db |}
    = (Ok (json 200 (CreditsAdjustedBody "User credits adjusted successfully."
             uid (balance_of db uid) amount (balance_of db uid + amount))),
       {| committed := adjusted db actor uid amount (balance_of db uid) reason;
          working := adjusted db actor uid amount (balance_of db uid) reason |})).
  { unfold adjust_from_balance.
    replace (balance_of db uid + amount <? 0) with false
      by (symmetry; apply Z.ltb_ge; lia).
    erewrite bind_ok
      by (apply (write_projected_balance_ok fails uid amount db db u); auto).
    unfold insert_credit_transaction, logAdminAction, COMMIT, query,
      mbind, tx_bind, mret, tx_ret.
    rewrite !F. simpl. rewrite Hid, Ha, Hu. simpl. reflexivity. }
  unfold with_client, adjust_credits_tx, connect.
  rewrite F.
  unfold BEGIN, select_credits, select_user_id, query, mbind, tx_bind.
  rewrite !F. simpl. rewrite Hid.
  unfold balance_of in Hbody |- *.
  destruct (user_credits db !! uid) as [b |] eqn:Hb; simpl in *.
  - now rewrite Hbody.
  - rewrite Hu. simpl. now rewrite Hbody.
Qed.

(** The route on a request whose projected balance is negative. *)
Lemma adjust_credits_negative fails db req actor uid amount reason u :
  fails Connect = false -> fails Begin = false ->
  fails SelectCredits = false -> fails SelectUserId = false ->
  fails Rollback = false ->
  valid_adjustment req actor uid amount reason ->
  users db !! uid = Some u ->
  int4 uid = true ->
  balance_of db uid + amount < 0 ->
  adjust_credits fails db req
  = (Sent (json 400 (NegativeBalanceBody
             (negative_balance_error (balance_of db uid))
             (balance_of db uid))),
     db).
Proof.
  intros F1 F2 F3 F4 F5 Hv Hu Hid Hneg.
  rewrite (adjust_credits_valid _ _ _ _ _ _ _ Hv).
  unfold with_client, adjust_credits_tx, connect.
  rewrite F1.
  unfold BEGIN, select_credits, select_user_id, query, mbind, tx_bind.
  rewrite F2, F3. simpl. rewrite Hid.
  unfold balance_of in *.
  destruct (user_credits db !! uid) as [b |] eqn:Hb; simpl in *.
  - unfold adjust_from_balance.
    replace (b + amount <? 0) with true by (symmetry; apply Z.ltb_lt; lia).
    unfold ROLLBACK, mbind, tx_bind. simpl. now rewrite F5.
  - rewrite F4. simpl. rewrite Hu. simpl.
    unfold adjust_from_balance.
    replace (0 + amount <? 0) with true by (symmetry; apply Z.ltb_lt; lia).
    unfold ROLLBACK, mbind, tx_bind. simpl. now rewrite F5.
Qed.

(** Whatever fails, the transaction of the credit route commits either
    nothing or the whole adjustment. *)
Lemma adjust_credits_tx_cases fails db actor uid amount reason r c' :
  adjust_credits_tx fails actor uid amount reason (connect db) = (r, c') ->
  committed c' = db
  \/ (r = Ok (json 200 (CreditsAdjustedBody "User credits adjusted successfully."
             uid (balance_of db uid) amount (balance_of db uid + amount)))
      /\ committed c' = adjusted db actor uid amount (balance_of db uid) reason).
Proof.
  unfold adjust_credits_tx, adjust_from_balance, write_projected_balance,
    upsert_credits_add, upsert_credits_set, insert_credit_transaction,
    logAdminAction, select_credits, select_user_id,
    BEGIN, COMMIT, ROLLBACK, query, connect, balance_of,
    mbind, tx_bind, mret, tx_ret.
  repeat tx_head.
  all: intros [= <- <-]; try (left; reflexivity).
  all: right; split; try reflexivity.
  all: unfold adjusted; simpl; rewrite ?insert_insert_eq, ?Z.add_0_l;
    reflexivity.
Qed.

Lemma with_client_cases fails db (body : Tx Response) failure :
  (forall r c', body (connect db) = (r, c') ->
                committed c' = db \/ exists resp, r = Ok resp) ->
  forall o db', with_client fails db body failure = (o, db') ->
    db' = db
    \/ exists resp c', body (connect db) = (Ok resp, c')
                       /\ o = Sent resp /\ db' = committed c'.
Proof.
  intros Hbody o db'. unfold with_client.
  destruct (fails Connect); [intros [= <- <-]; now left |].
  pose proof (Hbody (fst (body (connect db))) (snd (body (connect db)))) as Hb.
  destruct (body (connect db)) as [[resp |] c].
  - intros [= <- <-]. right. eauto.
  - destruct (Hb eq_refl) as [Hc | [resp [=]]]. simpl in Hc.
    unfold ROLLBACK. destruct (fails RollbackInCatch); intros [= <- <-]; now left.
Qed.

Lemma adjust_credits_all_or_nothing fails db req o db' :
  adjust_credits fails db req = (o, db') ->
  db' = db
  \/ exists actor uid amount reason,
       valid_adjustment req actor uid amount reason
       /\ o = Sent (json 200 (CreditsAdjustedBody
                 "User credits adjusted successfully."
                 uid (balance_of db uid) amount (balance_of db uid + amount)))
       /\ db' = adjusted db actor uid amount (balance_of db uid) reason.
Proof.
  unfold adjust_credits.
  destruct (user req ≫= id) as [actor |] eqn:Hu; [| intros [= <- <-]; now left].
  destruct (parseInt (param req)) as [uid |] eqn:Hp; [| intros [= <- <-]; now left].
  destruct (valid_amount (field req "amount_cents")) as [amount |] eqn:Ha;
    [| intros [= <- <-]; now left].
  destruct (valid_reason (field req "reason")) as [reason |] eqn:Hr;
    [| intros [= <- <-]; now left].
  intros H. apply with_client_cases in H.
  - destruct H as [H | (resp & c' & Hb & -> & ->)]; [now left |].
    destruct (adjust_credits_tx_cases _ _ _ _ _ _ _ _ Hb) as [Hc | [[= ->] Hc]];
      [now left |].
    right. exists actor, uid, amount, reason. repeat split; auto.
  - intros r c' Hb.
    destruct (adjust_credits_tx_cases _ _ _ _ _ _ _ _ Hb) as [Hc | [-> Hc]];
      eauto.
Qed.

Lemma adjust_credits_unchanged_unless_success fails db req :
  succeeded (fst (adjust_credits fails db req)) = false ->
  snd (adjust_credits fails db req) = db.
Proof.
  destruct (adjust_credits fails db req) as [o db'] eqn:E. simpl.
  destruct (adjust_credits_all_or_nothing _ _ _ _ _ E)
    as [H | (actor & uid & amount & reason & _ & -> & _)]; [auto |].
  discriminate.
Qed.

End AdjustCreditsFacts.

Module CreditLedger.
Import JsNumber JsString JsValues Schema Http Pg Handler AdminUsers Properties.
Import AdjustCreditsFacts.

(** C1, as stated, at the balance 0 and the amount 3000000000: the
    user exists, the amount is a non-zero integer and the projected
    balance is not negative, yet the INTEGER column cannot hold it;
    the route answers 500 and nothing changes. *)
Lemma adjust_credits_beyond_integer_range :
  valid_adjustment (adjust_request 1 "2" 3000000000 "grant")
    1 2 3000000000 "grant"
  /\ users (sample_db (Some 0) "20") !! 2 = Some (sample_user "user")
  /\ 0 <= balance_of (sample_db (Some 0) "20") 2 + 3000000000
  /\ adjust_credits no_faults (sample_db (Some 0) "20")
       (adjust_request 1 "2" 3000000000 "grant")
     = (Sent (json 500 (ErrorBody "Failed to adjust user credits.")),
        sample_db (Some 0) "20").
Proof. repeat split; vm_compute; try reflexivity; discriminate. Qed.

(** C1 (amended): for an existing target user with current balance [B]
    (0 when the ledger row is missing) and a non-zero integer amount
    with [0 <= B + amount] and [B + 2 * amount <= 2147483647], so that
    every value written fits the INTEGER column, the adjustment
    succeeds when no statement fails: the response carries [B], the
    amount and [B + amount], the stored balance is [B + amount]
    (possibly exactly 0), and exactly one row is appended to
    [credit_transactions], with the signed amount, method
    admin_adjustment and status completed. *)
Theorem adjust_credits_succeeds_in_range :
  forall fails db req actor uid amount reason u,
    (forall s, fails s = false) ->
    valid_adjustment req actor uid amount reason ->
    users db !! uid = Some u ->
    int4 uid = true ->
    int4 (balance_of db uid) = true ->
    0 <= balance_of db uid + amount ->
    balance_of db uid + 2 * amount <= INT4_MAX ->
    amount <> 0
    /\ fst (adjust_credits fails db req)
       = Sent (json 200 (CreditsAdjustedBody "User credits adjusted successfully."
                 uid (balance_of db uid) amount (balance_of db uid + amount)))
    /\ user_credits (snd (adjust_credits fails db req))
       = <[uid := balance_of db uid + amount]> (user_credits db)
    /\ balance_of (snd (adjust_credits fails db req)) uid
       = balance_of db uid + amount
    /\ credit_transactions (snd (adjust_credits fails db req))
       = (credit_transactions db ++
          [ {| tx_user_id := uid; tx_amount_cents := amount;
               tx_method := "admin_adjustment"; tx_status := "completed";
               tx_description := "Admin Credit Adjustment: " +:+ reason |} ])%list
    /\ users (snd (adjust_credits fails db req)) = users db.
Proof.
  intros fails db req actor uid amount reason u F Hv Hu Hid HB Hge Hle.
  rewrite (adjust_credits_ok fails db req actor uid amount reason u)
    by assumption.
  simpl. repeat split.
  - destruct Hv as (_ & _ & Ha & _). now apply valid_amount_nonzero in Ha.
  - unfold balance_of at 1. simpl. now rewrite lookup_insert_eq.
Qed.

Lemma adjust_credits_succeeds_in_range_witness :
  fst (adjust_credits no_faults (sample_db (Some 100) "20")
         (adjust_request 1 "2" (-100) "refund"))
  = Sent (json 200 (CreditsAdjustedBody "User credits adjusted successfully."
            2 100 (-100) 0))
  /\ balance_of (snd (adjust_credits no_faults (sample_db (Some 100) "20")
                        (adjust_request 1 "2" (-100) "refund"))) 2
     = 0.
Proof.
  destruct (adjust_credits_succeeds_in_range no_faults
              (sample_db (Some 100) "20")
              (adjust_request 1 "2" (-100) "refund")
              1 2 (-100) "refund" (sample_user "user"))
    as (_ & Hresp & _ & Hbal & _).
  - reflexivity.
  - repeat split; vm_compute; reflexivity.
  - reflexivity.
  - reflexivity.
  - reflexivity.
  - vm_compute. discriminate.
  - vm_compute. discriminate.
  - split; [exact Hresp | exact Hbal].
Defined.

(** The missing ledger row counts as balance 0: the first adjustment of
    a user without a row stores the amount. *)
Example adjust_credits_without_ledger_row :
  adjust_credits no_faults (sample_db None "20")
    (adjust_request 1 "2" 25 "welcome")
  = (Sent (json 200 (CreditsAdjustedBody "User credits adjusted successfully."
             2 0 25 25)),
     adjusted (sample_db None "20") 1 2 25 0 "welcome").
Proof. vm_compute. reflexivity. Qed.

(** C2: when the projected balance is negative, the route rolls back
    and answers 400 with the current balance, which the message also
    names as the maximum deduction, and the database is unchanged; and
    whatever statement fails, the route commits either nothing or the
    whole adjustment: without the success response the database is
    unchanged. *)
Theorem adjust_credits_negative_or_failed_is_rolled_back :
  (forall fails db req actor uid amount reason u,
      fails Connect = false -> fails Begin = false ->
      fails SelectCredits = false -> fails SelectUserId = false ->
      fails Rollback = false ->
      valid_adjustment req actor uid amount reason ->
      users db !! uid = Some u ->
      int4 uid = true ->
      balance_of db uid + amount < 0 ->
      adjust_credits fails db req
      = (Sent (json 400 (NegativeBalanceBody
                 ("Adjustment would result in a negative balance. User has "
                  +:+ pretty (balance_of db uid)
                  +:+ " cents. Maximum possible deduction is "
                  +:+ pretty (balance_of db uid) +:+ " cents.")
                 (balance_of db uid))),
         db))
  /\ (forall fails db req,
        succeeded (fst (adjust_credits fails db req)) = false ->
        snd (adjust_credits fails db req) = db)
  /\ (forall fails db req,
        snd (adjust_credits fails db req) = db
        \/ exists actor uid amount reason,
             valid_adjustment req actor uid amount reason
             /\ succeeded (fst (adjust_credits fails db req)) = true
             /\ snd (adjust_credits fails db req)
                = adjusted db actor uid amount (balance_of db uid) reason).
Proof.
  split; [| split].
  - intros. now apply (adjust_credits_negative fails db req actor uid amount reason u).
  - apply adjust_credits_unchanged_unless_success.
  - intros fails db req.
    destruct (adjust_credits fails db req) as [o db'] eqn:E. simpl.
    destruct (adjust_credits_all_or_nothing _ _ _ _ _ E)
      as [H | (actor & uid & amount & reason & Hv & -> & ->)]; [now left |].
    right. exists actor, uid, amount, reason. auto.
Qed.

Lemma adjust_credits_negative_or_failed_is_rolled_back_witness :
  adjust_credits no_faults (sample_db (Some 100) "20")
    (adjust_request 1 "2" (-101) "chargeback")
  = (Sent (json 400 (NegativeBalanceBody
             "Adjustment would result in a negative balance. User has 100 cents. Maximum possible deduction is 100 cents."
             100)),
     sample_db (Some 100) "20").
Proof.
  apply (proj1 adjust_credits_negative_or_failed_is_rolled_back no_faults
           (sample_db (Some 100) "20")
           (adjust_request 1 "2" (-101) "chargeback")
           1 2 (-101) "chargeback" (sample_user "user"));
    try reflexivity.
  repeat split; vm_compute; reflexivity.
Defined.

(** Within the INTEGER range the three upserts of the handler leave
    what the single upsert of the specification leaves. *)
Lemma write_projected_balance_in_range fails uid amount w c0 u :
  fails UpsertCreditsAdd = false ->
  fails UpsertCreditsAddProjected = false ->
  fails UpsertCreditsSet = false ->
  users w !! uid = Some u ->
  int4 uid = true ->
  int4 (balance_of w uid) = true ->
  0 <= balance_of w uid + amount ->
  balance_of w uid + 2 * amount <= INT4_MAX ->
  write_projected_balance fails uid amount (balance_of w uid + amount)
    {| committed := c0; working := w |}
  = spec_set_projected_balance fails uid (balance_of w uid + amount)
      {| committed := c0; working := w |}.
Proof.
  intros F1 F2 F3 Hu Hid HB Hge Hle.
  rewrite (write_projected_balance_ok fails uid amount w c0 u) by assumption.
  assert (Hp : int4 (balance_of w uid + amount) = true).
  { apply int4_true in HB. apply int4_true.
    unfold INT4_MIN, INT4_MAX in *. lia. }
  unfold spec_set_projected_balance, upsert_credits_set, query.
  rewrite F3. simpl. rewrite Hid, Hp. simpl. rewrite Hu.
  now destruct (user_credits w !! uid).
Qed.

(** C3 at the balance 0 and the amount 1500000000: the single upsert of
    the specification stores 1500000000; in the handler's sequence the
    second upsert adds the amount to the 1500000000 the first one left,
    3000000000 is out of the INTEGER range, the statement is refused
    and the route answers 500 with nothing changed. *)
Theorem write_projected_balance_overflows :
  spec_set_projected_balance no_faults 2 (0 + 1500000000)
    (connect (sample_db (Some 0) "20"))
  = (Ok 1500000000,
     {| committed := sample_db (Some 0) "20";
        working := sample_db (Some 1500000000) "20" |})
  /\ write_projected_balance no_faults 2 1500000000 (0 + 1500000000)
       (connect (sample_db (Some 0) "20"))
     = (Rejected,
        {| committed := sample_db (Some 0) "20";
           working := sample_db (Some 1500000000) "20" |})
  /\ adjust_credits no_faults (sample_db (Some 0) "20")
       (adjust_request 1 "2" 1500000000 "grant")
     = (Sent (json 500 (ErrorBody "Failed to adjust user credits.")),
        sample_db (Some 0) "20")
  /\ adjust_credits no_faults (sample_db None "20")
       (adjust_request 1 "2" 1500000000 "grant")
     = (Sent (json 500 (ErrorBody "Failed to adjust user credits.")),
        sample_db None "20").
Proof. repeat split; vm_compute; reflexivity. Qed.

(** Run one after the other with the adjustment of -60 first: one
    adjustment succeeds and one fails, and the final balance is 40. *)
Lemma serial_adjustments_final_balance_40 :
  fst (adjust_serially no_faults (sample_db (Some 100) "20")
         [adjust_request 1 "2" (-60) "b"; adjust_request 1 "2" (-50) "a"])
  = [Sent (json 200 (CreditsAdjustedBody "User credits adjusted successfully."
             2 100 (-60) 40));
     Sent (json 400 (NegativeBalanceBody
             (negative_balance_error 40) 40))]
  /\ balance_of
       (snd (adjust_serially no_faults (sample_db (Some 100) "20")
               [adjust_request 1 "2" (-60) "b"; adjust_request 1 "2" (-50) "a"]))
       2 = 40
  /\ 40 <> 50.
Proof. repeat split; vm_compute; try reflexivity; discriminate. Qed.

(** What the handler does from a stale read.  The balance is read with
    a plain SELECT; if a second request has read 100 before the first
    one commits its adjustment of -50, the second continues from the
    read value: its projection 100 - 60 passes the check, its upserts
    run on the committed row and its final upsert sets 40.  Both
    requests are answered 200 and two transaction rows of -50 and -60
    stand against a balance that went from 100 to 40. *)
Lemma adjust_from_stale_balance :
  fst (adjust_from_balance no_faults 1 2 (-60) "b" 100
         (connect (adjusted (sample_db (Some 100) "20") 1 2 (-50) 100 "a")))
  = Ok (json 200 (CreditsAdjustedBody "User credits adjusted successfully."
          2 100 (-60) 40))
  /\ balance_of
       (committed
          (snd (adjust_from_balance no_faults 1 2 (-60) "b" 100
                  (connect (adjusted (sample_db (Some 100) "20") 1 2 (-50) 100 "a")))))
       2 = 40
  /\ List.map tx_amount_cents
       (credit_transactions
          (committed
             (snd (adjust_from_balance no_faults 1 2 (-60) "b" 100
                     (connect (adjusted (sample_db (Some 100) "20") 1 2 (-50) 100 "a"))))))
     = [-50; -60].
Proof. repeat split; vm_compute; reflexivity. Qed.

(** Run one after the other, in either order, the adjustments of -50
    and -60 from a balance of 100 end with exactly one success and one
    rejection with status 400, one transaction row, and a final
    balance of 100 plus the amount that ran first: 50 or 40, never
    negative. *)
Theorem serial_adjustments_one_succeeds :
  forall fails db r50 r60 actor50 actor60 uid reason50 reason60 u,
    (forall s, fails s = false) ->
    valid_adjustment r50 actor50 uid (-50) reason50 ->
    valid_adjustment r60 actor60 uid (-60) reason60 ->
    users db !! uid = Some u ->
    int4 uid = true ->
    user_credits db !! uid = Some 100 ->
    (adjust_serially fails db [r50; r60]
     = ([Sent (json 200 (CreditsAdjustedBody "User credits adjusted successfully."
                  uid 100 (-50) 50));
         Sent (json 400 (NegativeBalanceBody (negative_balance_error 50) 50))],
        adjusted db actor50 uid (-50) 100 reason50)
     /\ balance_of (adjusted db actor50 uid (-50) 100 reason50) uid = 50)
    /\ (adjust_serially fails db [r60; r50]
        = ([Sent (json 200 (CreditsAdjustedBody "User credits adjusted successfully."
                     uid 100 (-60) 40));
            Sent (json 400 (NegativeBalanceBody (negative_balance_error 40) 40))],
           adjusted db actor60 uid (-60) 100 reason60)
        /\ balance_of (adjusted db actor60 uid (-60) 100 reason60) uid = 40).
Proof.
  intros fails db r50 r60 actor50 actor60 uid reason50 reason60 u
    F H50 H60 Hu Hid Hb.
  assert (HB : balance_of db uid = 100) by (unfold balance_of; now rewrite Hb).
  assert (Hbal : forall actor a reason,
             balance_of (adjusted db actor uid a 100 reason) uid = 100 + a).
  { intros. unfold balance_of, adjusted. simpl. now rewrite lookup_insert_eq. }
  assert (Hu' : forall actor a reason,
             users (adjusted db actor uid a 100 reason) !! uid = Some u)
    by (intros; exact Hu).
  assert (H100 : int4 100 = true) by reflexivity.
  assert (Hmax : forall a, a <= 0 -> 100 + 2 * a <= INT4_MAX)
    by (intros; unfold INT4_MAX; lia).
  split; (split; [| rewrite Hbal; reflexivity]);
    unfold adjust_serially.
  - rewrite (adjust_credits_ok fails db r50 actor50 uid (-50) reason50 u F H50 Hu Hid);
      rewrite HB; [| exact H100 | lia | apply Hmax; lia].
    rewrite (adjust_credits_negative fails _ r60 actor60 uid (-60) reason60 u
               (F _) (F _) (F _) (F _) (F _) H60 (Hu' _ _ _) Hid);
      rewrite Hbal; [reflexivity | lia].
  - rewrite (adjust_credits_ok fails db r60 actor60 uid (-60) reason60 u F H60 Hu Hid);
      rewrite HB; [| exact H100 | lia | apply Hmax; lia].
    rewrite (adjust_credits_negative fails _ r50 actor50 uid (-50) reason50 u
               (F _) (F _) (F _) (F _) (F _) H50 (Hu' _ _ _) Hid);
      rewrite Hbal; [reflexivity | lia].
Qed.

Lemma serial_adjustments_one_succeeds_witness :
  adjust_serially no_faults (sample_db (Some 100) "20")
    [adjust_request 1 "2" (-50) "a"; adjust_request 1 "2" (-60) "b"]
  = ([Sent (json 200 (CreditsAdjustedBody "User credits adjusted successfully."
               2 100 (-50) 50));
      Sent (json 400 (NegativeBalanceBody (negative_balance_error 50) 50))],
     adjusted (sample_db (Some 100) "20") 1 2 (-50) 100 "a").
Proof.
  apply (proj1 (proj1 (serial_adjustments_one_succeeds no_faults
           (sample_db (Some 100) "20")
           (adjust_request 1 "2" (-50) "a") (adjust_request 1 "2" (-60) "b")
           1 1 2 "a" "b" (sample_user "user")
           (fun _ => eq_refl)
           ltac:(repeat split; vm_compute; reflexivity)
           ltac:(repeat split; vm_compute; reflexivity)
           eq_refl eq_refl eq_refl))).
Defined.

End CreditLedger.

(* ===================================================================== *)
(** * Two adjustments of one user at the same time *)
(* ===================================================================== *)

Module ConcurrencyFacts.
Import JsNumber JsString JsValues Schema Http Pg Handler AdminUsers Properties.
Import Concurrency AdjustCreditsFacts.

(** The read and what follows it are the transaction of the route. *)
Lemma adjust_credits_tx_split fails a c :
  adjust_credits_tx fails (adj_admin a) (adj_user a) (adj_amount a)
    (adj_reason a) c
  = (adjust_read fails a ≫= adjust_after_read fails a) c.
Proof.
  unfold adjust_credits_tx, adjust_read, adjust_after_read, mbind, tx_bind.
  destruct (BEGIN fails c) as [[[] |] c1]; [| reflexivity].
  destruct (select_credits fails (adj_user a) c1) as [[[b |] |] c2];
    reflexivity.
Qed.

(** The handler's writes from a balance [read] that is not the stored
    one any more: the check and the final upsert use [read]. *)
Lemma adjust_from_balance_stale fails actor uid amount reason read w stored u :
  (forall s, fails s = false) ->
  users w !! uid = Some u ->
  int4 uid = true ->
  user_credits w !! uid = Some stored ->
  int4 amount = true ->
  int4 (read + amount) = true ->
  int4 (stored + amount) = true ->
  int4 (stored + amount + amount) = true ->
  0 <= read + amount ->
  adjust_from_balance fails actor uid amount reason read (connect w)
  = (Ok (json 200 (CreditsAdjustedBody "User credits adjusted successfully."
           uid read amount (read + amount))),
     connect (adjusted w actor uid amount read reason)).
Proof.
  intros F Hu Hid Hs Ha Hr H1 H2 Hge.
  unfold adjust_from_balance.
  replace (read + amount <? 0) with false by (symmetry; apply Z.ltb_ge; lia).
  unfold write_projected_balance, upsert_credits_add, upsert_credits_set,
    insert_credit_transaction, logAdminAction, COMMIT, query, connect,
    mbind, tx_bind, mret, tx_ret.
  rewrite !F. simpl. rewrite Hid, Ha, Hs. simpl. rewrite H1. simpl.
  rewrite Hr. simpl. rewrite lookup_insert_eq, H2. simpl.
  rewrite lookup_insert_eq. simpl. rewrite Hu. simpl.
  unfold adjusted. simpl. rewrite !insert_insert_eq. reflexivity.
Qed.

(** Two deductions of one user that each fit the balance, both read
    before either writes. *)
Lemma adjust_both_read_first_ok failsA failsB db a b u balance :
  (forall s, failsA s = false) -> (forall s, failsB s = false) ->
  adj_user b = adj_user a ->
  users db !! adj_user a = Some u ->
  int4 (adj_user a) = true ->
  user_credits db !! adj_user a = Some balance ->
  0 <= balance <= 10 ^ 9 ->
  adj_amount a < 0 -> adj_amount b < 0 ->
  0 <= balance + adj_amount a -> 0 <= balance + adj_amount b ->
  adjust_both_read_first failsA failsB db a b
  = (Ok (json 200 (CreditsAdjustedBody "User credits adjusted successfully."
           (adj_user a) balance (adj_amount a) (balance + adj_amount a))),
     Ok (json 200 (CreditsAdjustedBody "User credits adjusted successfully."
           (adj_user a) balance (adj_amount b) (balance + adj_amount b))),
     adjusted
       (adjusted db (adj_admin a) (adj_user a) (adj_amount a) balance
          (adj_reason a))
       (adj_admin b) (adj_user a) (adj_amount b) balance (adj_reason b)).
Proof.
  intros FA FB Hsame Hu Hid Hbal HB Ha Hb Hga Hgb.
  assert (Hr : forall fails x, (forall s, fails s = false) ->
                 adj_user x = adj_user a ->
                 adjust_read fails x (connect db)
                 = (Ok (Some balance), connect db)).
  { intros fails x F Hx.
    unfold adjust_read, BEGIN, select_credits, query, connect, mbind, tx_bind.
    rewrite !F. simpl. rewrite Hx, Hid, Hbal. reflexivity. }
  unfold adjust_both_read_first.
  rewrite (Hr failsA a FA eq_refl), (Hr failsB b FB Hsame).
  unfold adjust_after_read.
  assert (I : forall z, -2 * 10 ^ 9 <= z <= 10 ^ 9 -> int4 z = true).
  { intros z Hz. apply int4_true. unfold INT4_MIN, INT4_MAX.
    change (10 ^ 9) with 1000000000 in Hz. lia. }
  change (10 ^ 9) with 1000000000 in *.
  rewrite (adjust_from_balance_stale failsA _ _ _ _ balance db balance u);
    auto; try (apply I; change (10 ^ 9) with 1000000000; lia).
  set (db1 := adjusted db (adj_admin a) (adj_user a) (adj_amount a) balance
                (adj_reason a)).
  change (sees_commit (committed (connect db1)) (connect db))
    with (connect db1).
  rewrite Hsame.
  rewrite (adjust_from_balance_stale failsB _ _ _ _ balance _
             (balance + adj_amount a) u);
    auto; try (apply I; change (10 ^ 9) with 1000000000; lia).
  - unfold adjusted. simpl. apply lookup_insert_eq.
Qed.

(** C4: the code does not serialise two adjustments of one user.  Its
    transaction is a plain read of the balance followed by writes
    from the value read, and the last write sets the balance to the
    projection made from that value.  When two requests of deductions
    that each fit the balance have both read before either writes,
    both pass the negative-balance check and both are answered 200;
    the balance ends at the starting balance plus the second amount
    alone, while the transaction rows of both amounts stand.  From a
    balance of 100, the adjustments of -50 and -60 are both answered
    200 and the balance ends at 40, where the same two requests run
    one after the other give one 200, one 400 and the balance 50. *)
Theorem concurrent_adjustments_both_pass :
  (forall fails a c,
      adjust_credits_tx fails (adj_admin a) (adj_user a) (adj_amount a)
        (adj_reason a) c
      = (adjust_read fails a ≫= adjust_after_read fails a) c)
  /\ (forall failsA failsB db a b u balance,
        (forall s, failsA s = false) -> (forall s, failsB s = false) ->
        adj_user b = adj_user a ->
        users db !! adj_user a = Some u ->
        int4 (adj_user a) = true ->
        user_credits db !! adj_user a = Some balance ->
        0 <= balance <= 10 ^ 9 ->
        adj_amount a < 0 -> adj_amount b < 0 ->
        0 <= balance + adj_amount a -> 0 <= balance + adj_amount b ->
        let final := snd (adjust_both_read_first failsA failsB db a b) in
        fst (adjust_both_read_first failsA failsB db a b)
        = (Ok (json 200 (CreditsAdjustedBody
                 "User credits adjusted successfully."
                 (adj_user a) balance (adj_amount a)
                 (balance + adj_amount a))),
           Ok (json 200 (CreditsAdjustedBody
                 "User credits adjusted successfully."
                 (adj_user a) balance (adj_amount b)
                 (balance + adj_amount b))))
        /\ balance_of final (adj_user a) = balance + adj_amount b
        /\ List.map tx_amount_cents (credit_transactions final)
           = (List.map tx_amount_cents (credit_transactions db)
              ++ [adj_amount a; adj_amount b])%list)
  /\ (let db := sample_db (Some 100) "20" in
      let a := {| adj_admin := 1; adj_user := 2; adj_amount := -50;
                  adj_reason := "a" |} in
      let b := {| adj_admin := 1; adj_user := 2; adj_amount := -60;
                  adj_reason := "b" |} in
      fst (adjust_both_read_first no_faults no_faults db a b)
      = (Ok (json 200 (CreditsAdjustedBody
               "User credits adjusted successfully." 2 100 (-50) 50)),
         Ok (json 200 (CreditsAdjustedBody
               "User credits adjusted successfully." 2 100 (-60) 40)))
      /\ balance_of (snd (adjust_both_read_first no_faults no_faults db a b)) 2
         = 40
      /\ List.map tx_amount_cents
           (credit_transactions
              (snd (adjust_both_read_first no_faults no_faults db a b)))
         = [-50; -60]
      /\ List.map succeeded
           (fst (adjust_serially no_faults db
                   [adjust_request 1 "2" (-50) "a";
                    adjust_request 1 "2" (-60) "b"]))
         = [true; false]
      /\ balance_of
           (snd (adjust_serially no_faults db
                   [adjust_request 1 "2" (-50) "a";
                    adjust_request 1 "2" (-60) "b"])) 2
         = 50).
Proof.
  split; [exact adjust_credits_tx_split | split].
  - intros failsA failsB db a b u balance FA FB Hsame Hu Hid Hbal HB Ha Hb
      Hga Hgb. cbv zeta.
    rewrite (adjust_both_read_first_ok failsA failsB db a b u balance)
      by assumption.
    cbn [fst snd]. split; [reflexivity | split].
    + unfold balance_of, adjusted. simpl. now rewrite lookup_insert_eq.
    + unfold adjusted. simpl.
      rewrite !List.map_app, <- List.app_assoc. reflexivity.
  - cbv zeta. repeat split; vm_compute; reflexivity.
Qed.

Lemma concurrent_adjustments_both_pass_witness :
  balance_of
    (snd (adjust_both_read_first no_faults no_faults
            (sample_db (Some 100) "20")
            {| adj_admin := 1; adj_user := 2; adj_amount := -50;
               adj_reason := "a" |}
            {| adj_admin := 1; adj_user := 2; adj_amount := -60;
               adj_reason := "b" |})) 2
  = 100 + -60.
Proof.
  apply (proj1 (proj2 concurrent_adjustments_both_pass) no_faults no_faults
           (sample_db (Some 100) "20")
           {| adj_admin := 1; adj_user := 2; adj_amount := -50;
              adj_reason := "a" |}
           {| adj_admin := 1; adj_user := 2; adj_amount := -60;
              adj_reason := "b" |}
           (sample_user "user") 100);
    try reflexivity; simpl; lia.
Defined.

End ConcurrencyFacts.


(* ===================================================================== *)
(** * The role route and the model route *)
(* ===================================================================== *)

Module AdminRouteFacts.
Import JsNumber JsString JsValues Schema Http Pg Handler Properties.
Import AdminUsers AdminModels TxTactics AdjustCreditsFacts.

Lemma includes_In l r : includes l r = true <-> In r l.
Proof.
  unfold includes. rewrite existsb_exists. split.
  - intros (x & Hx & E). apply String.eqb_eq in E. now subst.
  - intros H. exists r. split; [exact H | apply String.eqb_refl].
Qed.

(** A requested role is accepted exactly when it is a string whose
    lower-case form is one of the valid roles. *)
Lemma normalizedNewRole_Some v r :
  normalizedNewRole v = Some r <->
  exists s, v = JString s /\ r = toLowerCase s /\ In r VALID_ROLES.
Proof.
  unfold normalizedNewRole. split.
  - destruct v; try discriminate.
    destruct (String.eqb s "") eqn:E; [discriminate |].
    destruct (includes VALID_ROLES (toLowerCase s)) eqn:I; [| discriminate].
    intros [= <-]. exists s. repeat split. now apply includes_In.
  - intros (s & -> & -> & Hin).
    destruct (String.eqb s "") eqn:E.
    + apply String.eqb_eq in E. subst s. simpl in Hin.
      repeat destruct Hin as [Hin | Hin]; try discriminate; contradiction.
    + apply includes_In in Hin. now rewrite Hin.
Qed.




(** With the current role already the requested one, the transaction
    of the role route commits nothing, whatever fails. *)
Lemma update_role_tx_same_role fails db actor uid newRole summary u r c' :
  users db !! uid = Some u ->
  role u = Some newRole ->
  update_role_tx fails actor uid newRole summary (connect db) = (r, c') ->
  committed c' = db
  /\ (r = Rejected
      \/ r = Ok (json 200 (RoleUnchangedBody
                   ("User role is already " +:+ newRole +:+ ". No change made.")
                   newRole))).
Proof.
  intros Hu Hr.
  unfold update_role_tx, select_user_role, BEGIN, ROLLBACK, query, connect,
    mbind, tx_bind, mret, tx_ret.
  repeat (tx_head; rewrite ?Hr, ?bool_decide_eq_true_2 by reflexivity).
  all: simpl; rewrite ?Hr, ?bool_decide_eq_true_2 by reflexivity;
    repeat tx_head.
  all: intros [= <- <-]; split; auto.
Qed.

Lemma update_role_same_role fails db req actor uid newRole u :
  user req ≫= id = Some actor ->
  parseInt (param req) = Some uid ->
  normalizedNewRole (field req "role") = Some newRole ->
  users db !! uid = Some u ->
  role u = Some newRole ->
  snd (update_role fails db req) = db.
Proof.
  intros Hu Hp Hn Hrow Hr. unfold update_role. rewrite Hu, Hp, Hn.
  destruct ((uid =? actor) && negb (String.eqb newRole "admin"));
    [reflexivity |].
  unfold with_client.
  destruct (fails Connect); [reflexivity |].
  destruct (update_role_tx fails actor uid newRole (field req "summary") (connect db))
    as [r c] eqn:E.
  destruct (update_role_tx_same_role _ _ _ _ _ _ _ _ _ Hrow Hr E) as [Hc Hres].
  destruct r; simpl; [exact Hc |].
  unfold ROLLBACK. destruct (fails RollbackInCatch); simpl; exact Hc.
Qed.

Lemma update_role_same_role_response fails db req actor uid newRole u :
  user req ≫= id = Some actor ->
  parseInt (param req) = Some uid ->
  normalizedNewRole (field req "role") = Some newRole ->
  users db !! uid = Some u ->
  role u = Some newRole ->
  int4 uid = true ->
  is_admin db actor ->
  fails Connect = false -> fails Begin = false ->
  fails SelectUserRole = false -> fails Rollback = false ->
  update_role fails db req
  = (Sent (json 200 (RoleUnchangedBody
             ("User role is already " +:+ newRole +:+ ". No change made.")
             newRole)), db).
Proof.
  intros Hu Hp Hn Hrow Hr Hid Hadm F1 F2 F3 F4.
  unfold update_role. rewrite Hu, Hp, Hn.
  assert (Hself : (uid =? actor) && negb (String.eqb newRole "admin") = false).
  { destruct (uid =? actor) eqn:E; [| reflexivity].
    apply Z.eqb_eq in E. subst actor.
    unfold is_admin in Hadm. rewrite Hrow in Hadm. simpl in Hadm.
    rewrite Hr in Hadm. injection Hadm as ->. reflexivity. }
  rewrite Hself. unfold with_client. rewrite F1.
  unfold update_role_tx, select_user_role, BEGIN, ROLLBACK, query, connect,
    mbind, tx_bind, mret, tx_ret.
  rewrite F2, F3. simpl. rewrite Hid, Hrow. simpl. rewrite Hr.
  rewrite bool_decide_eq_true_2 by reflexivity.
  now rewrite F4.
Qed.





Lemma strict_eqb_not_nan x y : strict_eqb x y = true -> isNaN y = false.
Proof.
  destruct y; [reflexivity | reflexivity | | reflexivity].
  destruct x; discriminate.
Qed.

(** With the stored configuration equal to the requested one, the
    transaction of the model route commits nothing, whatever fails. *)
Lemma update_model_tx_same decimal_10_2 fails db actor mid
      inputCost outputCost active row rest r c' :
  List.filter (fun m => model_id m =? mid) (models db) = row :: rest ->
  strict_eqb (CostCalculator.parseFloat_value (input_cost_per_million_tokens row))
    inputCost = true ->
  strict_eqb (CostCalculator.parseFloat_value (output_cost_per_million_tokens row))
    outputCost = true ->
  is_active row = Some active ->
  update_model_tx decimal_10_2 fails actor mid inputCost outputCost active
    (connect db) = (r, c') ->
  committed c' = db
  /\ (r = Rejected
      \/ r = Ok (json 200 (ModelUnchangedBody
                   "Model details are already set to the provided values. No change made."
                   row))).
Proof.
  intros Hrow Hin Hout Hact.
  unfold update_model_tx, select_model, BEGIN, ROLLBACK, query, connect,
    mbind, tx_bind, mret, tx_ret.
  destruct (fails Begin); [intros [= <- <-]; auto |].
  destruct (fails SelectModel); [intros [= <- <-]; auto |].
  simpl. destruct (int4 mid); [| intros [= <- <-]; auto].
  rewrite Hrow. simpl. rewrite Hin, Hout, Hact.
  rewrite bool_decide_eq_true_2 by reflexivity. simpl.
  destruct (fails Rollback); intros [= <- <-]; auto.
Qed.

Lemma update_model_same decimal_10_2 fails db req actor mid active row rest :
  user req ≫= id = Some actor ->
  parseInt (param req) = Some mid ->
  field req "is_active" = JBool active ->
  List.filter (fun m => model_id m =? mid) (models db) = row :: rest ->
  strict_eqb (CostCalculator.parseFloat_value (input_cost_per_million_tokens row))
    (parseFloat_js (field req "input_cost_per_million_tokens")) = true ->
  strict_eqb (CostCalculator.parseFloat_value (output_cost_per_million_tokens row))
    (parseFloat_js (field req "output_cost_per_million_tokens")) = true ->
  is_active row = Some active ->
  snd (update_model decimal_10_2 fails db req) = db
  /\ (ltb (parseFloat_js (field req "input_cost_per_million_tokens")) (of_Z 0) = false ->
      ltb (parseFloat_js (field req "output_cost_per_million_tokens")) (of_Z 0) = false ->
      int4 mid = true ->
      fails Connect = false -> fails Begin = false ->
      fails SelectModel = false -> fails Rollback = false ->
      update_model decimal_10_2 fails db req
      = (Sent (json 200 (ModelUnchangedBody
                 "Model details are already set to the provided values. No change made."
                 row)), db)).
Proof.
  intros Hu Hp Hact Hrow Hin Hout Hst. unfold update_model.
  rewrite Hu, Hp, Hact.
  set (inputCost := parseFloat_js (field req "input_cost_per_million_tokens")) in *.
  set (outputCost := parseFloat_js (field req "output_cost_per_million_tokens")) in *.
  assert (Hni : isNaN inputCost = false) by exact (strict_eqb_not_nan _ _ Hin).
  assert (Hno : isNaN outputCost = false) by exact (strict_eqb_not_nan _ _ Hout).
  rewrite Hni, Hno. simpl. split.
  - destruct (ltb inputCost (of_Z 0) || false || ltb outputCost (of_Z 0));
      [reflexivity |].
    unfold with_client.
    destruct (fails Connect); [reflexivity |].
    destruct (update_model_tx decimal_10_2 fails actor mid inputCost outputCost
                active (connect db)) as [r c] eqn:E.
    destruct (update_model_tx_same _ _ _ _ _ _ _ _ _ _ _ _ Hrow Hin Hout Hst E)
      as [Hc _].
    destruct r; simpl; [exact Hc |].
    unfold ROLLBACK. destruct (fails RollbackInCatch); simpl; exact Hc.
  - intros Li Lo Hid F1 F2 F3 F4. rewrite Li, Lo. simpl.
    unfold with_client. rewrite F1.
    unfold update_model_tx, select_model, BEGIN, ROLLBACK, query, connect,
      mbind, tx_bind, mret, tx_ret.
    rewrite F2, F3. simpl. rewrite Hid, Hrow. simpl. rewrite Hin, Hout, Hst.
    rewrite bool_decide_eq_true_2 by reflexivity. simpl. now rewrite F4.
Qed.

(** C10: when the target user's current role is already the requested,
    lower-cased role, the role route commits no write, whatever fails,
    and, for an acting admin and without a failing statement, answers
    200 with the message that no change was made; when the requested
    input cost, output cost and active flag equal the stored ones, the
    model route commits no write and, for costs that are not below zero
    and without a failing statement, answers 200 with its no-change
    message. *)
Theorem noop_updates_write_nothing :
  (forall fails db req actor uid newRole u,
      user req ≫= id = Some actor ->
      parseInt (param req) = Some uid ->
      normalizedNewRole (field req "role") = Some newRole ->
      users db !! uid = Some u ->
      role u = Some newRole ->
      snd (update_role fails db req) = db
      /\ (int4 uid = true ->
          is_admin db actor ->
          fails Connect = false -> fails Begin = false ->
          fails SelectUserRole = false -> fails Rollback = false ->
          update_role fails db req
          = (Sent (json 200 (RoleUnchangedBody
                     ("User role is already " +:+ newRole +:+ ". No change made.")
                     newRole)), db)))
  /\ (forall decimal_10_2 fails db req actor mid active row rest,
        user req ≫= id = Some actor ->
        parseInt (param req) = Some mid ->
        field req "is_active" = JBool active ->
        List.filter (fun m => model_id m =? mid) (models db) = row :: rest ->
        strict_eqb (CostCalculator.parseFloat_value (input_cost_per_million_tokens row))
          (parseFloat_js (field req "input_cost_per_million_tokens")) = true ->
        strict_eqb (CostCalculator.parseFloat_value (output_cost_per_million_tokens row))
          (parseFloat_js (field req "output_cost_per_million_tokens")) = true ->
        is_active row = Some active ->
        snd (update_model decimal_10_2 fails db req) = db
        /\ (ltb (parseFloat_js (field req "input_cost_per_million_tokens")) (of_Z 0) = false ->
            ltb (parseFloat_js (field req "output_cost_per_million_tokens")) (of_Z 0) = false ->
            int4 mid = true ->
            fails Connect = false -> fails Begin = false ->
            fails SelectModel = false -> fails Rollback = false ->
            update_model decimal_10_2 fails db req
            = (Sent (json 200 (ModelUnchangedBody
                       "Model details are already set to the provided values. No change made."
                       row)), db))).
Proof.
  split.
  - intros fails db req actor uid newRole u Hu Hp Hn Hrow Hr. split.
    + now apply (update_role_same_role fails db req actor uid newRole u).
    + intros. now apply (update_role_same_role_response fails db req actor uid newRole u).
  - intros. now apply (update_model_same decimal_10_2 fails db req actor mid active row rest).
Qed.

Lemma noop_updates_write_nothing_witness :
  update_role no_faults (sample_db None "20")
    (request 1 "2" [("role", JString "USER")])
  = (Sent (json 200 (RoleUnchangedBody
             "User role is already user. No change made." "user")),
     sample_db None "20")
  /\ update_model (fun _ => None) no_faults (sample_db None "20")
       (request 1 "7" [("input_cost_per_million_tokens", JString "1");
                       ("output_cost_per_million_tokens", JNumber (of_Z 2));
                       ("is_active", JBool true)])
     = (Sent (json 200 (ModelUnchangedBody
                "Model details are already set to the provided values. No change made."
                gemini_flash)),
        sample_db None "20").
Proof.
  split.
  - apply (proj2 (proj1 noop_updates_write_nothing no_faults
             (sample_db None "20") (request 1 "2" [("role", JString "USER")])
             1 2 "user" (sample_user "user")
             eq_refl eq_refl eq_refl eq_refl eq_refl));
      reflexivity.
  - apply (proj2 (proj2 noop_updates_write_nothing (fun _ => None) no_faults
             (sample_db None "20")
             (request 1 "7" [("input_cost_per_million_tokens", JString "1");
                             ("output_cost_per_million_tokens", JNumber (of_Z 2));
                             ("is_active", JBool true)])
             1 7 true gemini_flash []
             eq_refl eq_refl eq_refl eq_refl eq_refl eq_refl eq_refl));
      reflexivity.
Defined.

End AdminRouteFacts.

(* ===================================================================== *)
(** * More on the credit route *)
(* ===================================================================== *)

Module CreditRouteFacts.
Import JsNumber JsString JsValues Schema Http Pg Handler AdminUsers Properties.
Import Invariants Concurrency TxTactics AdjustCreditsFacts.

(** What a 200 of the transaction tells about the start state. *)
Lemma adjust_credits_tx_success fails db actor uid amount reason resp c' :
  adjust_credits_tx fails actor uid amount reason (connect db) = (Ok resp, c') ->
  status resp = 200 ->
  0 <= balance_of db uid + amount
  /\ is_Some (users db !! uid)
  /\ int4 (balance_of db uid + amount) = true
  /\ int4 amount = true.
Proof.
  unfold adjust_credits_tx, adjust_from_balance, write_projected_balance,
    upsert_credits_add, upsert_credits_set, insert_credit_transaction,
    logAdminAction, select_credits, select_user_id,
    BEGIN, COMMIT, ROLLBACK, query, connect, balance_of,
    mbind, tx_bind, mret, tx_ret.
  repeat tx_head.
  all: intros [= <- <-]; simpl; intros Hst; try discriminate.
  all: repeat match goal with
              | H : _ && _ = true |- _ =>
                  apply andb_true_iff in H; destruct H
              | H : (_ <? 0) = false |- _ => apply Z.ltb_ge in H
              end.
  all: rewrite ?Z.add_0_l in *; repeat split; eauto.
Qed.

(** Every run of the credit route commits nothing, or the adjustment of
    an existing user whose projected balance is not negative. *)
Lemma adjust_credits_outcomes fails db req o db' :
  adjust_credits fails db req = (o, db') ->
  db' = db
  \/ exists actor uid amount reason,
       valid_adjustment req actor uid amount reason
       /\ 0 <= balance_of db uid + amount
       /\ is_Some (users db !! uid)
       /\ int4 (balance_of db uid + amount) = true
       /\ int4 amount = true
       /\ o = Sent (json 200 (CreditsAdjustedBody
                 "User credits adjusted successfully."
                 uid (balance_of db uid) amount (balance_of db uid + amount)))
       /\ db' = adjusted db actor uid amount (balance_of db uid) reason.
Proof.
  intros E.
  destruct (adjust_credits_all_or_nothing _ _ _ _ _ E)
    as [H | (actor & uid & amount & reason & Hv & -> & ->)]; [now left |].
  right. exists actor, uid, amount, reason.
  rewrite (adjust_credits_valid _ _ _ _ _ _ _ Hv) in E.
  unfold with_client in E.
  destruct (fails Connect); [discriminate |].
  destruct (adjust_credits_tx fails actor uid amount reason (connect db))
    as [[resp |] c] eqn:Etx.
  - assert (Hr : resp = json 200 (CreditsAdjustedBody
               "User credits adjusted successfully."
               uid (balance_of db uid) amount (balance_of db uid + amount)))
      by congruence.
    subst resp.
    destruct (adjust_credits_tx_success _ _ _ _ _ _ _ _ Etx eq_refl)
      as (H1 & H2 & H3 & H4).
    repeat split; auto; apply Hv.
  - unfold ROLLBACK in E. destruct (fails RollbackInCatch); discriminate.
Qed.

Lemma valid_amount_None v :
  valid_amount v = None <->
  ~ exists x a, v = JNumber x /\ as_integer x = Some a /\ a <> 0.
Proof.
  unfold valid_amount. split.
  - intros H (x & a & -> & Hi & Hne). rewrite Hi in H.
    destruct (a =? 0) eqn:E; [apply Z.eqb_eq in E; contradiction | discriminate].
  - intros H. destruct v; try reflexivity.
    destruct (as_integer x) as [a |] eqn:Hi; [| reflexivity].
    destruct (a =? 0) eqn:E; [reflexivity |].
    exfalso. apply H. exists x, a. repeat split; auto. now apply Z.eqb_neq.
Qed.

(** X1: the credit route answers 400, without opening a connection and
    with nothing changed, whenever the actor and the user id are
    accepted and [amount_cents] is not a number that is a non-zero
    integer, and likewise when the amount is accepted and [reason] is
    not a string with a character that is not white space. *)
Theorem adjust_credits_rejects_malformed_body :
  forall fails db req actor uid,
    user req ≫= id = Some actor ->
    parseInt (param req) = Some uid ->
    ((~ exists x a, field req "amount_cents" = JNumber x
                    /\ as_integer x = Some a /\ a <> 0) ->
     adjust_credits fails db req
     = (Sent (json 400 (ErrorBody
                "Invalid amount_cents. Must be a non-zero integer.")), db))
    /\ (forall amount,
          valid_amount (field req "amount_cents") = Some amount ->
          (~ exists s, field req "reason" = JString s
                       /\ trim_is_empty s = false) ->
          adjust_credits fails db req
          = (Sent (json 400 (ErrorBody
                     "Reason for credit adjustment is required and cannot be empty.")),
             db)).
Proof.
  intros fails db req actor uid Hu Hp. split.
  - intros H. apply valid_amount_None in H.
    unfold adjust_credits. now rewrite Hu, Hp, H.
  - intros amount Ha H. unfold adjust_credits. rewrite Hu, Hp, Ha.
    assert (Hr : valid_reason (field req "reason") = None).
    { unfold valid_reason. destruct (field req "reason"); try reflexivity.
      destruct (trim_is_empty s) eqn:E; [reflexivity |].
      exfalso. apply H. eauto. }
    now rewrite Hr.
Qed.

Lemma adjust_credits_rejects_malformed_body_witness :
  adjust_credits no_faults (sample_db (Some 100) "20")
    (request 1 "2" [("amount_cents", JNumber (parseFloat "12.5"));
                    ("reason", JString "bonus")])
  = (Sent (json 400 (ErrorBody
             "Invalid amount_cents. Must be a non-zero integer.")),
     sample_db (Some 100) "20")
  /\ adjust_credits no_faults (sample_db (Some 100) "20")
       (request 1 "2" [("amount_cents", JNumber (of_Z 5));
                       ("reason", JString "   ")])
     = (Sent (json 400 (ErrorBody
                "Reason for credit adjustment is required and cannot be empty.")),
        sample_db (Some 100) "20").
Proof.
  split.
  - apply (proj1 (adjust_credits_rejects_malformed_body no_faults
             (sample_db (Some 100) "20")
             (request 1 "2" [("amount_cents", JNumber (parseFloat "12.5"));
                             ("reason", JString "bonus")])
             1 2 eq_refl eq_refl)).
    intros (x & a & [= <-] & Hi & _). vm_compute in Hi. discriminate.
  - apply (proj2 (adjust_credits_rejects_malformed_body no_faults
             (sample_db (Some 100) "20")
             (request 1 "2" [("amount_cents", JNumber (of_Z 5));
                             ("reason", JString "   ")])
             1 2 eq_refl eq_refl) 5 eq_refl).
    intros (s & [= <-] & Ht). vm_compute in Ht. discriminate.
Defined.

(** X2: for a target id with neither a ledger row nor a user row the
    credit route answers 404 and changes nothing. *)
Theorem adjust_credits_unknown_user :
  forall fails db req actor uid amount reason,
    valid_adjustment req actor uid amount reason ->
    int4 uid = true ->
    user_credits db !! uid = None ->
    users db !! uid = None ->
    fails Connect = false -> fails Begin = false ->
    fails SelectCredits = false -> fails SelectUserId = false ->
    fails Rollback = false ->
    adjust_credits fails db req
    = (Sent (json 404 (ErrorBody "Target user not found.")), db).
Proof.
  intros fails db req actor uid amount reason Hv Hid Hc Hu F1 F2 F3 F4 F5.
  rewrite (adjust_credits_valid _ _ _ _ _ _ _ Hv).
  unfold with_client, adjust_credits_tx, connect. rewrite F1.
  unfold BEGIN, ROLLBACK, select_credits, select_user_id, query, mbind, tx_bind,
    mret, tx_ret.
  rewrite F2, F3. simpl. rewrite Hid, Hc. simpl.
  rewrite F4. simpl. rewrite Hu. simpl. now rewrite F5.
Qed.

Lemma adjust_credits_unknown_user_witness :
  adjust_credits no_faults (sample_db None "20")
    (adjust_request 1 "99" 10 "gift")
  = (Sent (json 404 (ErrorBody "Target user not found.")),
     sample_db None "20").
Proof.
  apply (adjust_credits_unknown_user no_faults (sample_db None "20")
           (adjust_request 1 "99" 10 "gift") 1 99 10 "gift");
    try reflexivity.
  repeat split; vm_compute; reflexivity.
Defined.

(** X3: the credit route keeps the stored balances non-negative and
    within INTEGER: for every request and whatever fails, if no stored
    balance was negative (out of range) before, none is afterwards. *)
Theorem adjust_credits_keeps_balances_nonnegative :
  forall fails db req,
    (nonneg_balances db ->
     nonneg_balances (snd (adjust_credits fails db req)))
    /\ (int4_balances db ->
        int4_balances (snd (adjust_credits fails db req))).
Proof.
  intros fails db req.
  destruct (adjust_credits fails db req) as [o db'] eqn:E. simpl.
  destruct (adjust_credits_outcomes _ _ _ _ _ E)
    as [-> | (actor & uid & amount & reason & _ & Hge & _ & Hi & _ & _ & ->)];
    [tauto |].
  split; intros Hinv w b; unfold adjusted; simpl;
    (destruct (decide (w = uid)) as [-> | Hne];
     [rewrite lookup_insert_eq; intros [= <-]; assumption
     | rewrite lookup_insert_ne by congruence; apply Hinv]).
Qed.

Lemma adjust_credits_keeps_balances_nonnegative_witness :
  nonneg_balances
    (snd (adjust_credits no_faults (sample_db (Some 100) "20")
            (adjust_request 1 "2" (-30) "fee"))).
Proof.
  apply (proj1 (adjust_credits_keeps_balances_nonnegative no_faults
                  (sample_db (Some 100) "20")
                  (adjust_request 1 "2" (-30) "fee"))).
  intros uid b. unfold sample_db. simpl.
  destruct (decide (uid = 2)) as [-> | Hne].
  - rewrite lookup_singleton_eq. intros [= <-]. lia.
  - rewrite lookup_singleton_ne by congruence. discriminate.
Defined.

Lemma ledger_sum_app l1 l2 uid :
  ledger_sum (l1 ++ l2) uid = ledger_sum l1 uid + ledger_sum l2 uid.
Proof. induction l1 as [| t l1 IH]; simpl; [reflexivity | rewrite IH; lia]. Qed.

(** X4: a request of the credit route that runs alone keeps the
    balance in step with the transaction log: for every user and
    whatever fails, the difference between the balance (0 without a
    ledger row) and the sum of the user's transaction rows is the same
    before and after.  Two requests at the same time do not: when two
    deductions of one user have both read the balance before either
    writes, the difference grows by the amount of the first, which is
    in the transaction rows and not in the balance. *)
Theorem adjust_credits_keeps_ledger_in_step :
  (forall fails db req w,
      balance_of (snd (adjust_credits fails db req)) w
      - ledger_sum (credit_transactions (snd (adjust_credits fails db req))) w
      = balance_of db w - ledger_sum (credit_transactions db) w)
  /\ (forall failsA failsB db a b u balance,
        (forall s, failsA s = false) -> (forall s, failsB s = false) ->
        adj_user b = adj_user a ->
        users db !! adj_user a = Some u ->
        int4 (adj_user a) = true ->
        user_credits db !! adj_user a = Some balance ->
        0 <= balance <= 10 ^ 9 ->
        adj_amount a < 0 -> adj_amount b < 0 ->
        0 <= balance + adj_amount a -> 0 <= balance + adj_amount b ->
        let final := snd (adjust_both_read_first failsA failsB db a b) in
        balance_of final (adj_user a)
        - ledger_sum (credit_transactions final) (adj_user a)
        = balance_of db (adj_user a)
          - ledger_sum (credit_transactions db) (adj_user a)
          - adj_amount a).
Proof.
  split.
  - intros fails db req w.
    destruct (adjust_credits fails db req) as [o db'] eqn:E. simpl.
    destruct (adjust_credits_outcomes _ _ _ _ _ E)
      as [-> | (actor & uid & amount & reason & _ & _ & _ & _ & _ & _ & ->)];
      [reflexivity |].
    unfold adjusted, balance_of. simpl. rewrite ledger_sum_app. simpl.
    destruct (decide (w = uid)) as [-> | Hne].
    + rewrite lookup_insert_eq, Z.eqb_refl. simpl. lia.
    + rewrite lookup_insert_ne by congruence.
      replace (uid =? w) with false by (symmetry; apply Z.eqb_neq; congruence).
      lia.
  - intros failsA failsB db a b u balance FA FB Hsame Hu Hid Hbal HB Ha Hb
      Hga Hgb. cbv zeta.
    rewrite (ConcurrencyFacts.adjust_both_read_first_ok
               failsA failsB db a b u balance) by assumption.
    cbn [snd]. unfold adjusted, balance_of. simpl.
    rewrite lookup_insert_eq, Hbal, !ledger_sum_app. simpl.
    rewrite Z.eqb_refl. lia.
Qed.

Lemma adjust_credits_keeps_ledger_in_step_witness :
  balance_of
    (snd (adjust_both_read_first no_faults no_faults
            (sample_db (Some 100) "20")
            {| adj_admin := 1; adj_user := 2; adj_amount := -50;
               adj_reason := "a" |}
            {| adj_admin := 1; adj_user := 2; adj_amount := -60;
               adj_reason := "b" |})) 2
  - ledger_sum
      (credit_transactions
         (snd (adjust_both_read_first no_faults no_faults
                 (sample_db (Some 100) "20")
                 {| adj_admin := 1; adj_user := 2; adj_amount := -50;
                    adj_reason := "a" |}
                 {| adj_admin := 1; adj_user := 2; adj_amount := -60;
                    adj_reason := "b" |}))) 2
  = balance_of (sample_db (Some 100) "20") 2
    - ledger_sum (credit_transactions (sample_db (Some 100) "20")) 2
    - -50.
Proof.
  apply (proj2 adjust_credits_keeps_ledger_in_step no_faults no_faults
           (sample_db (Some 100) "20")
           {| adj_admin := 1; adj_user := 2; adj_amount := -50;
              adj_reason := "a" |}
           {| adj_admin := 1; adj_user := 2; adj_amount := -60;
              adj_reason := "b" |}
           (sample_user "user") 100);
    try reflexivity; simpl; lia.
Defined.

(** X5: the credit route touches the target user only: the users, the
    models and the configuration are never changed, and for every user
    other than the one named by the route parameter the ledger row and
    the transaction rows stay as they were. *)
Theorem adjust_credits_leaves_other_users :
  forall fails db req,
    users (snd (adjust_credits fails db req)) = users db
    /\ models (snd (adjust_credits fails db req)) = models db
    /\ app_config (snd (adjust_credits fails db req)) = app_config db
    /\ forall w,
         parseInt (param req) <> Some w ->
         user_credits (snd (adjust_credits fails db req)) !! w
         = user_credits db !! w
         /\ List.filter (fun t => tx_user_id t =? w)
              (credit_transactions (snd (adjust_credits fails db req)))
            = List.filter (fun t => tx_user_id t =? w)
                (credit_transactions db).
Proof.
  intros fails db req.
  destruct (adjust_credits fails db req) as [o db'] eqn:E. simpl.
  destruct (adjust_credits_outcomes _ _ _ _ _ E)
    as [-> | (actor & uid & amount & reason & Hv & _ & _ & _ & _ & _ & ->)];
    [repeat split; reflexivity |].
  repeat split; try reflexivity.
  - destruct Hv as (_ & Hp & _). unfold adjusted. simpl.
    apply lookup_insert_ne. congruence.
  - destruct Hv as (_ & Hp & _). unfold adjusted. simpl.
    rewrite List.filter_app. simpl.
    replace (uid =? w) with false
      by (symmetry; apply Z.eqb_neq; congruence).
    apply app_nil_r.
Qed.

Lemma adjust_credits_leaves_other_users_witness :
  user_credits
    (snd (adjust_credits no_faults (sample_db (Some 100) "20")
            (adjust_request 1 "2" (-30) "fee"))) !! 1
  = user_credits (sample_db (Some 100) "20") !! 1.
Proof.
  apply (proj2 (proj2 (proj2
           (adjust_credits_leaves_other_users no_faults
              (sample_db (Some 100) "20")
              (adjust_request 1 "2" (-30) "fee")))) 1).
  vm_compute. discriminate.
Defined.

(** X6: the credit route never leaves a ledger row or a transaction
    row without its user: if every such row belonged to an existing
    user before, so does every row afterwards, whatever fails. *)
Theorem adjust_credits_keeps_references :
  forall fails db req,
    ledger_references_users db ->
    ledger_references_users (snd (adjust_credits fails db req)).
Proof.
  intros fails db req [Hc Ht].
  destruct (adjust_credits fails db req) as [o db'] eqn:E. simpl.
  destruct (adjust_credits_outcomes _ _ _ _ _ E)
    as [-> | (actor & uid & amount & reason & _ & _ & Hu & _ & _ & _ & ->)];
    [now split |].
  split; unfold adjusted; simpl.
  - intros w. destruct (decide (w = uid)) as [-> | Hne]; [auto |].
    rewrite lookup_insert_ne by congruence. apply Hc.
  - intros t Hin. apply in_app_or in Hin as [Hin | [<- | []]]; auto.
Qed.

Lemma adjust_credits_keeps_references_witness :
  ledger_references_users
    (snd (adjust_credits no_faults (sample_db None "20")
            (adjust_request 1 "2" 40 "gift"))).
Proof.
  apply (adjust_credits_keeps_references no_faults (sample_db None "20")
           (adjust_request 1 "2" 40 "gift")).
  split.
  - intros uid [b Hb]. unfold sample_db in Hb. simpl in Hb.
    rewrite lookup_empty in Hb. discriminate.
  - intros t [].
Defined.

(** X7: the credit route writes its audit entry with the adjustment or
    not at all: after any run the audit log is the old one, or the old
    one followed by one USER_CREDIT_ADJUSTMENT entry that names the
    actor, the target, the amount, the balances before and after and
    the reason; the second case is the one in which the balance
    changed to the new balance of the entry. *)
Theorem adjust_credits_audit_entry :
  forall fails db req,
    (snd (adjust_credits fails db req) = db)
    \/ exists actor uid amount reason,
         valid_adjustment req actor uid amount reason
         /\ admin_actions_logs (snd (adjust_credits fails db req))
            = (admin_actions_logs db ++
               [ {| admin_user_id := actor;
                    action_type := "USER_CREDIT_ADJUSTMENT";
                    target_entity_type := "USER";
                    target_entity_id := pretty uid;
                    details := CreditAdjustmentDetails amount
                                 (balance_of db uid)
                                 (balance_of db uid + amount) reason;
                    summary := JString reason |} ])%list
         /\ user_credits (snd (adjust_credits fails db req)) !! uid
            = Some (balance_of db uid + amount).
Proof.
  intros fails db req.
  destruct (adjust_credits fails db req) as [o db'] eqn:E. simpl.
  destruct (adjust_credits_outcomes _ _ _ _ _ E)
    as [-> | (actor & uid & amount & reason & Hv & _ & _ & _ & _ & _ & ->)];
    [now left |].
  right. exists actor, uid, amount, reason. repeat split; try apply Hv.
  unfold adjusted. simpl. apply lookup_insert_eq.
Qed.

End CreditRouteFacts.


(* ===================================================================== *)
(** * More on the role route and the model route *)
(* ===================================================================== *)

Module RoleRouteFacts.
Import JsNumber JsString JsValues Schema Http Pg Handler AdminUsers Properties.
Import Invariants TxTactics AdjustCreditsFacts AdminRouteFacts.

(** A request of the role route that passes the checks made before the
    transaction. *)
Lemma update_role_valid fails db req actor uid newRole :
  user req ≫= id = Some actor ->
  parseInt (param req) = Some uid ->
  normalizedNewRole (field req "role") = Some newRole ->
  (uid = actor -> newRole = "admin") ->
  update_role fails db req
  = with_client fails db
      (update_role_tx fails actor uid newRole (field req "summary"))
      "Failed to update user role.".
Proof.
  intros Hu Hp Hr Hself. unfold update_role. rewrite Hu, Hp, Hr.
  destruct (uid =? actor) eqn:E; [| reflexivity].
  apply Z.eqb_eq in E. rewrite (Hself E). reflexivity.
Qed.

(** Whatever fails, the transaction of the role route commits nothing
    or the change of the role together with its audit entry. *)
Lemma update_role_tx_cases fails db actor uid newRole summary r c' :
  update_role_tx fails actor uid newRole summary (connect db) = (r, c') ->
  committed c' = db
  \/ exists u,
       users db !! uid = Some u
       /\ role u <> Some newRole
       /\ r = Ok (json 200 (RoleUpdatedBody "User role updated successfully."
                    (Some {| u_id := uid; u_email := email u;
                             u_role := Some newRole;
                             u_display_name := display_name u |})))
       /\ committed c' = role_updated db actor uid u newRole summary.
Proof.
  unfold update_role_tx, select_user_role, update_user_role, logAdminAction,
    BEGIN, COMMIT, ROLLBACK, query, connect, mbind, tx_bind, mret, tx_ret.
  destruct (fails Begin); [intros [= <- <-]; now left |].
  destruct (fails SelectUserRole); [intros [= <- <-]; now left |].
  simpl. destruct (int4 uid); [| intros [= <- <-]; now left].
  destruct (users db !! uid) as [u |] eqn:Hu; simpl.
  2:{ destruct (fails Rollback); intros [= <- <-]; now left. }
  destruct (bool_decide (role u = Some newRole)) eqn:Hsame.
  { destruct (fails Rollback); intros [= <- <-]; now left. }
  apply bool_decide_eq_false in Hsame.
  destruct (fails UpdateUserRole); [intros [= <- <-]; now left |].
  simpl. rewrite Hu. simpl.
  destruct (fails LogAdminAction); [intros [= <- <-]; now left |].
  simpl.
  destruct (fails Commit); intros [= <- <-]; [now left |].
  right. exists u. repeat split; auto.
Qed.

Lemma update_role_outcomes fails db req o db' :
  update_role fails db req = (o, db') ->
  db' = db
  \/ exists actor uid newRole u,
       user req ≫= id = Some actor
       /\ parseInt (param req) = Some uid
       /\ normalizedNewRole (field req "role") = Some newRole
       /\ (uid = actor -> newRole = "admin")
       /\ users db !! uid = Some u
       /\ role u <> Some newRole
       /\ o = Sent (json 200 (RoleUpdatedBody "User role updated successfully."
                      (Some {| u_id := uid; u_email := email u;
                               u_role := Some newRole;
                               u_display_name := display_name u |})))
       /\ db' = role_updated db actor uid u newRole (field req "summary").
Proof.
  unfold update_role.
  destruct (user req ≫= id) as [actor |] eqn:Hu; [| intros [= <- <-]; now left].
  destruct (parseInt (param req)) as [uid |] eqn:Hp; [| intros [= <- <-]; now left].
  destruct (normalizedNewRole (field req "role")) as [newRole |] eqn:Hr;
    [| intros [= <- <-]; now left].
  destruct ((uid =? actor) && negb (String.eqb newRole "admin")) eqn:Hself;
    [intros [= <- <-]; now left |].
  intros H. apply with_client_cases in H.
  - destruct H as [H | (resp & c' & Hb & -> & ->)]; [now left |].
    destruct (update_role_tx_cases _ _ _ _ _ _ _ _ Hb)
      as [Hc | (u & Hrow & Hne & [= ->] & Hc)]; [now left |].
    right. exists actor, uid, newRole, u. repeat split; auto.
    intros ->. rewrite Z.eqb_refl in Hself. simpl in Hself.
    apply negb_false_iff, String.eqb_eq in Hself. exact Hself.
  - intros r c' Hb.
    destruct (update_role_tx_cases _ _ _ _ _ _ _ _ Hb)
      as [Hc | (u & _ & _ & -> & _)]; eauto.
Qed.

(** X8: a role change goes through as a whole.  For an existing target
    whose role differs from the requested one (and who is not the actor,
    unless the requested role is admin), without a failing statement the
    route answers 200 with the updated user, stores the lower-cased role
    and appends one USER_ROLE_UPDATED audit entry with the old and the
    new role; and whatever fails, the route commits either nothing or
    exactly this state. *)
Theorem update_role_changes_role_with_audit :
  (forall fails db req actor uid newRole u,
      (forall s, fails s = false) ->
      user req ≫= id = Some actor ->
      parseInt (param req) = Some uid ->
      normalizedNewRole (field req "role") = Some newRole ->
      (uid = actor -> newRole = "admin") ->
      int4 uid = true ->
      users db !! uid = Some u ->
      role u <> Some newRole ->
      update_role fails db req
      = (Sent (json 200 (RoleUpdatedBody "User role updated successfully."
                 (Some {| u_id := uid; u_email := email u;
                          u_role := Some newRole;
                          u_display_name := display_name u |}))),
         role_updated db actor uid u newRole (field req "summary")))
  /\ (forall fails db req,
        snd (update_role fails db req) = db
        \/ exists actor uid newRole u,
             user req ≫= id = Some actor
             /\ parseInt (param req) = Some uid
             /\ normalizedNewRole (field req "role") = Some newRole
             /\ users db !! uid = Some u
             /\ snd (update_role fails db req)
                = role_updated db actor uid u newRole (field req "summary")).
Proof.
  split.
  - intros fails db req actor uid newRole u F Hu Hp Hr Hself Hid Hrow Hne.
    rewrite (update_role_valid fails db req actor uid newRole Hu Hp Hr Hself).
    unfold with_client, update_role_tx, select_user_role, update_user_role,
      logAdminAction, BEGIN, COMMIT, ROLLBACK, query, connect,
      mbind, tx_bind, mret, tx_ret.
    rewrite !F. simpl. rewrite Hid, Hrow. simpl.
    rewrite bool_decide_eq_false_2 by exact Hne.
    simpl. rewrite Hrow. reflexivity.
  - intros fails db req.
    destruct (update_role fails db req) as [o db'] eqn:E. simpl.
    destruct (update_role_outcomes _ _ _ _ _ E)
      as [H | (actor & uid & newRole & u & Hu & Hp & Hr & _ & Hrow & _ & _ & ->)];
      [now left |].
    right. exists actor, uid, newRole, u. auto.
Qed.

Lemma update_role_changes_role_with_audit_witness :
  update_role no_faults (sample_db None "20")
    (request 1 "2" [("role", JString "Pro"); ("summary", JString "upgrade")])
  = (Sent (json 200 (RoleUpdatedBody "User role updated successfully."
             (Some {| u_id := 2; u_email := "user@example.com";
                      u_role := Some "pro"; u_display_name := None |}))),
     role_updated (sample_db None "20") 1 2 (sample_user "user") "pro"
       (JString "upgrade")).
Proof.
  apply (proj1 update_role_changes_role_with_audit no_faults
           (sample_db None "20")
           (request 1 "2" [("role", JString "Pro"); ("summary", JString "upgrade")])
           1 2 "pro" (sample_user "user"));
    try reflexivity; discriminate.
Defined.

(** X9: the role route stores valid roles only: if every stored role
    was one of admin, pro, user, sub_user, tester before a request, so
    is every stored role afterwards, whatever the request and whatever
    fails. *)
Theorem update_role_keeps_roles_valid :
  forall fails db req,
    roles_valid db -> roles_valid (snd (update_role fails db req)).
Proof.
  intros fails db req Hinv.
  destruct (update_role fails db req) as [o db'] eqn:E. simpl.
  destruct (update_role_outcomes _ _ _ _ _ E)
    as [-> | (actor & uid & newRole & u & _ & _ & Hr & _ & _ & _ & _ & ->)];
    [exact Hinv |].
  apply normalizedNewRole_Some in Hr as (s & _ & _ & Hin).
  intros w v r. unfold role_updated. simpl.
  destruct (decide (w = uid)) as [-> | Hne].
  - rewrite lookup_insert_eq. intros [= <-]. simpl. now intros [= <-].
  - rewrite lookup_insert_ne by congruence. apply Hinv.
Qed.

Lemma sample_roles_valid balance prime : roles_valid (sample_db balance prime).
Proof.
  intros uid u r. unfold sample_db. simpl.
  destruct (decide (uid = 1)) as [-> | H1].
  - rewrite lookup_insert_eq. intros [= <-] [= <-]. simpl. auto.
  - rewrite lookup_insert_ne by congruence.
    destruct (decide (uid = 2)) as [-> | H2].
    + rewrite lookup_singleton_eq. intros [= <-] [= <-]. simpl. auto.
    + rewrite lookup_singleton_ne by congruence. discriminate.
Defined.

Lemma update_role_keeps_roles_valid_witness :
  roles_valid
    (snd (update_role no_faults (sample_db None "20")
            (request 1 "2" [("role", JString "TESTER")]))).
Proof.
  apply (update_role_keeps_roles_valid no_faults (sample_db None "20")
           (request 1 "2" [("role", JString "TESTER")])).
  apply sample_roles_valid.
Defined.



(** X11: for a target id without a user row the role route answers 404
    and changes nothing. *)
Theorem update_role_unknown_user :
  forall fails db req actor uid newRole,
    user req ≫= id = Some actor ->
    parseInt (param req) = Some uid ->
    normalizedNewRole (field req "role") = Some newRole ->
    (uid = actor -> newRole = "admin") ->
    int4 uid = true ->
    users db !! uid = None ->
    fails Connect = false -> fails Begin = false ->
    fails SelectUserRole = false -> fails Rollback = false ->
    update_role fails db req
    = (Sent (json 404 (ErrorBody "Target user not found.")), db).
Proof.
  intros fails db req actor uid newRole Hu Hp Hr Hself Hid Hrow F1 F2 F3 F4.
  rewrite (update_role_valid fails db req actor uid newRole Hu Hp Hr Hself).
  unfold with_client, update_role_tx, select_user_role,
    BEGIN, ROLLBACK, query, connect, mbind, tx_bind, mret, tx_ret.
  rewrite F1, F2, F3. simpl. rewrite Hid, Hrow. simpl. now rewrite F4.
Qed.

Lemma update_role_unknown_user_witness :
  update_role no_faults (sample_db None "20")
    (request 1 "42" [("role", JString "pro")])
  = (Sent (json 404 (ErrorBody "Target user not found.")),
     sample_db None "20").
Proof.
  apply (update_role_unknown_user no_faults (sample_db None "20")
           (request 1 "42" [("role", JString "pro")]) 1 42 "pro");
    try reflexivity; discriminate.
Defined.

(** X12: the role route changes nothing but the role of the target and
    the audit log: balances, transactions, models and configuration
    stay, and so does every user other than the one named by the route
    parameter; the e-mail address and the display name of the target
    stay as well. *)
Theorem update_role_leaves_the_rest :
  forall fails db req,
    user_credits (snd (update_role fails db req)) = user_credits db
    /\ credit_transactions (snd (update_role fails db req))
       = credit_transactions db
    /\ models (snd (update_role fails db req)) = models db
    /\ app_config (snd (update_role fails db req)) = app_config db
    /\ (forall w, parseInt (param req) <> Some w ->
                  users (snd (update_role fails db req)) !! w = users db !! w)
    /\ (forall w,
          email <$> users (snd (update_role fails db req)) !! w
          = email <$> users db !! w
          /\ display_name <$> users (snd (update_role fails db req)) !! w
             = display_name <$> users db !! w).
Proof.
  intros fails db req.
  destruct (update_role fails db req) as [o db'] eqn:E. simpl.
  destruct (update_role_outcomes _ _ _ _ _ E)
    as [-> | (actor & uid & newRole & u & _ & Hp & _ & _ & Hrow & _ & _ & ->)];
    [repeat split; reflexivity |].
  unfold role_updated. simpl. repeat split.
  - intros w Hw. apply lookup_insert_ne. congruence.
  - destruct (decide (w = uid)) as [-> | Hne].
    + now rewrite lookup_insert_eq, Hrow.
    + now rewrite lookup_insert_ne by congruence.
  - destruct (decide (w = uid)) as [-> | Hne].
    + now rewrite lookup_insert_eq, Hrow.
    + now rewrite lookup_insert_ne by congruence.
Qed.

Lemma update_role_leaves_the_rest_witness :
  users (snd (update_role no_faults (sample_db None "20")
                (request 1 "2" [("role", JString "pro")]))) !! 1
  = users (sample_db None "20") !! 1.
Proof.
  apply (proj1 (proj2 (proj2 (proj2 (proj2
           (update_role_leaves_the_rest no_faults (sample_db None "20")
              (request 1 "2" [("role", JString "pro")])))))) 1).
  vm_compute. discriminate.
Defined.

End RoleRouteFacts.


Module ModelRouteFacts.
Import JsNumber JsString JsValues Schema Http Pg Handler AdminModels Properties.
Import Invariants TxTactics AdjustCreditsFacts AdminRouteFacts.

Lemma update_model_valid decimal_10_2 fails db req actor mid
      inputCost outputCost active :
  valid_model_update req actor mid inputCost outputCost active ->
  update_model decimal_10_2 fails db req
  = with_client fails db
      (update_model_tx decimal_10_2 fails actor mid inputCost outputCost active)
      "Failed to update model configuration.".
Proof.
  intros (Hu & Hp & Hi & Ho & Ni & Li & No & Lo & Ha).
  unfold update_model. rewrite Hu, Hp, Hi, Ho, Ni, Li, No, Lo, Ha. reflexivity.
Qed.

(** Whatever fails, the transaction of the model route commits nothing
    or the new configuration together with its audit entry. *)
Lemma update_model_tx_cases decimal_10_2 fails db actor mid
      inputCost outputCost active r c' :
  update_model_tx decimal_10_2 fails actor mid inputCost outputCost active
    (connect db) = (r, c') ->
  committed c' = db
  \/ exists currentModel rest i o,
       List.filter (fun m => model_id m =? mid) (models db) = currentModel :: rest
       /\ decimal_10_2 inputCost = Some i
       /\ decimal_10_2 outputCost = Some o
       /\ r = Ok (json 200 (ModelUpdatedBody
                    "Model configuration updated successfully."
                    (Some (set_model_config i o active currentModel))))
       /\ committed c'
          = model_updated db actor mid currentModel inputCost outputCost
              i o active.
Proof.
  unfold update_model_tx, select_model, update_model_row, logAdminAction,
    BEGIN, COMMIT, ROLLBACK, query, connect, mbind, tx_bind, mret, tx_ret.
  destruct (fails Begin); [intros [= <- <-]; now left |].
  destruct (fails SelectModel); [intros [= <- <-]; now left |].
  simpl. destruct (int4 mid); [| intros [= <- <-]; now left].
  destruct (List.filter (fun m => model_id m =? mid) (models db))
    as [| currentModel rest] eqn:Hrow; simpl.
  { destruct (fails Rollback); intros [= <- <-]; now left. }
  match goal with
  | |- context [if ?b then _ else _] => destruct b
  end.
  { destruct (fails Rollback); intros [= <- <-]; now left. }
  destruct (fails UpdateModel); [intros [= <- <-]; now left |].
  simpl.
  destruct (decimal_10_2 inputCost) as [i |]; [| intros [= <- <-]; now left].
  destruct (decimal_10_2 outputCost) as [o |]; [| intros [= <- <-]; now left].
  simpl.
  destruct (fails LogAdminAction); [intros [= <- <-]; now left |].
  simpl.
  destruct (fails Commit); intros [= <- <-]; [now left |].
  right. exists currentModel, rest, i, o. repeat split; auto.
  f_equal. f_equal. f_equal.
  assert (Hmap : forall l,
    List.filter (fun m => model_id m =? mid)
      (List.map (fun r => if model_id r =? mid
                          then set_model_config i o active r else r) l)
    = List.map (set_model_config i o active)
        (List.filter (fun m => model_id m =? mid) l)).
  { induction l as [| x l IH]; [reflexivity |]. simpl.
    destruct (model_id x =? mid) eqn:E; simpl; rewrite ?E, IH; reflexivity. }
  rewrite Hmap, Hrow. reflexivity.
Qed.

Lemma update_model_outcomes decimal_10_2 fails db req o db' :
  update_model decimal_10_2 fails db req = (o, db') ->
  db' = db
  \/ exists actor mid inputCost outputCost active currentModel rest i o',
       valid_model_update req actor mid inputCost outputCost active
       /\ List.filter (fun m => model_id m =? mid) (models db) = currentModel :: rest
       /\ decimal_10_2 inputCost = Some i
       /\ decimal_10_2 outputCost = Some o'
       /\ o = Sent (json 200 (ModelUpdatedBody
                      "Model configuration updated successfully."
                      (Some (set_model_config i o' active currentModel))))
       /\ db' = model_updated db actor mid currentModel inputCost outputCost
                  i o' active.
Proof.
  unfold update_model.
  destruct (user req ≫= id) as [actor |] eqn:Hu; [| intros [= <- <-]; now left].
  destruct (parseInt (param req)) as [mid |] eqn:Hp; [| intros [= <- <-]; now left].
  set (inputCost := parseFloat_js (field req "input_cost_per_million_tokens")).
  set (outputCost := parseFloat_js (field req "output_cost_per_million_tokens")).
  destruct (isNaN inputCost) eqn:Ni; [intros [= <- <-]; now left |].
  destruct (ltb inputCost (of_Z 0)) eqn:Li; [intros [= <- <-]; now left |].
  destruct (isNaN outputCost) eqn:No; [intros [= <- <-]; now left |].
  destruct (ltb outputCost (of_Z 0)) eqn:Lo; [intros [= <- <-]; now left |].
  simpl.
  destruct (field req "is_active") as [| | active | | |] eqn:Ha;
    try (intros [= <- <-]; now left).
  intros H. apply with_client_cases in H.
  - destruct H as [H | (resp & c' & Hb & -> & ->)]; [now left |].
    destruct (update_model_tx_cases _ _ _ _ _ _ _ _ _ _ Hb)
      as [Hc | (cm & rest & i & o' & Hrow & Hi & Ho & [= ->] & Hc)]; [now left |].
    right. exists actor, mid, inputCost, outputCost, active, cm, rest, i, o'.
    repeat split; auto.
  - intros r c' Hb.
    destruct (update_model_tx_cases _ _ _ _ _ _ _ _ _ _ Hb)
      as [Hc | (cm & rest & i & o' & _ & _ & _ & -> & _)]; eauto.
Qed.

(** X13: the model route answers 400 and changes nothing when a cost
    does not parse to a number or is below zero, and when the costs
    pass but [is_active] is not a boolean (actor and model id having
    been accepted). *)
Theorem update_model_rejects_malformed_body :
  forall decimal_10_2 fails db req actor mid,
    user req ≫= id = Some actor ->
    parseInt (param req) = Some mid ->
    let inputCost := parseFloat_js (field req "input_cost_per_million_tokens") in
    let outputCost := parseFloat_js (field req "output_cost_per_million_tokens") in
    (isNaN inputCost = true \/ ltb inputCost (of_Z 0) = true
     \/ isNaN outputCost = true \/ ltb outputCost (of_Z 0) = true ->
     update_model decimal_10_2 fails db req
     = (Sent (json 400 (ErrorBody
                "Invalid cost values. Must be non-negative numbers.")), db))
    /\ (isNaN inputCost = false -> ltb inputCost (of_Z 0) = false ->
        isNaN outputCost = false -> ltb outputCost (of_Z 0) = false ->
        (forall b, field req "is_active" <> JBool b) ->
        update_model decimal_10_2 fails db req
        = (Sent (json 400 (ErrorBody
                   "Invalid is_active value. Must be true or false.")), db)).
Proof.
  intros decimal_10_2 fails db req actor mid Hu Hp inputCost outputCost.
  unfold update_model. rewrite Hu, Hp. fold inputCost outputCost. split.
  - intros H.
    replace (isNaN inputCost || ltb inputCost (of_Z 0)
             || isNaN outputCost || ltb outputCost (of_Z 0)) with true;
      [reflexivity |].
    symmetry. rewrite !orb_true_iff. tauto.
  - intros -> -> -> -> Hb. simpl.
    destruct (field req "is_active"); try reflexivity.
    exfalso. now apply (Hb b).
Qed.

Lemma update_model_rejects_malformed_body_witness :
  update_model (fun _ => None) no_faults (sample_db None "20")
    (request 1 "7" [("input_cost_per_million_tokens", JString "-1");
                    ("output_cost_per_million_tokens", JString "2");
                    ("is_active", JBool true)])
  = (Sent (json 400 (ErrorBody
             "Invalid cost values. Must be non-negative numbers.")),
     sample_db None "20")
  /\ update_model (fun _ => None) no_faults (sample_db None "20")
       (request 1 "7" [("input_cost_per_million_tokens", JString "1");
                       ("output_cost_per_million_tokens", JString "2");
                       ("is_active", JString "true")])
     = (Sent (json 400 (ErrorBody
                "Invalid is_active value. Must be true or false.")),
        sample_db None "20").
Proof.
  split.
  - apply (proj1 (update_model_rejects_malformed_body (fun _ => None) no_faults
             (sample_db None "20")
             (request 1 "7" [("input_cost_per_million_tokens", JString "-1");
                             ("output_cost_per_million_tokens", JString "2");
                             ("is_active", JBool true)])
             1 7 eq_refl eq_refl)).
    right. left. reflexivity.
  - apply (proj2 (update_model_rejects_malformed_body (fun _ => None) no_faults
             (sample_db None "20")
             (request 1 "7" [("input_cost_per_million_tokens", JString "1");
                             ("output_cost_per_million_tokens", JString "2");
                             ("is_active", JString "true")])
             1 7 eq_refl eq_refl)); try reflexivity.
    intros b. vm_compute. discriminate.
Defined.

(** X14: a change of a model's configuration goes through as a whole.
    For an accepted request, an existing model whose stored costs or
    flag differ from the requested ones and costs the column accepts,
    without a failing statement the route answers 200 with the updated
    row, stores the costs and the flag in every row with that id and
    appends one MODEL_CONFIG_UPDATED audit entry with the old and new
    values; and whatever fails, the route commits either nothing or
    exactly this state. *)
Theorem update_model_changes_configuration_with_audit :
  (forall decimal_10_2 fails db req actor mid inputCost outputCost active
          currentModel rest i o,
      (forall s, fails s = false) ->
      valid_model_update req actor mid inputCost outputCost active ->
      int4 mid = true ->
      List.filter (fun m => model_id m =? mid) (models db) = currentModel :: rest ->
      strict_eqb (CostCalculator.parseFloat_value
                    (input_cost_per_million_tokens currentModel)) inputCost
      && strict_eqb (CostCalculator.parseFloat_value
                       (output_cost_per_million_tokens currentModel)) outputCost
      && bool_decide (is_active currentModel = Some active) = false ->
      decimal_10_2 inputCost = Some i ->
      decimal_10_2 outputCost = Some o ->
      update_model decimal_10_2 fails db req
      = (Sent (json 200 (ModelUpdatedBody
                 "Model configuration updated successfully."
                 (Some (set_model_config i o active currentModel)))),
         model_updated db actor mid currentModel inputCost outputCost i o active))
  /\ (forall decimal_10_2 fails db req,
        snd (update_model decimal_10_2 fails db req) = db
        \/ exists actor mid inputCost outputCost active currentModel rest i o,
             valid_model_update req actor mid inputCost outputCost active
             /\ List.filter (fun m => model_id m =? mid) (models db)
                = currentModel :: rest
             /\ decimal_10_2 inputCost = Some i
             /\ decimal_10_2 outputCost = Some o
             /\ snd (update_model decimal_10_2 fails db req)
                = model_updated db actor mid currentModel inputCost outputCost
                    i o active).
Proof.
  split.
  - intros decimal_10_2 fails db req actor mid inputCost outputCost active
      currentModel rest i o F Hv Hid Hrow Hdiff Hi Ho.
    rewrite (update_model_valid decimal_10_2 fails db req actor mid
               inputCost outputCost active Hv).
    destruct (with_client fails db
                (update_model_tx decimal_10_2 fails actor mid inputCost
                   outputCost active)
                "Failed to update model configuration.") as [out db'] eqn:E.
    revert E.
    unfold with_client, update_model_tx, select_model, update_model_row,
      logAdminAction, BEGIN, COMMIT, ROLLBACK, query, connect,
      mbind, tx_bind, mret, tx_ret.
    rewrite !F. simpl. rewrite Hid, Hrow. simpl. rewrite Hdiff.
    simpl. rewrite Hi, Ho. simpl.
    assert (Hmap : forall l,
      List.filter (fun m => model_id m =? mid)
        (List.map (fun r => if model_id r =? mid
                            then set_model_config i o active r else r) l)
      = List.map (set_model_config i o active)
          (List.filter (fun m => model_id m =? mid) l)).
    { induction l as [| x l IH]; [reflexivity |]. simpl.
      destruct (model_id x =? mid) eqn:Ex; simpl; rewrite ?Ex, IH; reflexivity. }
    rewrite Hmap, Hrow. simpl. intros [= <- <-]. reflexivity.
  - intros decimal_10_2 fails db req.
    destruct (update_model decimal_10_2 fails db req) as [out db'] eqn:E. simpl.
    destruct (update_model_outcomes _ _ _ _ _ _ E)
      as [H | (actor & mid & ic & oc & active & cm & rest & i & o' &
               Hv & Hrow & Hi & Ho & _ & ->)]; [now left |].
    right. exists actor, mid, ic, oc, active, cm, rest, i, o'. auto.
Qed.

Lemma update_model_changes_configuration_with_audit_witness :
  update_model (fun x => if isNaN x then None else Some "3.00")
    no_faults (sample_db None "20")
    (request 1 "7" [("input_cost_per_million_tokens", JNumber (of_Z 3));
                    ("output_cost_per_million_tokens", JString "3");
                    ("is_active", JBool false)])
  = (Sent (json 200 (ModelUpdatedBody
             "Model configuration updated successfully."
             (Some (set_model_config "3.00" "3.00" false gemini_flash)))),
     model_updated (sample_db None "20") 1 7 gemini_flash
       (of_Z 3) (parseFloat "3") "3.00" "3.00" false).
Proof.
  apply (proj1 update_model_changes_configuration_with_audit
           (fun x => if isNaN x then None else Some "3.00")
           no_faults (sample_db None "20")
           (request 1 "7" [("input_cost_per_million_tokens", JNumber (of_Z 3));
                           ("output_cost_per_million_tokens", JString "3");
                           ("is_active", JBool false)])
           1 7 (of_Z 3) (parseFloat "3") false gemini_flash [] "3.00" "3.00");
    try reflexivity.
  repeat split; vm_compute; reflexivity.
Defined.

(** X15: the model route never adds or removes a model and never
    touches another one: after any run the users, balances,
    transactions and configuration are unchanged, the models table has
    the same rows in the same order with the same id, name, id string
    and provider, and every row whose id is not the one of the route
    parameter is unchanged. *)
Theorem update_model_leaves_the_rest :
  forall decimal_10_2 fails db req,
    let db' := snd (update_model decimal_10_2 fails db req) in
    users db' = users db
    /\ user_credits db' = user_credits db
    /\ credit_transactions db' = credit_transactions db
    /\ app_config db' = app_config db
    /\ List.map (fun r => (model_id r, model_name r, id_string r, provider r))
         (models db')
       = List.map (fun r => (model_id r, model_name r, id_string r, provider r))
           (models db)
    /\ forall mid,
         parseInt (param req) <> Some mid ->
         List.filter (fun r => model_id r =? mid) (models db')
         = List.filter (fun r => model_id r =? mid) (models db).
Proof.
  intros decimal_10_2 fails db req db'. subst db'.
  destruct (update_model decimal_10_2 fails db req) as [out db'] eqn:E. simpl.
  destruct (update_model_outcomes _ _ _ _ _ _ E)
    as [-> | (actor & mid & ic & oc & active & cm & rest & i & o' &
              Hv & _ & _ & _ & _ & ->)];
    [repeat split; reflexivity |].
  unfold model_updated. simpl. repeat split.
  - rewrite List.map_map. apply List.map_ext. intros r.
    now destruct (model_id r =? mid).
  - intros w Hw. destruct Hv as (_ & Hp & _).
    assert (Hne : mid <> w) by congruence.
    induction (models db) as [| x l IH]; [reflexivity |]. simpl.
    destruct (model_id x =? mid) eqn:Ex.
    + apply Z.eqb_eq in Ex. simpl.
      replace (model_id x =? w) with false
        by (symmetry; apply Z.eqb_neq; congruence).
      exact IH.
    + destruct (model_id x =? w); [now rewrite IH | exact IH].
Qed.

Lemma update_model_leaves_the_rest_witness :
  List.filter (fun r => model_id r =? 7)
    (models (snd (update_model (fun _ => Some "0.00") no_faults
                    (sample_db None "20")
                    (request 1 "8" [("input_cost_per_million_tokens", JString "0");
                                    ("output_cost_per_million_tokens", JString "0");
                                    ("is_active", JBool false)]))))
  = List.filter (fun r => model_id r =? 7) (models (sample_db None "20")).
Proof.
  apply (proj2 (proj2 (proj2 (proj2 (proj2
           (update_model_leaves_the_rest (fun _ => Some "0.00") no_faults
              (sample_db None "20")
              (request 1 "8" [("input_cost_per_million_tokens", JString "0");
                              ("output_cost_per_million_tokens", JString "0");
                              ("is_active", JBool false)])))))) 7).
  vm_compute. discriminate.
Defined.

(** X16: sending the same accepted request again is a no-op when the
    stored texts read back as the requested costs: after a successful
    update, the same request is answered 200 with the no-change message
    and nothing more is written.  (A cost that the DECIMAL(10, 2)
    column rounds does not read back as itself, and the hypothesis
    fails.) *)
Theorem update_model_twice_is_noop :
  forall decimal_10_2 fails db req actor mid inputCost outputCost active
         currentModel rest i o,
    (forall s, fails s = false) ->
    valid_model_update req actor mid inputCost outputCost active ->
    int4 mid = true ->
    List.filter (fun m => model_id m =? mid) (models db) = currentModel :: rest ->
    decimal_10_2 inputCost = Some i ->
    decimal_10_2 outputCost = Some o ->
    strict_eqb (parseFloat i) inputCost = true ->
    strict_eqb (parseFloat o) outputCost = true ->
    update_model decimal_10_2 fails
      (model_updated db actor mid currentModel inputCost outputCost i o active)
      req
    = (Sent (json 200 (ModelUnchangedBody
               "Model details are already set to the provided values. No change made."
               (set_model_config i o active currentModel))),
       model_updated db actor mid currentModel inputCost outputCost i o active).
Proof.
  intros decimal_10_2 fails db req actor mid inputCost outputCost active
    currentModel rest i o F Hv Hid Hrow Hi Ho Ri Ro.
  destruct Hv as (Hu & Hp & Hic & Hoc & Ni & Li & No & Lo & Ha).
  assert (Hmap : forall l,
    List.filter (fun m => model_id m =? mid)
      (List.map (fun r => if model_id r =? mid
                          then set_model_config i o active r else r) l)
    = List.map (set_model_config i o active)
        (List.filter (fun m => model_id m =? mid) l)).
  { induction l as [| x l IH]; [reflexivity |]. simpl.
    destruct (model_id x =? mid) eqn:Ex; simpl; rewrite ?Ex, IH; reflexivity. }
  destruct (update_model_same decimal_10_2 fails
              (model_updated db actor mid currentModel inputCost outputCost
                 i o active)
              req actor mid active
              (set_model_config i o active currentModel)
              (List.map (set_model_config i o active) rest)
              Hu Hp Ha) as [_ H].
  - unfold model_updated. simpl. now rewrite Hmap, Hrow.
  - now rewrite Hic.
  - now rewrite Hoc.
  - reflexivity.
  - apply H; rewrite ?Hic, ?Hoc; auto.
Qed.

Lemma update_model_twice_is_noop_witness :
  update_model (fun x => if isNaN x then None else Some "3.00")
    no_faults
    (model_updated (sample_db None "20") 1 7 gemini_flash
       (of_Z 3) (parseFloat "3") "3.00" "3.00" false)
    (request 1 "7" [("input_cost_per_million_tokens", JNumber (of_Z 3));
                    ("output_cost_per_million_tokens", JString "3");
                    ("is_active", JBool false)])
  = (Sent (json 200 (ModelUnchangedBody
             "Model details are already set to the provided values. No change made."
             (set_model_config "3.00" "3.00" false gemini_flash))),
     model_updated (sample_db None "20") 1 7 gemini_flash
       (of_Z 3) (parseFloat "3") "3.00" "3.00" false).
Proof.
  apply (update_model_twice_is_noop
           (fun x => if isNaN x then None else Some "3.00")
           no_faults (sample_db None "20")
           (request 1 "7" [("input_cost_per_million_tokens", JNumber (of_Z 3));
                           ("output_cost_per_million_tokens", JString "3");
                           ("is_active", JBool false)])
           1 7 (of_Z 3) (parseFloat "3") false gemini_flash [] "3.00" "3.00");
    try reflexivity.
  repeat split; vm_compute; reflexivity.
Defined.

(** X17: for a model id without a row the model route answers 404 and
    changes nothing. *)
Theorem update_model_unknown_model :
  forall decimal_10_2 fails db req actor mid inputCost outputCost active,
    valid_model_update req actor mid inputCost outputCost active ->
    int4 mid = true ->
    List.filter (fun m => model_id m =? mid) (models db) = [] ->
    fails Connect = false -> fails Begin = false ->
    fails SelectModel = false -> fails Rollback = false ->
    update_model decimal_10_2 fails db req
    = (Sent (json 404 (ErrorBody "Model not found.")), db).
Proof.
  intros decimal_10_2 fails db req actor mid inputCost outputCost active
    Hv Hid Hrow F1 F2 F3 F4.
  rewrite (update_model_valid decimal_10_2 fails db req actor mid
             inputCost outputCost active Hv).
  unfold with_client, update_model_tx, select_model,
    BEGIN, ROLLBACK, query, connect, mbind, tx_bind, mret, tx_ret.
  rewrite F1, F2, F3. simpl. rewrite Hid, Hrow. simpl. now rewrite F4.
Qed.

Lemma update_model_unknown_model_witness :
  update_model (fun _ => None) no_faults (sample_db None "20")
    (request 1 "8" [("input_cost_per_million_tokens", JString "1");
                    ("output_cost_per_million_tokens", JString "2");
                    ("is_active", JBool true)])
  = (Sent (json 404 (ErrorBody "Model not found.")), sample_db None "20").
Proof.
  apply (update_model_unknown_model (fun _ => None) no_faults
           (sample_db None "20")
           (request 1 "8" [("input_cost_per_million_tokens", JString "1");
                           ("output_cost_per_million_tokens", JString "2");
                           ("is_active", JBool true)])
           1 8 (parseFloat "1") (parseFloat "2") true);
    try reflexivity.
  repeat split; vm_compute; reflexivity.
Defined.

End ModelRouteFacts.


(* ===================================================================== *)
(** * More on the cost calculator *)
(* ===================================================================== *)

Module CostLookupFacts.
Import JsNumber JsString JsValues Schema CostCalculator Properties.
Import Invariants CostCalculatorFacts.

Lemma lower_ascii_idem c : lower_ascii (lower_ascii c) = lower_ascii c.
Proof. destruct c as [[] [] [] [] [] [] [] []]; reflexivity. Qed.

Lemma toLowerCase_idem s : toLowerCase (toLowerCase s) = toLowerCase s.
Proof.
  induction s as [| c s IH]; [reflexivity |].
  simpl. now rewrite lower_ascii_idem, IH.
Qed.

Lemma toLowerCase_empty s : toLowerCase s = "" <-> s = "".
Proof. destruct s; simpl; split; intros H; try discriminate; reflexivity. Qed.

Lemma dbProvider_lower p p' :
  toLowerCase p = toLowerCase p' -> dbProvider p = dbProvider p'.
Proof. unfold dbProvider. now intros ->. Qed.

(** X18: the cost does not depend on the case of the provider name and
    of the model id, nor on which synonym names the provider: two calls
    whose providers have the same [dbProvider] and whose model ids have
    the same lower-case form resolve to the same cost.  Provider names
    that differ in case only have the same [dbProvider], and so have
    gemini and google, and claude and anthropic. *)
Theorem calculateLlmProviderCost_ignores_case_and_synonyms :
  (forall fails db p p' m m' inputTokens outputTokens,
      dbProvider p = dbProvider p' ->
      toLowerCase m = toLowerCase m' ->
      calculateLlmProviderCost fails db p (Some m) inputTokens outputTokens
      = calculateLlmProviderCost fails db p' (Some m') inputTokens outputTokens)
  /\ (forall p p', toLowerCase p = toLowerCase p' -> dbProvider p = dbProvider p')
  /\ (forall p, toLowerCase p = "gemini" -> dbProvider p = dbProvider "google")
  /\ (forall p, toLowerCase p = "claude" -> dbProvider p = dbProvider "anthropic").
Proof.
  split; [| split; [exact dbProvider_lower | split]].
  - intros fails db p p' m m' inputTokens outputTokens Hp Hm.
    assert (Hfull : forall x, fullIdString p x = fullIdString p' x)
      by (intros; unfold fullIdString; now rewrite Hp).
    assert (Hid : fullIdString p' m = fullIdString p' m')
      by (unfold fullIdString; now rewrite Hm).
    destruct m as [| c m].
    + assert (m' = "") as -> by (apply toLowerCase_empty; now rewrite <- Hm).
      reflexivity.
    + destruct m' as [| c' m']; [discriminate |].
      unfold calculateLlmProviderCost, fixed_cost, baseCost, truthy.
      rewrite Hp, Hfull, Hid. reflexivity.
  - intros p H. unfold dbProvider. now rewrite H.
  - intros p H. unfold dbProvider. now rewrite H.
Qed.

Lemma calculateLlmProviderCost_ignores_case_and_synonyms_witness :
  calculateLlmProviderCost no_faults (sample_db None "20") "GEMINI"
    (Some "Gemini-1.5-FLASH") (of_Z 1000) (of_Z 500)
  = calculateLlmProviderCost no_faults (sample_db None "20") "google"
      (Some "gemini-1.5-flash") (of_Z 1000) (of_Z 500).
Proof.
  apply (proj1 calculateLlmProviderCost_ignores_case_and_synonyms);
    reflexivity.
Defined.

Lemma select_model_rates_same fails db db' p i :
  Forall2 same_rates (models db) (models db') ->
  match select_model_rates fails db p i, select_model_rates fails db' p i with
  | Ok l, Ok l' => Forall2 same_rates l l'
  | Rejected, Rejected => True
  | _, _ => False
  end.
Proof.
  intros H. unfold select_model_rates.
  destruct (fails SelectModelRates); [exact I |].
  induction H as [| r r' l l' Hr Hl IH]; simpl; [constructor |].
  destruct Hr as (Hp & Hi & Hc).
  rewrite <- Hp, <- Hi.
  destruct (_ && _); [constructor |]; auto.
  repeat split; tauto.
Qed.

(** X19: the cost depends on the models table only through the
    lower-cased provider and id string and the two rates of its rows:
    changing the active flag, the name, the id or the letter case of
    the stored provider and id string of any rows leaves every cost as
    it was.  In particular a deactivated model is priced like an active
    one. *)
Theorem calculateLlmProviderCost_ignores_active_flag :
  forall fails db db' p modelIdString inputTokens outputTokens,
    app_config db' = app_config db ->
    Forall2 (fun r r' =>
               toLowerCase (provider r) = toLowerCase (provider r')
               /\ toLowerCase (id_string r) = toLowerCase (id_string r')
               /\ input_cost_per_million_tokens r
                  = input_cost_per_million_tokens r'
               /\ output_cost_per_million_tokens r
                  = output_cost_per_million_tokens r')
      (models db) (models db') ->
    calculateLlmProviderCost fails db p modelIdString inputTokens outputTokens
    = calculateLlmProviderCost fails db' p modelIdString inputTokens outputTokens.
Proof.
  intros fails db db' p modelIdString inputTokens outputTokens Hc Hm.
  assert (Hprime : pricingPrimeMultiplier fails db = pricingPrimeMultiplier fails db')
    by (unfold pricingPrimeMultiplier, select_config; now rewrite Hc).
  unfold calculateLlmProviderCost. rewrite Hprime.
  destruct (fixed_cost p modelIdString); [reflexivity |].
  do 2 f_equal. f_equal.
  unfold baseCost. destruct (truthy modelIdString) as [m |]; [| reflexivity].
  pose proof (select_model_rates_same fails db db' (dbProvider p)
                (fullIdString p m) Hm) as Hs.
  destruct (select_model_rates fails db _ _) as [l |],
           (select_model_rates fails db' _ _) as [l' |];
    try contradiction; [| reflexivity].
  destruct Hs as [| r r' l l' (_ & _ & Hi & Ho) _]; [reflexivity |].
  simpl. now rewrite Hi, Ho.
Qed.

Lemma calculateLlmProviderCost_ignores_active_flag_witness :
  calculateLlmProviderCost no_faults (sample_db None "20") "gemini"
    (Some "gemini-1.5-flash") (of_Z 1000) (of_Z 500)
  = calculateLlmProviderCost no_faults
      (Pg.set_models (sample_db None "20")
         [AdminModels.set_model_config "1.00" "2.00" false gemini_flash])
      "gemini" (Some "gemini-1.5-flash") (of_Z 1000) (of_Z 500).
Proof.
  apply (calculateLlmProviderCost_ignores_active_flag no_faults
           (sample_db None "20")
           (Pg.set_models (sample_db None "20")
              [AdminModels.set_model_config "1.00" "2.00" false gemini_flash])).
  - reflexivity.
  - constructor; [| constructor]. repeat split; reflexivity.
Defined.

End CostLookupFacts.


(* ===================================================================== *)
(** * API-key masking, price conversion and id normalisation *)
(* ===================================================================== *)

Module HelperFacts.
Import JsNumber JsString AdminHelpers Properties JsNumberFacts.

Lemma app_cons c (a b : string) : String c a +:+ b = String c (a +:+ b).
Proof. reflexivity. Qed.

Lemma app_nil (b : string) : "" +:+ b = b.
Proof. reflexivity. Qed.

Lemma length_app (a b : string) :
  String.length (a +:+ b) = (String.length a + String.length b)%nat.
Proof.
  induction a as [| c a IH]; [reflexivity |].
  rewrite app_cons. simpl. now rewrite IH.
Qed.

Lemma str_app_assoc (a b c : string) : (a +:+ b) +:+ c = a +:+ (b +:+ c).
Proof.
  induction a as [| x a IH]; [reflexivity |].
  rewrite !app_cons. now f_equal.
Qed.

Lemma substring_all (s : string) :
  String.substring 0 (String.length s) s = s.
Proof. induction s as [| c s IH]; simpl; [reflexivity | now rewrite IH]. Qed.

Lemma substring_0_app (p x : string) :
  String.substring 0 (String.length p) (p +:+ x) = p.
Proof.
  induction p as [| c p IH]; [now destruct x |].
  rewrite app_cons. simpl. now rewrite IH.
Qed.

Lemma substring_skip_app (a b : string) m :
  String.substring (String.length a) m (a +:+ b) = String.substring 0 m b.
Proof.
  induction a as [| c a IH]; [reflexivity |].
  rewrite app_cons. exact IH.
Qed.

Lemma js_substring_inside s a b :
  0 <= a <= b -> b <= Z.of_nat (String.length s) ->
  js_substring s a b = String.substring (Z.to_nat a) (Z.to_nat (b - a)) s.
Proof.
  intros Ha Hb. unfold js_substring.
  rewrite (Z.min_l a), (Z.min_l b), (Z.max_r 0 a), (Z.max_r 0 b) by lia.
  now rewrite Z.min_l, Z.max_r by lia.
Qed.

Lemma js_substring_prefix p x :
  js_substring (p +:+ x) 0 (Z.of_nat (String.length p)) = p.
Proof.
  rewrite js_substring_inside by (rewrite ?length_app; lia).
  rewrite Z.sub_0_r, Nat2Z.id. apply substring_0_app.
Qed.

Lemma js_substring_suffix x q :
  js_substring (x +:+ q)
    (Z.of_nat (String.length (x +:+ q)) - Z.of_nat (String.length q))
    (Z.of_nat (String.length (x +:+ q))) = q.
Proof.
  rewrite js_substring_inside by (rewrite ?length_app; lia).
  rewrite length_app.
  replace (Z.to_nat _) with (String.length x) by lia.
  replace (Z.to_nat _) with (String.length q) by lia.
  rewrite substring_skip_app. apply substring_all.
Qed.

Lemma js_substring_whole s a :
  a <= 0 -> js_substring s a (Z.of_nat (String.length s)) = s.
Proof.
  intros Ha. unfold js_substring.
  rewrite (Z.min_l a), (Z.max_l 0 a), Z.min_id, (Z.max_r 0 _), Z.min_l, Z.max_r by lia.
  rewrite Z.sub_0_r, Nat2Z.id. apply substring_all.
Qed.

Lemma js_substring_short s b :
  Z.of_nat (String.length s) <= b -> js_substring s 0 b = s.
Proof.
  intros Hb. unfold js_substring.
  rewrite (Z.min_l 0), Z.max_id, (Z.min_r b), (Z.max_r 0 _), Z.min_l, Z.max_r by lia.
  rewrite Z.sub_0_r, Nat2Z.id. apply substring_all.
Qed.

Lemma api_key_masked_Some k :
  k <> "" ->
  api_key_masked (Some k)
  = Some (js_substring k 0 12 +:+ "..."
          +:+ js_substring k (Z.of_nat (String.length k) - 4)
                (Z.of_nat (String.length k))).
Proof. destruct k; [congruence | reflexivity]. Qed.

Lemma api_key_masked_ends p middle q :
  String.length p = 12%nat -> String.length q = 4%nat ->
  api_key_masked (Some (p +:+ middle +:+ q)) = Some (p +:+ "..." +:+ q).
Proof.
  intros Hp Hq.
  rewrite api_key_masked_Some by (destruct p; discriminate).
  f_equal.
  replace 12 with (Z.of_nat (String.length p)) by lia.
  rewrite js_substring_prefix. do 2 f_equal.
  replace 4 with (Z.of_nat (String.length q)) by lia.
  rewrite <- (str_app_assoc p middle q).
  apply js_substring_suffix.
Qed.

(** X20: the mask of an API key shows its first 12 and its last 4
    characters and nothing of what lies between them; a key of at most
    12 characters is shown in full at the start of its mask, and a key
    of at most 4 characters is shown in full twice. *)
Theorem api_key_masked_shows_only_the_ends :
  (forall p middle q,
      String.length p = 12%nat -> String.length q = 4%nat ->
      api_key_masked (Some (p +:+ middle +:+ q)) = Some (p +:+ "..." +:+ q))
  /\ (forall k, k <> "" -> (String.length k <= 12)%nat ->
        exists tail, api_key_masked (Some k) = Some (k +:+ "..." +:+ tail))
  /\ (forall k, k <> "" -> (String.length k <= 4)%nat ->
        api_key_masked (Some k) = Some (k +:+ "..." +:+ k)).
Proof.
  split; [exact api_key_masked_ends | split].
  - intros k Hk Hl. rewrite api_key_masked_Some by assumption.
    rewrite js_substring_short by lia. eauto.
  - intros k Hk Hl. rewrite api_key_masked_Some by assumption.
    rewrite js_substring_short, js_substring_whole by lia. reflexivity.
Qed.

Lemma api_key_masked_shows_only_the_ends_witness :
  api_key_masked (Some ("sk-fusion-ab" +:+ "cdef0123456789" +:+ "wxyz"))
  = Some ("sk-fusion-ab" +:+ "..." +:+ "wxyz").
Proof.
  apply (proj1 api_key_masked_shows_only_the_ends); reflexivity.
Defined.

Lemma hex_byte_inj b b' :
  hex_digit (Byte.to_N b / 16) = hex_digit (Byte.to_N b' / 16) ->
  hex_digit (Byte.to_N b mod 16) = hex_digit (Byte.to_N b' mod 16) ->
  b = b'.
Proof.
  intros H1 H2.
  pose (value := fun c : ascii =>
          let n := N_of_ascii c in
          if (n <? 58)%N then (n - 48)%N else (n - 87)%N).
  assert (Hd : forall x,
             Byte.of_N (value (hex_digit (Byte.to_N x / 16)) * 16
                        + value (hex_digit (Byte.to_N x mod 16))) = Some x)
    by (intros []; reflexivity).
  pose proof (Hd b) as Hb. rewrite H1, H2, Hd in Hb. congruence.
Qed.

Lemma toString_hex_inj l : forall l', toString_hex l = toString_hex l' -> l = l'.
Proof.
  induction l as [| b l IH]; intros [| b' l'] H; simpl in H;
    try discriminate; [reflexivity |].
  injection H as H1 H2 H3.
  f_equal; [now apply hex_byte_inj | now apply IH].
Qed.

Lemma toString_hex_app l l' :
  toString_hex (l ++ l') = toString_hex l +:+ toString_hex l'.
Proof. induction l as [| b l IH]; simpl; [reflexivity | now rewrite IH, !app_cons]. Qed.

Lemma toString_hex_length l :
  String.length (toString_hex l) = (2 * List.length l)%nat.
Proof. induction l as [| b l IH]; simpl; [reflexivity | rewrite IH; lia]. Qed.

Lemma app_inj_l (p a b : string) : p +:+ a = p +:+ b -> a = b.
Proof.
  induction p as [| c p IH]; [auto |].
  rewrite !app_cons. intros [= H]. auto.
Qed.

(** X21: a generated API key is [sk-fusion-] followed by the 56 hex
    digits of the 28 random bytes, 66 characters in all; different
    random bytes give different keys; and the mask of a generated key
    shows the hex digits of the first and of the last two random bytes
    only. *)
Theorem generateNewApiKey_shape_and_mask :
  (forall randomBytes,
      List.length randomBytes = 28%nat ->
      String.length (generateNewApiKey randomBytes) = 66%nat
      /\ String.prefix "sk-fusion-" (generateNewApiKey randomBytes) = true)
  /\ (forall randomBytes randomBytes',
        generateNewApiKey randomBytes = generateNewApiKey randomBytes' ->
        randomBytes = randomBytes')
  /\ (forall first middle y z,
        api_key_masked
          (Some (generateNewApiKey (first :: middle ++ [y; z])%list))
        = Some ("sk-fusion-" +:+ toString_hex [first] +:+ "..."
                +:+ toString_hex [y; z])).
Proof.
  split; [| split].
  - intros l Hl. unfold generateNewApiKey. split.
    + rewrite length_app, toString_hex_length, Hl. reflexivity.
    + apply prefix_correct.
      apply (substring_0_app "sk-fusion-" (toString_hex l)).
  - intros l l' H. apply toString_hex_inj, (app_inj_l "sk-fusion-"), H.
  - intros first middle y z.
    pose proof (api_key_masked_ends
                  ("sk-fusion-" +:+ toString_hex [first])
                  (toString_hex middle) (toString_hex [y; z])) as H.
    unfold generateNewApiKey.
    change (first :: middle ++ [y; z])%list
      with ([first] ++ (middle ++ [y; z]))%list.
    rewrite !toString_hex_app, <- str_app_assoc.
    rewrite H by reflexivity. now rewrite str_app_assoc.
Qed.

Lemma generateNewApiKey_shape_and_mask_witness :
  String.length (generateNewApiKey (repeat Byte.x2a 28)) = 66%nat
  /\ String.prefix "sk-fusion-" (generateNewApiKey (repeat Byte.x2a 28)) = true.
Proof.
  apply (proj1 generateNewApiKey_shape_and_mask). reflexivity.
Defined.

Lemma mul_by_positive_signed s x my ey :
  signed s x -> signed s (mul x (S754_finite false my ey)).
Proof.
  destruct 1 as [| | m e]; apply signed_xorb_false; unfold mul; simpl.
  - constructor.
  - constructor.
  - apply binary_round_aux_signed. lia.
Qed.

Lemma of_Z_1000000 : exists m e, of_Z 1000000 = S754_finite false m e.
Proof. vm_compute. eauto. Qed.

(** X22: [convertPricing] never returns NaN: a price text that does
    not start with a number is converted to 0, and every other price
    keeps its sign, so that a negative price text yields a negative
    price per million tokens. *)
Theorem convertPricing_never_NaN :
  forall pricePerToken,
    isNaN (convertPricing pricePerToken) = false
    /\ (isNaN (parseFloat pricePerToken) = true ->
        convertPricing pricePerToken = of_Z 0)
    /\ (forall s, signed s (parseFloat pricePerToken) ->
                  signed s (convertPricing pricePerToken)).
Proof.
  intros p. destruct of_Z_1000000 as (m & e & Hm).
  unfold convertPricing. rewrite Hm.
  destruct (isNaN (parseFloat p)) eqn:Hnan.
  - split; [reflexivity | split; [reflexivity |]].
    intros s Hs. apply signed_not_nan in Hs. congruence.
  - split; [| split; [discriminate |]].
    + destruct (not_nan_signed _ Hnan) as [s Hs].
      eapply signed_not_nan, mul_by_positive_signed, Hs.
    + intros s Hs. now apply mul_by_positive_signed.
Qed.

Lemma convertPricing_never_NaN_witness :
  signed true (convertPricing "-1").
Proof.
  apply (proj2 (proj2 (convertPricing_never_NaN "-1"))).
  vm_compute. constructor.
Defined.

Lemma split_provider_rebuild originalId :
  forall p r x,
    split_provider originalId = (p, r) ->
    split_provider (p +:+ "/" +:+ x) = (p, Some x).
Proof.
  induction originalId as [| c s IH]; intros p r x H; simpl in H.
  - injection H as <- <-. reflexivity.
  - destruct (Ascii.eqb c "/") eqn:Hc.
    + injection H as <- <-. reflexivity.
    + destruct (split_provider s) as [p' r'] eqn:Hs.
      injection H as <- <-.
      rewrite app_cons. simpl. rewrite Hc.
      now rewrite (IH p' r' x eq_refl).
Qed.

Lemma prefix_cons a p b s :
  String.prefix (String a p) (String b s)
  = if ascii_dec a b then String.prefix p s else false.
Proof. reflexivity. Qed.

Lemma prefix_nil s : String.prefix "" s = true.
Proof. now destruct s. Qed.

Lemma str_includes_cons t c s :
  str_includes t (String c s)
  = String.prefix t (String c s) || str_includes t s.
Proof. reflexivity. Qed.

Lemma replace_dots_no_dot rawId :
  str_includes "." (replace_dots rawId) = false.
Proof.
  induction rawId as [| c s IH]; [reflexivity |].
  change (replace_dots (String c s))
    with (String (if Ascii.eqb c "." then "-"%char else c) (replace_dots s)).
  rewrite str_includes_cons, prefix_cons, IH, orb_false_r.
  destruct (ascii_dec _ _) as [E | E]; [| reflexivity].
  destruct (Ascii.eqb c ".") eqn:Hc; [discriminate |].
  apply Ascii.eqb_neq in Hc. congruence.
Qed.

Lemma get_None_length s :
  forall n, String.get n s = None -> (String.length s <= n)%nat.
Proof.
  induction s as [| x s IH]; intros [| n] H; simpl in *;
    try discriminate; try lia.
  apply IH in H. lia.
Qed.

Lemma get_beyond s :
  forall n, (String.length s <= n)%nat -> String.get n s = None.
Proof.
  induction s as [| x s IH]; intros [| n] H; simpl in *;
    try reflexivity; try lia.
  apply IH. lia.
Qed.

Lemma replace_dots_length rawId :
  String.length (replace_dots rawId) = String.length rawId.
Proof. induction rawId as [| c s IH]; simpl; [reflexivity | now rewrite IH]. Qed.

Lemma replace_dots_get rawId :
  forall n c,
    String.get n rawId = Some c ->
    String.get n (replace_dots rawId)
    = Some (if Ascii.eqb c "." then "-"%char else c).
Proof.
  induction rawId as [| x s IH]; intros n c H; [discriminate |].
  destruct n as [| n]; simpl in *.
  - now injection H as ->.
  - now apply IH.
Qed.

(** X23: [normalizeIdString] keeps the provider part of an id and
    returns the ids of providers other than anthropic and google as
    they are.  For anthropic the result is the id with every point of
    the model part replaced by a hyphen and every other character
    kept in its place: it starts with [anthropic/], has the length of
    the id, and has at each place after the slash the character of the
    id, or a hyphen where the id has a point. *)
Theorem normalizeIdString_keeps_provider :
  (forall originalId,
      fst (split_provider (normalizeIdString originalId))
      = fst (split_provider originalId))
  /\ (forall originalId,
        fst (split_provider originalId) <> "anthropic" ->
        fst (split_provider originalId) <> "google" ->
        normalizeIdString originalId = originalId)
  /\ (forall rawId,
        let normalized := normalizeIdString ("anthropic/" +:+ rawId) in
        String.prefix "anthropic/" normalized = true
        /\ String.length normalized = String.length ("anthropic/" +:+ rawId)
        /\ (forall n c,
              String.get n rawId = Some c ->
              String.get (10 + n) normalized
              = Some (if Ascii.eqb c "." then "-"%char else c))
        /\ (forall n, String.get (10 + n) normalized <> Some "."%char)).
Proof.
  split; [| split].
  - intros originalId. unfold normalizeIdString.
    destruct (split_provider originalId) as [p r] eqn:Hs.
    destruct (String.eqb p "anthropic");
      [simpl; now rewrite (split_provider_rebuild _ _ _ _ Hs) |].
    destruct (String.eqb p "google" && _);
      [simpl; now rewrite (split_provider_rebuild _ _ _ _ Hs) |].
    now rewrite Hs.
  - intros originalId Ha Hg. unfold normalizeIdString.
    destruct (split_provider originalId) as [p r]. simpl in Ha, Hg.
    apply String.eqb_neq in Ha, Hg. now rewrite Ha, Hg.
  - intros rawId. cbv zeta.
    change (normalizeIdString ("anthropic/" +:+ rawId))
      with ("anthropic/" +:+ replace_dots rawId).
    split; [| split; [| split]].
    + apply prefix_correct.
      apply (substring_0_app "anthropic/" (replace_dots rawId)).
    + now rewrite !length_app, replace_dots_length.
    + intros n c H.
      change (String.get (10 + n) ("anthropic/" +:+ replace_dots rawId))
        with (String.get n (replace_dots rawId)).
      now apply replace_dots_get.
    + intros n.
      change (String.get (10 + n) ("anthropic/" +:+ replace_dots rawId))
        with (String.get n (replace_dots rawId)).
      intros H.
      destruct (String.get n rawId) as [c |] eqn:E.
      * rewrite (replace_dots_get _ _ _ E) in H.
        destruct (Ascii.eqb c ".") eqn:Hc; [discriminate |].
        injection H as ->. discriminate.
      * apply get_None_length in E.
        rewrite <- replace_dots_length in E.
        apply get_beyond in E. congruence.
Qed.

Lemma normalizeIdString_keeps_provider_witness :
  normalizeIdString "openai/gpt-4.1" = "openai/gpt-4.1"
  /\ String.get (10 + 8)
       (normalizeIdString ("anthropic/" +:+ "claude-3.5-sonnet"))
     = Some "-"%char.
Proof.
  split.
  - apply (proj1 (proj2 normalizeIdString_keeps_provider)); discriminate.
  - apply (proj1 (proj2 (proj2 (proj2 (proj2 normalizeIdString_keeps_provider)
                                   "claude-3.5-sonnet"))) 8%nat "."%char).
    reflexivity.
Defined.

(** The anthropic id of the documentation. *)
Example normalizeIdString_claude :
  normalizeIdString "anthropic/claude-3.5-sonnet"
  = "anthropic/claude-3-5-sonnet".
Proof. reflexivity. Qed.

Lemma app_nil_r (a : string) : a +:+ "" = a.
Proof. induction a as [| c a IH]; [reflexivity | rewrite app_cons; now f_equal]. Qed.

Lemma replace_gemini_skip kind s :
  forall skip, (String.length s <= skip)%nat -> replace_gemini kind skip s = "".
Proof.
  induction s as [| c s IH]; intros [| k] H; simpl in *;
    try reflexivity; try lia.
  apply IH. lia.
Qed.

Lemma strip_prefix_cons a p b s :
  strip_prefix (String a p) (String b s)
  = if Ascii.eqb a b then strip_prefix p s else None.
Proof. reflexivity. Qed.

Lemma strip_prefix_app p s : strip_prefix p (p +:+ s) = Some s.
Proof.
  induction p as [| c p IH]; [now destruct s |].
  rewrite app_cons, strip_prefix_cons. now rewrite Ascii.eqb_refl.
Qed.

Lemma replace_gemini_0 kind c rest :
  replace_gemini kind 0 (String c rest)
  = match strip_prefix ("gemini-" +:+ kind +:+ "-") (String c rest)
          ≫= match_version with
    | Some (version, _) =>
        "gemini-" +:+ version +:+ "-" +:+ kind
        +:+ replace_gemini kind
              (String.length ("gemini-" +:+ kind +:+ "-" +:+ version) - 1) rest
    | None => String c (replace_gemini kind 0 rest)
    end.
Proof. reflexivity. Qed.

Lemma replace_gemini_no_g kind s :
  str_includes "g" s = false -> replace_gemini kind 0 s = s.
Proof.
  induction s as [| c s IH]; [reflexivity |].
  rewrite str_includes_cons, prefix_cons. intros H.
  apply orb_false_elim in H as [Hc Hs].
  destruct (ascii_dec "g" c) as [<- | Hne]; [now destruct s |].
  apply Ascii.eqb_neq in Hne.
  rewrite replace_gemini_0.
  change ("gemini-" +:+ kind +:+ "-")
    with (String "g" ("emini-" +:+ kind +:+ "-")).
  rewrite strip_prefix_cons, Hne. simpl. now rewrite IH.
Qed.

Lemma str_includes_g_app a b :
  str_includes "g" (a +:+ b) = str_includes "g" a || str_includes "g" b.
Proof.
  induction a as [| c a IH]; [reflexivity |].
  rewrite app_cons, !str_includes_cons, !prefix_cons, IH.
  destruct (ascii_dec "g" c); [| reflexivity].
  now rewrite !prefix_nil.
Qed.

Lemma is_digit_not c x : is_digit c = true -> is_digit x = false -> c <> x.
Proof. intros H1 H2 ->. congruence. Qed.

Lemma span_digits_all d :
  span_digits d = (d, "") ->
  str_includes "g" d = false
  /\ forall rest, span_digits rest = ("", rest) ->
                  span_digits (d +:+ rest) = (d, rest).
Proof.
  induction d as [| c d IH]; intros H.
  - split; [reflexivity |]. intros rest Hr. exact Hr.
  - simpl in H. destruct (is_digit c) eqn:Hc; [| discriminate].
    destruct (span_digits d) as [x r] eqn:Hd.
    injection H as -> ->. destruct (IH eq_refl) as [Hg Happ].
    split.
    + rewrite str_includes_cons, prefix_cons, Hg.
      destruct (ascii_dec "g" c) as [<- |]; [discriminate | reflexivity].
    + intros rest Hr. rewrite app_cons. simpl.
      now rewrite Hc, (Happ rest Hr).
Qed.

Lemma match_version_point d1 d2 :
  d1 <> "" -> span_digits d1 = (d1, "") -> span_digits d2 = (d2, "") ->
  match_version (d1 +:+ "." +:+ d2) = Some (d1 +:+ "." +:+ d2, "")
  /\ str_includes "g" (d1 +:+ "." +:+ d2) = false
  /\ exists c v, d1 +:+ "." +:+ d2 = String c v /\ is_digit c = true.
Proof.
  intros Hne H1 H2.
  destruct (span_digits_all d1 H1) as [Hg1 Happ].
  destruct (span_digits_all d2 H2) as [Hg2 _].
  split; [| split].
  - unfold match_version.
    rewrite (Happ ("." +:+ d2) eq_refl).
    destruct d1 as [| c d1]; [congruence |].
    change ("." +:+ d2) with (String "." d2) at 1.
    cbv beta iota. now rewrite H2.
  - rewrite !str_includes_g_app, Hg1, Hg2. reflexivity.
  - destruct d1 as [| c d1]; [congruence |].
    exists c, (d1 +:+ "." +:+ d2). split; [reflexivity |].
    simpl in H1. now destruct (is_digit c).
Qed.

Lemma replace_gemini_match kind v :
  match_version v = Some (v, "") ->
  replace_gemini kind 0 ("gemini-" +:+ kind +:+ "-" +:+ v)
  = "gemini-" +:+ v +:+ "-" +:+ kind.
Proof.
  intros Hv.
  change ("gemini-" +:+ kind +:+ "-" +:+ v)
    with (String "g" ("emini-" +:+ kind +:+ "-" +:+ v)).
  rewrite replace_gemini_0.
  change (String "g" ("emini-" +:+ kind +:+ "-" +:+ v))
    with ("gemini-" +:+ (kind +:+ ("-" +:+ v))).
  rewrite <- (str_app_assoc kind "-" v), <- (str_app_assoc "gemini-" _ v).
  rewrite strip_prefix_app. simpl mbind. unfold option_bind. rewrite Hv.
  rewrite replace_gemini_skip.
  - now rewrite app_nil_r.
  - rewrite !length_app. simpl. lia.
Qed.

(** X24: for google, [normalizeIdString] moves the version in front
    of the family name: [gemini-flash-V] becomes [gemini-V-flash] and
    [gemini-pro-V] becomes [gemini-V-pro] for every version [V] made of
    digits, a point and digits. *)
Theorem normalizeIdString_gemini_version_first :
  forall d1 d2,
    d1 <> "" -> span_digits d1 = (d1, "") -> span_digits d2 = (d2, "") ->
    normalizeIdString ("google/gemini-flash-" +:+ d1 +:+ "." +:+ d2)
    = "google/gemini-" +:+ d1 +:+ "." +:+ d2 +:+ "-flash"
    /\ normalizeIdString ("google/gemini-pro-" +:+ d1 +:+ "." +:+ d2)
       = "google/gemini-" +:+ d1 +:+ "." +:+ d2 +:+ "-pro".
Proof.
  intros d1 d2 Hne H1 H2.
  destruct (match_version_point d1 d2 Hne H1 H2) as (Hv & Hg & c & v & Hc & Hd).
  set (V := d1 +:+ "." +:+ d2) in *.
  assert (Hp : forall k, k = "flash" \/ k = "pro" ->
               str_includes "g" ("emini-" +:+ k +:+ "-" +:+ V) = false).
  { intros k [-> | ->]; rewrite !str_includes_g_app, Hg; reflexivity. }
  assert (Hq : forall k, k = "flash" \/ k = "pro" ->
               str_includes "g" ("emini-" +:+ V +:+ "-" +:+ k) = false).
  { intros k [-> | ->]; rewrite !str_includes_g_app, Hg; reflexivity. }
  split.
  - change (normalizeIdString ("google/gemini-flash-" +:+ V))
      with ("google/" +:+ replace_gemini "pro" 0
              (replace_gemini "flash" 0 ("gemini-" +:+ "flash" +:+ "-" +:+ V))).
    rewrite (replace_gemini_match "flash" V Hv).
    change ("gemini-" +:+ V +:+ "-" +:+ "flash")
      with (String "g" ("emini-" +:+ V +:+ "-" +:+ "flash")).
    rewrite replace_gemini_0.
    change (String "g" ("emini-" +:+ V +:+ "-" +:+ "flash"))
      with ("gemini-" +:+ (V +:+ "-" +:+ "flash")).
    rewrite Hc at 1.
    replace (strip_prefix ("gemini-" +:+ "pro" +:+ "-")
               ("gemini-" +:+ String c v +:+ "-" +:+ "flash")) with (@None string).
    2:{ change (None = if Ascii.eqb "p" c then
                         strip_prefix "ro-" (v +:+ "-" +:+ "flash") else None).
        destruct (Ascii.eqb "p" c) eqn:E; [| reflexivity].
        apply Ascii.eqb_eq in E. subst c. discriminate. }
    simpl mbind. unfold option_bind.
    rewrite replace_gemini_no_g by (apply Hq; auto).
    subst V. rewrite !str_app_assoc. reflexivity.
  - change (normalizeIdString ("google/gemini-pro-" +:+ V))
      with ("google/" +:+ replace_gemini "pro" 0
              (replace_gemini "flash" 0
                 (String "g" ("emini-" +:+ "pro" +:+ "-" +:+ V)))).
    rewrite replace_gemini_0.
    change (strip_prefix ("gemini-" +:+ "flash" +:+ "-")
              (String "g" ("emini-" +:+ "pro" +:+ "-" +:+ V)))
      with (@None string).
    simpl mbind. unfold option_bind.
    rewrite (replace_gemini_no_g "flash") by (apply Hp; auto).
    change (String "g" ("emini-" +:+ "pro" +:+ "-" +:+ V))
      with ("gemini-" +:+ "pro" +:+ "-" +:+ V).
    rewrite (replace_gemini_match "pro" V Hv).
    subst V. rewrite !str_app_assoc. reflexivity.
Qed.

Lemma normalizeIdString_gemini_version_first_witness :
  normalizeIdString ("google/gemini-flash-" +:+ "1" +:+ "." +:+ "5")
  = "google/gemini-" +:+ "1" +:+ "." +:+ "5" +:+ "-flash".
Proof.
  apply (normalizeIdString_gemini_version_first "1" "5");
    [discriminate | reflexivity | reflexivity].
Defined.

End HelperFacts.


(* ===================================================================== *)
(** * The account routes *)
(* ===================================================================== *)

Module AccountRouteFacts.
Import JsNumber JsString JsValues Schema Http Handler AdminUsers AdminHelpers.
Import Accounts AccountProperties TxTactics.

Lemma trimEnd_empty s : trimEnd s = "" -> trimStart s = "".
Proof.
  induction s as [| c s IH]; [reflexivity |].
  simpl. destruct (trimEnd s); [| discriminate].
  destruct (is_white c); [auto | discriminate].
Qed.

Lemma trimStart_idem s : trimStart (trimStart s) = trimStart s.
Proof.
  induction s as [| c s IH]; [reflexivity |].
  simpl. destruct (is_white c) eqn:E; [exact IH |].
  simpl. now rewrite E.
Qed.

(** [s.trim() === ''], as the checks of the routes have it. *)
Lemma trim_is_empty_trim s : trim_is_empty s = true <-> trim s = "".
Proof.
  unfold trim_is_empty, trim. split.
  - destruct (trimStart s); [reflexivity | discriminate].
  - intros H. apply trimEnd_empty in H. rewrite trimStart_idem in H.
    now rewrite H.
Qed.

Lemma with_session_cases fails dir (body : Run AccountResponse) on_error :
  (forall r c', body (open_session dir) = (r, c') ->
                stored c' = dir \/ exists resp, r = Resolved resp) ->
  forall o dir', with_session fails dir body on_error = (o, dir') ->
    dir' = dir
    \/ exists resp c', body (open_session dir) = (Resolved resp, c')
                       /\ o = Answered resp /\ dir' = stored c'.
Proof.
  intros Hbody o dir'. unfold with_session.
  destruct (fails AccountConnect); [intros [= <- <-]; now left |].
  pose proof (Hbody (fst (body (open_session dir)))
                (snd (body (open_session dir)))) as Hb.
  destruct (body (open_session dir)) as [[resp | e] c].
  - intros [= <- <-]. right. eauto.
  - destruct (Hb eq_refl) as [Hc | [resp [=]]]. simpl in Hc.
    unfold rollback.
    destruct (fails AccountRollbackInCatch); intros [= <- <-]; now left.
Qed.

(** Whatever fails, the transaction of the creation commits nothing or
    the whole new account. *)
Lemma create_user_tx_cases fails dir newId actor email display_name role
      password active r c' :
  create_user_tx fails newId actor email display_name role password active
    (open_session dir) = (r, c') ->
  stored c' = dir
  \/ (r = Resolved (answer 201 (UserCreated newId email (Some display_name)
                                  (Some role) (Some active)))
      /\ stored c' = created dir newId actor email display_name role
                       password active
      /\ accounts dir !! newId = None
      /\ with_email email (accounts dir) = ∅
      /\ balances dir !! newId = None).
Proof.
  unfold create_user_tx, select_user_by_email, insert_user,
    insert_user_credits, logAccountAction, begin_transaction, commit,
    rollback, statement_run, open_session, mbind, run_bind, mret, run_ret.
  repeat tx_head.
  all: intros [= <- <-]; try (left; reflexivity).
  all: right.
  all: repeat match goal with
              | H : bool_decide _ = true |- _ => apply bool_decide_eq_true in H
              end.
  all: intuition.
Qed.

Lemma create_user_valid fails dir newId req actor email display_name role :
  valid_new_user req actor email display_name role ->
  create_user fails dir newId req
  = with_session fails dir
      (create_user_tx fails newId actor (toLowerCase (trim email))
         (trim display_name) role (field req "password")
         (userIsActive (field req "is_active")))
      create_user_error.
Proof.
  intros (Hu & He & Hd & Hr). unfold create_user.
  now rewrite Hu, He, Hd, Hr.
Qed.

Lemma create_user_outcomes fails dir newId req o dir' :
  create_user fails dir newId req = (o, dir') ->
  dir' = dir
  \/ exists actor email display_name role,
       valid_new_user req actor email display_name role
       /\ o = Answered (answer 201 (UserCreated newId
                (toLowerCase (trim email)) (Some (trim display_name))
                (Some role) (Some (userIsActive (field req "is_active")))))
       /\ dir' = created dir newId actor (toLowerCase (trim email))
                   (trim display_name) role (field req "password")
                   (userIsActive (field req "is_active"))
       /\ accounts dir !! newId = None
       /\ with_email (toLowerCase (trim email)) (accounts dir) = ∅
       /\ balances dir !! newId = None.
Proof.
  unfold create_user.
  destruct (user req ≫= id) as [actor |] eqn:Hu; [| intros [= <- <-]; now left].
  destruct (nonempty_string (field req "email")) as [email |] eqn:He;
    [| intros [= <- <-]; now left].
  destruct (nonempty_string (field req "display_name")) as [dn |] eqn:Hd;
    [| intros [= <- <-]; now left].
  destruct (normalizedNewRole (field req "role")) as [role |] eqn:Hr;
    [| intros [= <- <-]; now left].
  intros H. apply with_session_cases in H.
  - destruct H as [H | (resp & c' & Hb & -> & ->)]; [now left |].
    destruct (create_user_tx_cases _ _ _ _ _ _ _ _ _ _ _ Hb)
      as [Hc | ([= ->] & Hc & Hrest)]; [now left |].
    right. exists actor, email, dn, role. repeat split; tauto.
  - intros r c' Hb.
    destruct (create_user_tx_cases _ _ _ _ _ _ _ _ _ _ _ Hb)
      as [Hc | (-> & _)]; eauto.
Qed.

Lemma with_email_empty email (m : gmap Z Account) :
  with_email email m = ∅ <->
  forall i a, m !! i = Some a -> account_email a <> email.
Proof.
  unfold with_email. rewrite map_empty_filter. unfold map_Forall.
  reflexivity.
Qed.

Lemma valid_role_fits v role :
  normalizedNewRole v = Some role -> fits 50 role = true.
Proof.
  intros H. apply AdminRouteFacts.normalizedNewRole_Some in H
    as (s & _ & _ & Hin).
  simpl in Hin. repeat destruct Hin as [<- | Hin]; try reflexivity.
  contradiction.
Qed.

(** X25: the creation of a user refuses, with status 400 and without
    touching the database, a body whose email or display name is not
    a non-blank string or whose role is not valid; and it refuses with
    status 409, again without a write, an email that an account has
    already, compared after trimming and lower-casing. *)
Theorem create_user_refuses_bad_bodies_and_known_emails :
  (forall fails dir newId req actor,
      user req ≫= id = Some actor ->
      nonempty_string (field req "email") = None
      \/ nonempty_string (field req "display_name") = None
      \/ normalizedNewRole (field req "role") = None ->
      exists message,
        create_user fails dir newId req
        = (Answered (answer 400 (AccountError message)), dir))
  /\ (forall fails dir newId req actor email display_name role i a,
        valid_new_user req actor email display_name role ->
        accounts dir !! i = Some a ->
        account_email a = toLowerCase (trim email) ->
        fails AccountConnect = false -> fails AccountBegin = false ->
        fails SelectUserByEmail = false -> fails AccountRollback = false ->
        create_user fails dir newId req
        = (Answered (answer 409
             (AccountError "User with this email already exists.")), dir)).
Proof.
  split.
  - intros fails dir newId req actor Hu H. unfold create_user. rewrite Hu.
    destruct (nonempty_string (field req "email")); [| eauto].
    destruct (nonempty_string (field req "display_name")); [| eauto].
    destruct (normalizedNewRole (field req "role")); [| eauto].
    destruct H as [H | [H | H]]; discriminate.
  - intros fails dir newId req actor email dn role i a Hv Hi Ha Fc Fb Fs Fr.
    rewrite (create_user_valid _ _ _ _ _ _ _ _ Hv).
    unfold with_session, create_user_tx, select_user_by_email,
      begin_transaction, rollback, statement_run, open_session,
      mbind, run_bind, mret, run_ret.
    rewrite Fc, Fb. simpl. rewrite Fs. simpl.
    rewrite bool_decide_eq_false_2.
    + simpl. now rewrite Fr.
    + intros E. eapply with_email_empty in E; eauto.
Qed.

Lemma create_user_refuses_bad_bodies_and_known_emails_witness :
  create_user no_account_faults sample_directory 2
    (account_request 1 ""
       [("email", JString " Root@Example.COM ");
        ("display_name", JString "Second"); ("role", JString "user")])
  = (Answered (answer 409
       (AccountError "User with this email already exists.")),
     sample_directory).
Proof.
  apply (proj2 create_user_refuses_bad_bodies_and_known_emails
           no_account_faults sample_directory 2 _ 1
           " Root@Example.COM " "Second" "user" 1 admin_account);
    try reflexivity.
  repeat split; reflexivity.
Defined.

(** The creation when nothing fails. *)
Lemma create_user_success fails dir newId req actor email display_name role :
  valid_new_user req actor email display_name role ->
  (forall s, fails s = false) ->
  int4 newId = true ->
  accounts dir !! newId = None ->
  balances dir !! newId = None ->
  (forall i a, accounts dir !! i = Some a ->
               account_email a <> toLowerCase (trim email)) ->
  (String.length (toLowerCase (trim email)) <= 255)%nat ->
  (String.length (trim display_name) <= 100)%nat ->
  create_user fails dir newId req
  = (Answered (answer 201 (UserCreated newId (toLowerCase (trim email))
       (Some (trim display_name)) (Some role)
       (Some (userIsActive (field req "is_active"))))),
     created dir newId actor (toLowerCase (trim email)) (trim display_name)
       role (field req "password") (userIsActive (field req "is_active"))).
Proof.
  intros Hv F Hid Hfree Hbal Hemail Hle Hld.
  rewrite (create_user_valid _ _ _ _ _ _ _ _ Hv).
  unfold with_session, create_user_tx, select_user_by_email,
    insert_user, insert_user_credits, logAccountAction,
    begin_transaction, commit, statement_run, open_session,
    mbind, run_bind, mret, run_ret.
  rewrite !F. simpl.
  rewrite bool_decide_eq_true_2 by (now apply with_email_empty).
  rewrite Hid. unfold fits.
  rewrite (proj2 (Nat.leb_le _ 255)) by exact Hle.
  rewrite (proj2 (Nat.leb_le _ 100)) by exact Hld.
  destruct Hv as (_ & _ & _ & Hr).
  pose proof (valid_role_fits _ _ Hr) as Hfit. unfold fits in Hfit.
  rewrite Hfit. simpl.
  rewrite bool_decide_eq_true_2
    by (split; [assumption | now apply with_email_empty]).
  simpl. rewrite Hbal, lookup_insert_eq. reflexivity.
Qed.

(** X26: a well-formed creation with a free email and a fresh id
    stores the account with the trimmed, lower-cased email, the
    trimmed display name and the lower-cased role, stores the trimmed
    password text itself as [password_hash], opens a ledger row with
    balance 0, writes one log entry and answers 201; and whatever
    statement fails, the database afterwards is the one before or the
    one with all of this. *)
Theorem create_user_stores_account :
  forall fails dir newId req actor email display_name role,
    valid_new_user req actor email display_name role ->
    let normalizedEmail := toLowerCase (trim email) in
    let after :=
      created dir newId actor normalizedEmail (trim display_name) role
        (field req "password") (userIsActive (field req "is_active")) in
    (snd (create_user fails dir newId req) = dir
     \/ snd (create_user fails dir newId req) = after)
    /\ ((forall s, fails s = false) ->
        int4 newId = true ->
        accounts dir !! newId = None ->
        balances dir !! newId = None ->
        (forall i a, accounts dir !! i = Some a ->
                     account_email a <> normalizedEmail) ->
        (String.length normalizedEmail <= 255)%nat ->
        (String.length (trim display_name) <= 100)%nat ->
        create_user fails dir newId req
        = (Answered (answer 201 (UserCreated newId normalizedEmail
             (Some (trim display_name)) (Some role)
             (Some (userIsActive (field req "is_active"))))), after)
        /\ balances after !! newId = Some 0
        /\ (forall p, nonempty_string (field req "password") = Some p ->
              password_hash <$> accounts after !! newId
              = Some (Some (trim p)))).
Proof.
  intros fails dir newId req actor email dn role Hv normalizedEmail after.
  split.
  - destruct (create_user fails dir newId req) as [o dir'] eqn:E. simpl.
    destruct (create_user_outcomes _ _ _ _ _ _ E)
      as [H | (actor' & email' & dn' & role' & Hv' & _ & H & _)]; [now left |].
    right. destruct Hv as (Hu & He & Hd & Hr), Hv' as (Hu' & He' & Hd' & Hr').
    assert (actor' = actor) by congruence.
    assert (email' = email) by congruence.
    assert (dn' = dn) by congruence.
    assert (role' = role) by congruence.
    subst. reflexivity.
  - intros F Hid Hfree Hbal Hemail Hle Hld.
    split; [| split].
    + now apply create_user_success.
    + unfold after, created. simpl. apply lookup_insert_eq.
    + intros p Hp. unfold after, created. simpl.
      rewrite lookup_insert_eq. simpl. unfold passwordHash. now rewrite Hp.
Qed.

Lemma create_user_stores_account_witness :
  create_user no_account_faults sample_directory 2
    (account_request 1 ""
       [("email", JString " New.User@Example.com ");
        ("display_name", JString " New User ");
        ("role", JString "Pro"); ("password", JString " secret ")])
  = (Answered (answer 201 (UserCreated 2 "new.user@example.com"
       (Some "New User") (Some "pro") (Some true))),
     created sample_directory 2 1 "new.user@example.com" "New User" "pro"
       (JString " secret ") true).
Proof.
  apply (proj2 (create_user_stores_account no_account_faults
                  sample_directory 2
                  (account_request 1 ""
                     [("email", JString " New.User@Example.com ");
                      ("display_name", JString " New User ");
                      ("role", JString "Pro");
                      ("password", JString " secret ")])
                  1 " New.User@Example.com " " New User " "pro"
                  ltac:(repeat split; reflexivity))).
  - reflexivity.
  - reflexivity.
  - reflexivity.
  - reflexivity.
  - intros i a H. unfold sample_directory in H. simpl in H.
    apply lookup_singleton_Some in H as [_ <-]. discriminate.
  - vm_compute. lia.
  - vm_compute. lia.
Defined.

(** Whatever fails, the transaction of the deletion commits nothing or
    the whole deletion. *)
Lemma delete_user_tx_cases fails dir actor uid r c' :
  delete_user_tx fails actor uid (open_session dir) = (r, c') ->
  stored c' = dir
  \/ exists target,
       accounts dir !! uid = Some target
       /\ r = Resolved (answer 200 (UserDeleted "User deleted successfully."
                uid (account_email target) (account_display_name target)
                (account_role target)))
       /\ stored c' = deleted dir actor uid target.
Proof.
  unfold delete_user_tx, select_user_by_id, delete_user_row,
    logAccountAction, begin_transaction, commit, rollback, statement_run,
    open_session, mbind, run_bind, mret, run_ret.
  repeat tx_head.
  all: intros [= <- <-]; try (left; reflexivity).
  right. eexists. repeat split; eauto.
Qed.

Lemma delete_user_outcomes fails dir req o dir' :
  delete_user fails dir req = (o, dir') ->
  dir' = dir
  \/ exists actor uid target,
       user req ≫= id = Some actor
       /\ parseInt (param req) = Some uid
       /\ uid <> actor
       /\ accounts dir !! uid = Some target
       /\ o = Answered (answer 200 (UserDeleted "User deleted successfully."
                uid (account_email target) (account_display_name target)
                (account_role target)))
       /\ dir' = deleted dir actor uid target.
Proof.
  unfold delete_user.
  destruct (user req ≫= id) as [actor |] eqn:Hu; [| intros [= <- <-]; now left].
  destruct (parseInt (param req)) as [uid |] eqn:Hp;
    [| intros [= <- <-]; now left].
  destruct (uid =? actor) eqn:Hne; [intros [= <- <-]; now left |].
  apply Z.eqb_neq in Hne.
  intros H. apply with_session_cases in H.
  - destruct H as [H | (resp & c' & Hb & -> & ->)]; [now left |].
    destruct (delete_user_tx_cases _ _ _ _ _ _ Hb)
      as [Hc | (target & Ht & [= ->] & Hc)]; [now left |].
    right. exists actor, uid, target. repeat split; auto.
  - intros r c' Hb.
    destruct (delete_user_tx_cases _ _ _ _ _ _ Hb)
      as [Hc | (target & _ & -> & _)]; eauto.
Qed.

Lemma is_Some_insert {A} (m : gmap Z A) i x k :
  is_Some (m !! k) -> is_Some (<[i := x]> m !! k).
Proof.
  intros H. destruct (decide (i = k)) as [-> | Hne].
  - rewrite lookup_insert_eq. eauto.
  - now rewrite lookup_insert_ne.
Qed.

Lemma created_consistent dir newId actor email display_name role password active :
  accounts dir !! newId = None ->
  with_email email (accounts dir) = ∅ ->
  is_Some (accounts dir !! actor) ->
  unique_emails dir -> every_account_has_balance dir -> references_hold dir ->
  let after := created dir newId actor email display_name role password active in
  unique_emails after /\ every_account_has_balance after
  /\ references_hold after.
Proof.
  intros Hfree Hemail Hactor Hu Hb (R1 & R2 & R3 & R4). simpl.
  pose proof (proj1 (with_email_empty _ _) Hemail) as Hno.
  split; [| split; [| repeat split]].
  - intros i j a b Hi Hj E. simpl in Hi, Hj.
    destruct (decide (newId = i)) as [<- | Hni],
             (decide (newId = j)) as [<- | Hnj]; try reflexivity.
    + rewrite lookup_insert_eq in Hi. rewrite lookup_insert_ne in Hj by auto.
      injection Hi as <-. simpl in E. exfalso. eapply Hno; eauto.
    + rewrite lookup_insert_eq in Hj. rewrite lookup_insert_ne in Hi by auto.
      injection Hj as <-. simpl in E. exfalso. eapply Hno; eauto.
    + rewrite lookup_insert_ne in Hi, Hj by auto. eauto.
  - intros uid a Ha. simpl in *.
    destruct (decide (newId = uid)) as [<- | Hne].
    + rewrite lookup_insert_eq. eauto.
    + rewrite lookup_insert_ne in Ha by auto.
      rewrite lookup_insert_ne by auto. eauto.
  - intros uid b Hbal. simpl in *.
    destruct (decide (newId = uid)) as [<- | Hne].
    + rewrite lookup_insert_eq. eauto.
    + rewrite lookup_insert_ne in Hbal by auto.
      apply is_Some_insert. eauto.
  - simpl. eapply Forall_impl; [exact R2 |].
    intros t Ht. now apply is_Some_insert.
  - intros k row uid Hk Hrow. simpl in *. apply is_Some_insert. eauto.
  - simpl. apply Forall_app. split.
    + eapply Forall_impl; [exact R4 |].
      intros e He a Ha. apply is_Some_insert. eauto.
    + constructor; [| constructor].
      intros a [= <-]. now apply is_Some_insert.
Qed.

Lemma is_Some_delete {A} (m : gmap Z A) i k :
  k <> i -> is_Some (m !! k) -> is_Some (delete i m !! k).
Proof. intros Hne H. now rewrite lookup_delete_ne. Qed.

Lemma deleted_consistent dir actor uid target :
  uid <> actor ->
  is_Some (accounts dir !! actor) ->
  unique_emails dir -> every_account_has_balance dir -> references_hold dir ->
  let after := deleted dir actor uid target in
  unique_emails after /\ every_account_has_balance after
  /\ references_hold after.
Proof.
  intros Hne Hactor Hu Hb (R1 & R2 & R3 & R4). simpl.
  split; [| split; [| repeat split]].
  - intros i j a b Hi Hj E. simpl in Hi, Hj.
    apply lookup_delete_Some in Hi as [_ Hi], Hj as [_ Hj]. eauto.
  - intros k a Ha. simpl in *.
    apply lookup_delete_Some in Ha as [Hk Ha].
    apply is_Some_delete; eauto.
  - intros k b Hbal. simpl in *.
    apply lookup_delete_Some in Hbal as [Hk Hbal].
    apply is_Some_delete; eauto.
  - simpl. apply List.Forall_forall. intros t Ht.
    apply filter_In in Ht as [Ht Hk].
    apply negb_true_iff, Z.eqb_neq in Hk.
    apply is_Some_delete; [exact Hk |].
    rewrite List.Forall_forall in R2. auto.
  - intros k row u Hk Hrow. simpl in *.
    apply map_lookup_filter_Some in Hk as [Hk Hp]. simpl in Hp.
    apply is_Some_delete; [congruence | eauto].
  - simpl. rewrite List.map_app. apply Forall_app. split.
    + apply List.Forall_forall. intros e He a Ha.
      apply in_map_iff in He as (e0 & <- & He0).
      unfold without_admin in Ha. simpl in Ha.
      destruct (bool_decide (log_admin_user_id e0 = Some uid)) eqn:Hd;
        [discriminate |].
      apply bool_decide_eq_false in Hd.
      apply is_Some_delete; [congruence |].
      rewrite List.Forall_forall in R4. eauto.
    + constructor; [| constructor].
      intros a Ha. simpl in Ha.
      rewrite bool_decide_eq_false_2 in Ha by congruence.
      injection Ha as <-. apply is_Some_delete; auto.
Qed.

(** X27: creating and deleting users keep the database consistent,
    whatever statement fails: for a request of an admin whose account
    exists, if before it no two accounts share an email, every account
    has its ledger row, and every ledger row, credit transaction, API
    key and log entry that names a user refers to an account that
    exists, then the same holds afterwards. *)
Theorem account_routes_keep_directory_consistent :
  forall fails dir newId req,
    unique_emails dir -> every_account_has_balance dir ->
    references_hold dir ->
    (forall actor, user req ≫= id = Some actor ->
                   is_Some (accounts dir !! actor)) ->
    (unique_emails (snd (create_user fails dir newId req))
     /\ every_account_has_balance (snd (create_user fails dir newId req))
     /\ references_hold (snd (create_user fails dir newId req)))
    /\ (unique_emails (snd (delete_user fails dir req))
        /\ every_account_has_balance (snd (delete_user fails dir req))
        /\ references_hold (snd (delete_user fails dir req))).
Proof.
  intros fails dir newId req Hu Hb Hr Hactor. split.
  - destruct (create_user fails dir newId req) as [o dir'] eqn:E. simpl.
    destruct (create_user_outcomes _ _ _ _ _ _ E)
      as [-> | (actor & email & dn & role & Hv & _ & -> & Hfree & He & _)];
      [auto |].
    apply created_consistent; auto. apply Hactor, Hv.
  - destruct (delete_user fails dir req) as [o dir'] eqn:E. simpl.
    destruct (delete_user_outcomes _ _ _ _ _ E)
      as [-> | (actor & uid & target & Hu' & _ & Hne & _ & _ & ->)];
      [auto |].
    apply deleted_consistent; auto.
Qed.

Lemma sample_directory_consistent :
  unique_emails sample_directory
  /\ every_account_has_balance sample_directory
  /\ references_hold sample_directory.
Proof.
  unfold unique_emails, every_account_has_balance, references_hold,
    sample_directory. simpl.
  split; [| split; [| repeat split]].
  - intros i j a b Hi Hj _.
    apply lookup_singleton_Some in Hi as [<- _], Hj as [<- _]. reflexivity.
  - intros uid a Ha. apply lookup_singleton_Some in Ha as [<- _].
    rewrite lookup_singleton_eq. eauto.
  - intros uid b Hb. apply lookup_singleton_Some in Hb as [<- _].
    rewrite lookup_singleton_eq. eauto.
  - constructor.
  - intros k row uid Hk. rewrite lookup_empty in Hk. discriminate.
  - constructor.
Defined.

Lemma account_routes_keep_directory_consistent_witness :
  unique_emails
    (snd (create_user no_account_faults sample_directory 2
            (account_request 1 "2"
               [("email", JString "a@b.c"); ("display_name", JString "A");
                ("role", JString "user")]))).
Proof.
  apply (account_routes_keep_directory_consistent no_account_faults
           sample_directory 2
           (account_request 1 "2"
              [("email", JString "a@b.c"); ("display_name", JString "A");
               ("role", JString "user")])).
  - apply sample_directory_consistent.
  - apply sample_directory_consistent.
  - apply sample_directory_consistent.
  - intros actor [= <-]. simpl. rewrite lookup_singleton_eq. eauto.
Defined.

(** The deletion when nothing fails. *)
Lemma delete_user_success fails dir req actor uid target :
  user req ≫= id = Some actor -> parseInt (param req) = Some uid ->
  uid <> actor -> accounts dir !! uid = Some target ->
  (forall s, fails s = false) -> int4 uid = true ->
  delete_user fails dir req
  = (Answered (answer 200 (UserDeleted "User deleted successfully."
       uid (account_email target) (account_display_name target)
       (account_role target))), deleted dir actor uid target).
Proof.
  intros Hu Hp Hne Ht F Hid. unfold delete_user. rewrite Hu, Hp.
  rewrite (proj2 (Z.eqb_neq uid actor) Hne).
  unfold with_session, delete_user_tx, select_user_by_id,
    delete_user_row, logAccountAction, begin_transaction, commit,
    statement_run, open_session, mbind, run_bind, mret, run_ret.
  rewrite !F. simpl. rewrite Hid, Ht. reflexivity.
Qed.

(** X28: an admin cannot delete the own account (403, nothing
    written).  The deletion of another existing account answers 200
    and removes the account together with its ledger row, its credit
    transactions and its API keys, and takes the user's id out of the
    log entries the user made; whatever statement fails, the database
    afterwards is the one before or the one with all of this. *)
Theorem delete_user_removes_account_and_dependents :
  (forall fails dir req actor,
      user req ≫= id = Some actor -> parseInt (param req) = Some actor ->
      delete_user fails dir req
      = (Answered (answer 403
           (AccountError "Admins cannot delete their own account.")), dir))
  /\ (forall fails dir req actor uid target,
        user req ≫= id = Some actor -> parseInt (param req) = Some uid ->
        uid <> actor -> accounts dir !! uid = Some target ->
        let after := deleted dir actor uid target in
        (snd (delete_user fails dir req) = dir
         \/ snd (delete_user fails dir req) = after)
        /\ ((forall s, fails s = false) -> int4 uid = true ->
            delete_user fails dir req
            = (Answered (answer 200 (UserDeleted "User deleted successfully."
                 uid (account_email target) (account_display_name target)
                 (account_role target))), after))
        /\ accounts after !! uid = None
        /\ balances after !! uid = None
        /\ Forall (fun t => tx_user_id t <> uid) (transactions after)
        /\ (forall k row, api_keys after !! k = Some row ->
                          key_user_id row <> Some uid)
        /\ Forall (fun entry => log_admin_user_id entry <> Some uid)
             (account_logs after)).
Proof.
  split.
  - intros fails dir req actor Hu Hp. unfold delete_user.
    now rewrite Hu, Hp, Z.eqb_refl.
  - intros fails dir req actor uid target Hu Hp Hne Ht after.
    split; [| split; [| repeat split]].
    + destruct (delete_user fails dir req) as [o dir'] eqn:E. simpl.
      destruct (delete_user_outcomes _ _ _ _ _ E)
        as [H | (actor' & uid' & target' & Hu' & Hp' & _ & Ht' & _ & H)];
        [now left |].
      right. assert (actor' = actor) by congruence.
      assert (uid' = uid) by congruence. subst.
      assert (target' = target) by congruence. now subst.
    + intros F Hid. now apply delete_user_success.
    + apply lookup_delete_eq.
    + apply lookup_delete_eq.
    + apply List.Forall_forall. intros t Hin. simpl in Hin.
      apply filter_In in Hin as [_ H].
      now apply negb_true_iff, Z.eqb_neq in H.
    + intros k row Hk. simpl in Hk.
      now apply map_lookup_filter_Some in Hk as [_ H].
    + apply List.Forall_forall. intros e Hin. simpl in Hin.
      apply in_map_iff in Hin as (e0 & <- & _).
      unfold without_admin. simpl.
      destruct (bool_decide (log_admin_user_id e0 = Some uid)) eqn:Hd;
        [discriminate |].
      now apply bool_decide_eq_false in Hd.
Qed.

Lemma delete_user_removes_account_and_dependents_witness :
  delete_user no_account_faults sample_directory (account_request 1 "1" [])
  = (Answered (answer 403
       (AccountError "Admins cannot delete their own account.")),
     sample_directory).
Proof.
  apply (proj1 delete_user_removes_account_and_dependents
           no_account_faults sample_directory (account_request 1 "1" []) 1);
    reflexivity.
Defined.

Lemma filter_all {A} (f : A -> bool) l :
  Forall (fun x => f x = true) l -> List.filter f l = l.
Proof.
  induction 1 as [| x l Hx _ IH]; simpl; [reflexivity |].
  now rewrite Hx, IH.
Qed.

Lemma map_same {A} (f : A -> A) l :
  Forall (fun x => f x = x) l -> List.map f l = l.
Proof.
  induction 1 as [| x l Hx _ IH]; simpl; [reflexivity |].
  now rewrite Hx, IH.
Qed.

Lemma without_admin_other uid entry :
  log_admin_user_id entry <> Some uid -> without_admin uid entry = entry.
Proof.
  intros H. unfold without_admin. rewrite bool_decide_eq_false_2 by exact H.
  now destruct entry.
Qed.

(** X29: deleting an account that was just created undoes the
    creation: in a consistent database, after a successful creation
    of account [newId] and its deletion by the same admin, the
    accounts, ledger rows, credit transactions and API keys are those
    from before the creation, and the log has two more entries. *)
Theorem create_then_delete_restores_tables :
  forall dir newId req req' actor email display_name role,
    valid_new_user req actor email display_name role ->
    user req' ≫= id = Some actor ->
    parseInt (param req') = Some newId ->
    newId <> actor -> int4 newId = true ->
    references_hold dir ->
    accounts dir !! newId = None ->
    (forall i a, accounts dir !! i = Some a ->
                 account_email a <> toLowerCase (trim email)) ->
    (String.length (toLowerCase (trim email)) <= 255)%nat ->
    (String.length (trim display_name) <= 100)%nat ->
    let created_dir := snd (create_user no_account_faults dir newId req) in
    let final := snd (delete_user no_account_faults created_dir req') in
    accounts final = accounts dir
    /\ balances final = balances dir
    /\ transactions final = transactions dir
    /\ api_keys final = api_keys dir
    /\ exists entry entry',
         account_logs final = (account_logs dir ++ [entry; entry'])%list
         /\ log_action_type entry = "USER_CREATED"
         /\ log_action_type entry' = "USER_DELETED".
Proof.
  intros dir newId req req' actor email dn role Hv Hu' Hp' Hne Hid
    (R1 & R2 & R3 & R4) Hfree Hemail Hle Hld created_dir final.
  assert (Hbal : balances dir !! newId = None).
  { destruct (balances dir !! newId) as [b |] eqn:E; [| reflexivity].
    destruct (R1 _ _ E) as [a Ha]. congruence. }
  pose proof (create_user_success no_account_faults dir newId req actor
                email dn role Hv (fun _ => eq_refl) Hid Hfree Hbal Hemail
                Hle Hld) as Hc.
  subst final created_dir. rewrite Hc. cbn [snd].
  set (after := created dir newId actor (toLowerCase (trim email)) (trim dn)
                  role (field req "password")
                  (userIsActive (field req "is_active"))) in *.
  assert (Ht : accounts after !! newId
               = Some (new_account (toLowerCase (trim email)) (trim dn) role
                         (field req "password")
                         (userIsActive (field req "is_active"))))
    by apply lookup_insert_eq.
  pose proof (delete_user_success no_account_faults after req' actor newId _
                Hu' Hp' Hne Ht (fun _ => eq_refl) Hid) as Hd.
  rewrite Hd. cbn [snd]. unfold deleted, after, created. simpl.
  split; [| split; [| split; [| split]]].
  - now apply delete_insert_id.
  - now apply delete_insert_id.
  - apply filter_all. eapply Forall_impl; [exact R2 |].
    intros t [a Ha]. apply negb_true_iff, Z.eqb_neq. congruence.
  - apply map_filter_id. intros k row Hk E. simpl in E.
    destruct (R3 _ _ _ Hk E) as [a Ha]. congruence.
  - eexists _, _. split.
    + rewrite !List.map_app, <- List.app_assoc. f_equal.
      apply map_same. eapply Forall_impl; [exact R4 |].
      intros e He. apply without_admin_other. intros E.
      destruct (He _ E) as [a Ha]. congruence.
    + split; reflexivity.
Qed.

Lemma create_then_delete_restores_tables_witness :
  accounts
    (snd (delete_user no_account_faults
            (snd (create_user no_account_faults sample_directory 2
                    (account_request 1 ""
                       [("email", JString "a@b.c");
                        ("display_name", JString "A");
                        ("role", JString "user")])))
            (account_request 1 "2" [])))
  = accounts sample_directory.
Proof.
  apply (create_then_delete_restores_tables sample_directory 2
           (account_request 1 ""
              [("email", JString "a@b.c"); ("display_name", JString "A");
               ("role", JString "user")])
           (account_request 1 "2" []) 1 "a@b.c" "A" "user").
  - repeat split; reflexivity.
  - reflexivity.
  - reflexivity.
  - lia.
  - reflexivity.
  - apply sample_directory_consistent.
  - reflexivity.
  - intros i a H. unfold sample_directory in H. simpl in H.
    apply lookup_singleton_Some in H as [_ <-]. discriminate.
  - vm_compute. lia.
  - vm_compute. lia.
Defined.

(** The rows of [api_keys] with the given key text. *)
Lemma with_key_empty apiKey (m : gmap Z ApiKeyRow) :
  filter (fun row : Z * ApiKeyRow => key_api_key row.2 = apiKey) m = ∅ <->
  forall k row, m !! k = Some row -> key_api_key row <> apiKey.
Proof. rewrite map_empty_filter. unfold map_Forall. reflexivity. Qed.

(** Whatever fails, the transaction of the key route commits nothing
    or the new key with its log entry. *)
Lemma create_api_key_tx_cases fails dir newId randomBytes actor uid name r c' :
  create_api_key_tx fails newId randomBytes actor uid name (open_session dir)
  = (r, c') ->
  stored c' = dir
  \/ exists target,
       accounts dir !! uid = Some target
       /\ r = Resolved (answer 201 (ApiKeyCreated newId (Some (trim name))
                (generateNewApiKey randomBytes) (Some true)
                "API Key created successfully. Please save this key securely. You will not be able to see it again."))
       /\ stored c' = key_created dir newId actor uid target (trim name)
                        (generateNewApiKey randomBytes)
       /\ api_keys dir !! newId = None.
Proof.
  unfold create_api_key_tx, select_user_by_id, insert_api_key,
    logAccountAction, begin_transaction, commit, rollback, statement_run,
    open_session, mbind, run_bind, mret, run_ret.
  repeat tx_head.
  all: intros [= <- <-]; try (left; reflexivity).
  right. eexists. repeat split; eauto.
  match goal with
  | H : bool_decide _ = true |- _ => now apply bool_decide_eq_true in H
  end.
Qed.

Lemma create_api_key_outcomes fails dir newId randomBytes req o dir' :
  create_api_key fails dir newId randomBytes req = (o, dir') ->
  dir' = dir
  \/ exists actor uid name target,
       user req ≫= id = Some actor
       /\ parseInt (param req) = Some uid
       /\ nonempty_string (field req "name") = Some name
       /\ accounts dir !! uid = Some target
       /\ dir' = key_created dir newId actor uid target (trim name)
                   (generateNewApiKey randomBytes).
Proof.
  unfold create_api_key.
  destruct (user req ≫= id) as [actor |] eqn:Hu; [| intros [= <- <-]; now left].
  destruct (parseInt (param req)) as [uid |] eqn:Hp;
    [| intros [= <- <-]; now left].
  destruct (nonempty_string (field req "name")) as [name |] eqn:Hn;
    [| intros [= <- <-]; now left].
  intros H. apply with_session_cases in H.
  - destruct H as [H | (resp & c' & Hb & -> & ->)]; [now left |].
    destruct (create_api_key_tx_cases _ _ _ _ _ _ _ _ _ Hb)
      as [Hc | (target & Ht & _ & Hc & _)]; [now left |].
    right. exists actor, uid, name, target. repeat split; auto.
  - intros r c' Hb.
    destruct (create_api_key_tx_cases _ _ _ _ _ _ _ _ _ Hb)
      as [Hc | (target & _ & -> & _)]; eauto.
Qed.

(** X30: the creation of an API key for an existing user stores one
    active key with the trimmed name, made of the drawn random bytes,
    answers 201 with the full key and writes one log entry; when the
    drawn key is one that is stored already, the route answers 409 and
    writes nothing; and whatever statement fails, the database
    afterwards is the one before or the one with the new key. *)
Theorem create_api_key_stores_one_key :
  forall fails dir newId randomBytes req actor uid name target,
    user req ≫= id = Some actor ->
    parseInt (param req) = Some uid ->
    nonempty_string (field req "name") = Some name ->
    accounts dir !! uid = Some target ->
    let apiKey := generateNewApiKey randomBytes in
    let after := key_created dir newId actor uid target (trim name) apiKey in
    (snd (create_api_key fails dir newId randomBytes req) = dir
     \/ snd (create_api_key fails dir newId randomBytes req) = after)
    /\ ((forall s, fails s = false) ->
        int4 newId = true -> int4 uid = true ->
        (String.length (trim name) <= 255)%nat ->
        api_keys dir !! newId = None ->
        (forall k row, api_keys dir !! k = Some row ->
                       key_api_key row <> apiKey) ->
        create_api_key fails dir newId randomBytes req
        = (Answered (answer 201 (ApiKeyCreated newId (Some (trim name))
             apiKey (Some true)
             "API Key created successfully. Please save this key securely. You will not be able to see it again.")),
           after))
    /\ ((forall s, fails s = false) ->
        int4 newId = true -> int4 uid = true ->
        (String.length (trim name) <= 255)%nat ->
        (exists k row, api_keys dir !! k = Some row
                       /\ key_api_key row = apiKey) ->
        create_api_key fails dir newId randomBytes req
        = (Answered (answer 409 (AccountError
             "Failed to generate a unique API key. Please try again.")),
           dir)).
Proof.
  intros fails dir newId randomBytes req actor uid name target
    Hu Hp Hn Ht apiKey after.
  split; [| split].
  - destruct (create_api_key fails dir newId randomBytes req)
      as [o dir'] eqn:E. simpl.
    destruct (create_api_key_outcomes _ _ _ _ _ _ _ E)
      as [H | (actor' & uid' & name' & target' & Hu' & Hp' & Hn' & Ht' & H)];
      [now left |].
    right. assert (actor' = actor) by congruence.
    assert (uid' = uid) by congruence.
    assert (name' = name) by congruence. subst.
    assert (target' = target) by congruence. now subst.
  - intros F Hid Huid Hlen Hfree Hnew.
    unfold create_api_key. rewrite Hu, Hp, Hn.
    unfold with_session, create_api_key_tx, select_user_by_id,
      insert_api_key, logAccountAction, begin_transaction, commit,
      statement_run, open_session, mbind, run_bind, mret, run_ret.
    rewrite !F. simpl. rewrite Huid, Ht, Hid. unfold fits.
    rewrite (proj2 (Nat.leb_le _ 255)) by exact Hlen. simpl.
    rewrite bool_decide_eq_true_2
      by (split; [assumption | now apply with_key_empty]).
    rewrite Ht. reflexivity.
  - intros F Hid Huid Hlen (k & row & Hk & Hrow).
    unfold create_api_key. rewrite Hu, Hp, Hn.
    unfold with_session, create_api_key_tx, select_user_by_id,
      insert_api_key, logAccountAction, begin_transaction, commit,
      rollback, statement_run, open_session, mbind, run_bind, mret, run_ret.
    rewrite !F. simpl. rewrite Huid, Ht, Hid. unfold fits.
    rewrite (proj2 (Nat.leb_le _ 255)) by exact Hlen. simpl.
    rewrite bool_decide_eq_false_2.
    + reflexivity.
    + intros [_ E]. eapply with_key_empty in E; eauto.
Qed.

Lemma create_api_key_stores_one_key_witness :
  create_api_key no_account_faults sample_directory 1
    (repeat Byte.x2a 28) (account_request 1 "1" [("name", JString " ci ")])
  = (Answered (answer 201 (ApiKeyCreated 1 (Some "ci")
       (generateNewApiKey (repeat Byte.x2a 28)) (Some true)
       "API Key created successfully. Please save this key securely. You will not be able to see it again.")),
     key_created sample_directory 1 1 1 admin_account "ci"
       (generateNewApiKey (repeat Byte.x2a 28))).
Proof.
  apply (proj1 (proj2 (create_api_key_stores_one_key no_account_faults
                         sample_directory 1 (repeat Byte.x2a 28)
                         (account_request 1 "1" [("name", JString " ci ")])
                         1 1 " ci " admin_account
                         eq_refl eq_refl eq_refl eq_refl))).
  - reflexivity.
  - reflexivity.
  - reflexivity.
  - vm_compute. lia.
  - reflexivity.
  - intros k row H. unfold sample_directory in H. simpl in H.
    rewrite lookup_empty in H. discriminate.
Defined.

End AccountRouteFacts.
